(** * telegram-watcher: the forwarding and state-reconciliation core

    A shallow embedding of [telegram-watcher/bot_watcher.py] and the
    properties of its three forwarding modes (live handler, cron sweep of
    unread messages, history backfill) over the shared watermark state.

    Conventions of the embedding.
    - Python [int] is [Z]; [str] is [string], read as a sequence of code
      points below 256 (the Latin-1 range), which is where [str.strip] and
      [str.lower] are modelled.
    - [Set[int]] and [Set[str]] are [gset]; the state [Dict[str, int]] is a
      [gmap string Z].
    - A [datetime] is an instant: microseconds since the epoch, in UTC (a
      naive datetime is read as UTC, as lines 405-407 do).  [isoformat()]
      is an injective rendering of the instant and is left unrendered.
      [datetime] arithmetic raises [OverflowError] outside the years 1 to
      9999; the one place the watcher does such arithmetic is the cutoff of
      the backfill.
    - The Telegram client, the backend and the state file are the world the
      code runs in: dialogs and their message histories are inputs, the
      backend's answer to each POST is given by an oracle over the history
      of effects, and every POST and every write of the state file is
      recorded in a trace. *)

From Stdlib Require Import Ascii.
From stdpp Require Import gmap strings list fin_maps pretty sorting.

Open Scope Z_scope.

(** ** Python string and truthiness helpers *)

Module Py.

(** [str.isspace] on a single code point below 256. *)
Definition isspace (c : ascii) : bool :=
  let n := N_of_ascii c in
  ((9 <=? n) && (n <=? 13) || (28 <=? n) && (n <=? 32)
   || (n =? 133) || (n =? 160))%N.

Fixpoint lstrip (s : string) : string :=
  match s with
  | EmptyString => EmptyString
  | String c s' => if isspace c then lstrip s' else s
  end.

Definition rstrip (s : string) : string :=
  String.rev (lstrip (String.rev s)).

(** [s.strip()] *)
Definition strip (s : string) : string := rstrip (lstrip s).

Definition lower_char (c : ascii) : ascii :=
  let n := N_of_ascii c in
  if ((65 <=? n) && (n <=? 90)
      || (192 <=? n) && (n <=? 222) && negb (n =? 215))%N
  then ascii_of_N (n + 32) else c.

(** [s.lower()] *)
Fixpoint lower (s : string) : string :=
  match s with
  | EmptyString => EmptyString
  | String c s' => String (lower_char c) (lower s')
  end.

(** Truthiness of a [str]. *)
Definition truthy (s : string) : bool :=
  match s with EmptyString => false | String _ _ => true end.

(** Truthiness of an [Optional[str]]. *)
Definition truthy_opt (o : option string) : bool :=
  match o with Some s => truthy s | None => false end.

(** [a or b] on [Optional[str]] operands. *)
Definition or_opt (a b : option string) : option string :=
  if truthy_opt a then a else b.

Definition isdigit (c : ascii) : bool :=
  let n := N_of_ascii c in ((48 <=? n) && (n <=? 57))%N.

Definition digit_value (c : ascii) : Z := Z.of_N (N_of_ascii c) - 48.

(** The digits of an integer literal: decimal digits, single underscores
    between digits only. *)
Fixpoint int_digits (acc : Z) (after_digit : bool) (s : string) : option Z :=
  match s with
  | EmptyString => if after_digit then Some acc else None
  | String c s' =>
      if isdigit c then int_digits (acc * 10 + digit_value c) true s'
      else if (Ascii.eqb c "_" && after_digit)%bool then int_digits acc false s'
      else None
  end.

(** [int(s)] for a [str]; [None] is [ValueError].  (The interpreter's cap
    on the number of digits of a literal is not modelled.) *)
Definition int_of_str (s : string) : option Z :=
  match strip s with
  | String "-" s' => Z.opp <$> int_digits 0 false s'
  | String "+" s' => int_digits 0 false s'
  | s' => int_digits 0 false s'
  end.

End Py.

(** ** Telegram entities, messages and dialogs *)

(** The entity classes the watcher meets, with the attributes the code
    reads: a [User] has no [title], a [Chat] has neither [username] nor
    [first_name], a [Channel] has no [first_name]. *)
Inductive Entity :=
| User (id : Z) (username first_name : option string) (is_self : bool)
| Chat (id : Z) (title : string)
| Channel (id : Z) (title : string) (username : option string).

(** [entity.__class__.__name__] *)
Definition class_name (e : Entity) : string :=
  match e with
  | User _ _ _ _ => "User"
  | Chat _ _ => "Chat"
  | Channel _ _ _ => "Channel"
  end.

Definition entity_id (e : Entity) : Z :=
  match e with
  | User i _ _ _ | Chat i _ | Channel i _ _ => i
  end.

(** [getattr(x, "id", None)] where [x] may be [None]. *)
Definition getattr_id (x : option Entity) : option Z := entity_id <$> x.

(** [getattr(x, "username", None)] *)
Definition getattr_username (x : option Entity) : option string :=
  match x with
  | Some (User _ u _ _) | Some (Channel _ _ u) => u
  | _ => None
  end.

(** [getattr(x, "title", dflt)] *)
Definition getattr_title (x : option Entity) (dflt : option string)
  : option string :=
  match x with
  | Some (Chat _ t) | Some (Channel _ t _) => Some t
  | _ => dflt
  end.

(** [getattr(x, "first_name", dflt)] *)
Definition getattr_first_name (x : option Entity) (dflt : option string)
  : option string :=
  match x with
  | Some (User _ _ f _) => f
  | _ => dflt
  end.

(** What [await message.get_sender()] does: it raises, or returns the
    sender, which may be [None]. *)
Inductive SenderLookup :=
| SenderRaises
| SenderIs (s : option Entity).

Record Message := {
  m_id : Z;
  m_raw_text : option string;
  m_message : option string;
  m_media : bool;
  m_date : option Z;
  m_sender_id : option Z;
  m_get_sender : SenderLookup;
}.

(** A dialog as [iter_dialogs] yields it, together with the messages the
    chat holds, newest first: [get_messages] and [iter_messages] read
    them. *)
Record Dialog := {
  d_entity : Entity;
  d_name : string;
  d_unread_count : Z;
  d_history : list Message;
}.

(** [client.get_messages(entity, limit=n)]: the [n] most recent messages,
    newest first. *)
Definition get_messages (d : Dialog) (limit : Z) : list Message :=
  take (Z.to_nat limit) (d_history d).

(** [client.iter_messages(entity, limit=limit)] with [limit] possibly
    [None]. *)
Definition iter_messages (d : Dialog) (limit : option Z) : list Message :=
  match limit with
  | Some n => take (Z.to_nat n) (d_history d)
  | None => d_history d
  end.

(** An inbound [events.NewMessage] event of the live handler. *)
Record NewMessage := {
  ev_sender : option Entity;
  ev_chat : option Entity;
  ev_is_private : bool;
  ev_raw_text : option string;
  ev_media : bool;
  ev_id : Z;
  ev_date : Z;
}.

(** ** Configuration (lines 31-112, after parsing of the environment) *)

Record Config := {
  WATCH_ALL : bool;                      (* WATCH_CHATS.lower() == "all" *)
  watch_chat_ids : gset Z;
  watch_usernames : gset string;
  IGNORE_CHAT_IDS : gset Z;
  BACKFILL_MESSAGE_LIMIT : Z;
  BACKFILL_DAYS : Z;
  BACKEND_ACCOUNT_KEY : option string;
  ACCOUNT_ID_NUM : option Z;
  BACKEND_CONTACT_LIST_URL : option string;
}.

(** ** The notification payload *)

Record Payload := {
  p_chat_id : option Z;
  p_chat_title : option string;
  p_chat_username : option string;
  p_sender_id : option Z;
  p_sender_username : option string;
  p_sender_name : option string;
  p_message : string;
  p_message_id : Z;
  p_date : option Z;
  p_unread_count : option Z;             (* key present in cron mode only *)
  p_cron_mode : option bool;
  p_has_media : option bool;
  p_history : option bool;
  p_account_key : option string;         (* set by send_to_backend *)
  p_account_id : option Z;
}.

(** ** Message text (lines 193-203) *)

Definition media_placeholder (message : Message) : string :=
  if m_media message then "[Media message]" else "[No text content]".

Definition extract_message_text (message : Message) : string :=
  let text := Py.strip (default EmptyString (m_raw_text message)) in
  if Py.truthy text then text
  else if Py.truthy_opt (m_message message) then
    let text := Py.strip (default EmptyString (m_message message)) in
    if Py.truthy text then text else media_placeholder message
  else media_placeholder message.

(** The extraction policy as the specification words it: the first of
    trimmed raw text, trimmed secondary text, media placeholder and
    no-text placeholder that applies. *)
Definition extraction_policy (raw secondary : string) (has_media : bool)
  : string :=
  if negb (String.eqb (Py.strip raw) "") then Py.strip raw
  else if negb (String.eqb (Py.strip secondary) "") then Py.strip secondary
  else if has_media then "[Media message]"
  else "[No text content]".

(** ** Contact filter *)

(** [should_forward] (lines 115-129).  A chat id of [0] is falsy. *)
Definition should_forward (cfg : Config) (event_chat : option Entity) : bool :=
  if WATCH_ALL cfg then true
  else match event_chat with
  | None => false
  | Some _ =>
    let chat_id := getattr_id event_chat in
    if match chat_id with
       | Some i => negb (i =? 0) && bool_decide (i ∈ watch_chat_ids cfg)
       | None => false
       end
    then true
    else
      let username := getattr_username event_chat in
      if Py.truthy_opt username
         && bool_decide (Py.lower (default EmptyString username)
                           ∈ watch_usernames cfg)
      then true
      else
        let title := getattr_title event_chat None in
        if Py.truthy_opt title
           && bool_decide (Py.lower (default EmptyString title)
                             ∈ watch_usernames cfg)
        then true
        else false
  end.

(** [chat_id is not None and chat_id in IGNORE_CHAT_IDS] *)
Definition is_ignored (cfg : Config) (chat_id : option Z) : bool :=
  match chat_id with
  | Some i => bool_decide (i ∈ IGNORE_CHAT_IDS cfg)
  | None => false
  end.

(** The [matches_contact] flag of both passes (lines 296-299, 382-385). *)
Definition matches_contact (important_ids : gset Z)
    (important_usernames : gset string)
    (chat_id : option Z) (username : option string) : bool :=
  if match chat_id with
     | Some i => bool_decide (i ∈ important_ids)
     | None => false
     end
  then true
  else if Py.truthy_opt username
          && bool_decide (Py.lower (default EmptyString username)
                            ∈ important_usernames)
  then true
  else false.

(** ** The important-contacts list (lines 152-184) *)

(** A decoded JSON document (numbers are integers). *)
#[local] Set Warnings "-register-all".
Inductive JValue :=
| JNull
| JBool (b : bool)
| JInt (n : Z)
| JStr (s : string)
| JList (l : list JValue)
| JDict (kvs : list (string * JValue)).

Module Json.

(** [d.get(key, dflt)] on a dict given by its items. *)
Fixpoint get (kvs : list (string * JValue)) (key : string) (dflt : JValue)
  : JValue :=
  match kvs with
  | [] => dflt
  | (k, v) :: rest => if String.eqb k key then v else get rest key dflt
  end.

Definition truthy (v : JValue) : bool :=
  match v with
  | JNull => false
  | JBool b => b
  | JInt n => negb (n =? 0)
  | JStr s => Py.truthy s
  | JList l => match l with [] => false | _ => true end
  | JDict kvs => match kvs with [] => false | _ => true end
  end.

(** [a or b] *)
Definition or (a b : JValue) : JValue := if truthy a then a else b.

(** [int(v)]; [None] is [TypeError] or [ValueError]. *)
Definition to_int (v : JValue) : option Z :=
  match v with
  | JInt n => Some n
  | JBool b => Some (if b then 1 else 0)
  | JStr s => Py.int_of_str s
  | JNull | JList _ | JDict _ => None
  end.

End Json.

(** What the GET of the contact list comes to: the request, the status
    check or the JSON decoding raises, or a document is decoded. *)
Inductive Response :=
| RequestRaises
| Body (data : JValue).

(** The two sets as they stand when the function returns, and whether the
    [except] branch ran (the warning "Failed to fetch important contacts"). *)
Record Important := {
  important_ids : gset Z;
  important_usernames : gset string;
  fetch_raised : bool;
}.

(** The [for entry in contacts] loop: the sets are filled in place, so what
    was added before an exception stays. *)
Fixpoint scan_contacts (contacts : list JValue)
    (ids : gset Z) (usernames : gset string) : Important :=
  match contacts with
  | [] => {| important_ids := ids; important_usernames := usernames;
             fetch_raised := false |}
  | JDict entry :: rest =>
    let chat_id :=
      Json.or (Json.get entry "telegramChatId" JNull)
              (Json.get entry "telegram_chat_id" JNull) in
    let username :=
      Json.or (Json.get entry "telegramUsername" JNull)
              (Json.get entry "telegram_username" JNull) in
    let ids' :=
      if Json.truthy chat_id then
        match Json.to_int chat_id with
        | Some n => {[ n ]} ∪ ids
        | None => ids
        end
      else ids in
    if Json.truthy username then
      match username with
      | JStr u => scan_contacts rest ids' ({[ Py.lower u ]} ∪ usernames)
      | _ => {| important_ids := ids'; important_usernames := usernames;
                fetch_raised := true |}      (* no .lower() *)
      end
    else scan_contacts rest ids' usernames
  | _ :: _ => {| important_ids := ids; important_usernames := usernames;
                 fetch_raised := true |}      (* entry has no .get() *)
  end.

Definition no_contacts (raised : bool) : Important :=
  {| important_ids := ∅; important_usernames := ∅; fetch_raised := raised |}.

Definition fetch_important_contacts (cfg : Config) (resp : Response)
  : Important :=
  if negb (Py.truthy_opt (BACKEND_CONTACT_LIST_URL cfg)) then no_contacts false
  else match resp with
  | RequestRaises => no_contacts true
  | Body (JDict data) =>
    match Json.get data "contacts" (JList []) with
    | JList contacts => scan_contacts contacts ∅ ∅
    | JDict [] | JStr EmptyString => no_contacts false (* nothing to iterate *)
    | JDict (_ :: _) | JStr (String _ _) => no_contacts true (* str entries *)
    | JNull | JBool _ | JInt _ => no_contacts true     (* not iterable *)
    end
  | Body _ => no_contacts true                         (* data has no .get() *)
  end.

(** [not important_ids and not important_usernames] *)
Definition nothing_important (imp : Important) : bool :=
  bool_decide (important_ids imp = ∅)
  && bool_decide (important_usernames imp = ∅).

(** ** The world: state file, backend and their trace *)

(** An effect of the watcher: a POST to the backend with the answer
    [send_to_backend] returned for it, tagged with the state key of the chat
    under reconciliation ([None] in live mode), or a write of the state
    file. *)
Inductive Event :=
| Sent (key : option string) (p : Payload) (ok : bool)
| Saved (s : gmap string Z).

(** [disk] is the content of the state file, [None] when it is missing or
    cannot be decoded. *)
Record World := {
  disk : option (gmap string Z);
  trace : list Event;
}.

Definition M (A : Type) : Type := World → A * World.

Definition ret {A} (a : A) : M A := λ w, (a, w).

Definition bind {A B} (m : M A) (f : A → M B) : M B :=
  λ w, let '(a, w') := m w in f a w'.

Notation "'let*' x ':=' m 'in' k" := (bind m (λ x, k))
  (at level 10, x pattern, m at level 100, k at level 200).

(** A [for x in xs] loop threading its variables. *)
Fixpoint for_each {A S} (body : A → S → M S) (xs : list A) (s : S) : M S :=
  match xs with
  | [] => ret s
  | x :: rest => let* s' := body x s in for_each body rest s'
  end.

(** [load_state] (lines 132-141). *)
Definition load_state : M (gmap string Z) :=
  λ w, (default ∅ (disk w), w).

(** [save_state] (lines 144-149).  The store is taken to accept the write:
    the [except] branch, an operating-system failure, is outside the
    model. *)
Definition save_state (state : gmap string Z) : M unit :=
  λ w, (tt, {| disk := Some state; trace := trace w ++ [Saved state] |}).

(** [state.get(state_key, 0)] *)
Definition state_get (state : gmap string Z) (state_key : string) : Z :=
  default 0 (state !! state_key).

(** [get_state_key] (lines 187-190). *)
Definition get_state_key (e : Entity) : string :=
  class_name e +:+ ":" +:+ pretty (entity_id e).

(** The range of [datetime]: [datetime.min] and [datetime.max] in
    microseconds from the epoch, and the largest [days] of a [timedelta]. *)
Definition datetime_min : Z := -62135596800000000.
Definition datetime_max : Z := 253402300799999999.
Definition timedelta_max_days : Z := 999999999.

Section Watcher.

Variable cfg : Config.

(** The backend's verdict on a POST, given everything that happened
    before it: [true] when the request is accepted with a 2xx status. *)
Variable backend : list Event → Payload → bool.

(** The two [payload.setdefault] calls of [send_to_backend]. *)
Definition with_account (payload : Payload) : Payload :=
  {| p_chat_id := p_chat_id payload;
     p_chat_title := p_chat_title payload;
     p_chat_username := p_chat_username payload;
     p_sender_id := p_sender_id payload;
     p_sender_username := p_sender_username payload;
     p_sender_name := p_sender_name payload;
     p_message := p_message payload;
     p_message_id := p_message_id payload;
     p_date := p_date payload;
     p_unread_count := p_unread_count payload;
     p_cron_mode := p_cron_mode payload;
     p_has_media := p_has_media payload;
     p_history := p_history payload;
     p_account_key :=
       if Py.truthy_opt (BACKEND_ACCOUNT_KEY cfg)
       then match p_account_key payload with
            | Some k => Some k
            | None => BACKEND_ACCOUNT_KEY cfg
            end
       else p_account_key payload;
     p_account_id :=
       match ACCOUNT_ID_NUM cfg, p_account_id payload with
       | Some _, Some i => Some i
       | Some n, None => Some n
       | None, i => i
       end |}.

(** [send_to_backend] (lines 206-218): [False] on any failure of the
    POST.  [key] is the tag of the trace. *)
Definition send_to_backend (key : option string) (payload : Payload)
  : M bool :=
  λ w,
    let payload := with_account payload in
    let ok := backend (trace w) payload in
    (ok, {| disk := disk w; trace := trace w ++ [Sent key payload ok] |}).

(** *** Cron sweep (lines 275-349) *)

Definition cron_payload (d : Dialog) (message : Message) : Payload :=
  let entity := Some (d_entity d) in
  let username := getattr_username entity in
  {| p_chat_id := getattr_id entity;
     p_chat_title := Py.or_opt (Some (d_name d)) (getattr_title entity None);
     p_chat_username := username;
     p_sender_id := m_sender_id message;
     p_sender_username := username;
     p_sender_name :=
       Py.or_opt (Py.or_opt (Some (d_name d))
                    (getattr_first_name entity (Some EmptyString)))
         (getattr_title entity (Some EmptyString));
     p_message := extract_message_text message;
     p_message_id := m_id message;
     p_date := m_date message;
     p_unread_count := Some (d_unread_count d);
     p_cron_mode := Some true;
     p_has_media := None;
     p_history := None;
     p_account_key := None;
     p_account_id := None |}.

(** The body of [for message in reversed(messages)] (lines 313-341); the
    loop variables are [last_forwarded] and [notifications_sent]. *)
Definition cron_message (d : Dialog) (message : Message) (s : Z * Z)
  : M (Z * Z) :=
  let '(last_forwarded, notifications_sent) := s in
  if m_id message <=? last_forwarded then ret s
  else
    let* ok := send_to_backend (Some (get_state_key (d_entity d)))
           (cron_payload d message) in
    if ok
    then ret (Z.max last_forwarded (m_id message), notifications_sent + 1)
    else ret s.

(** The body of [async for dialog in client.iter_dialogs()]
    (lines 284-344). *)
Definition cron_dialog (imp : Important) (d : Dialog)
    (s : gmap string Z * Z) : M (gmap string Z * Z) :=
  let '(state, notifications_sent) := s in
  if d_unread_count d <=? 0 then ret s
  else
    let entity := d_entity d in
    let chat_id := getattr_id (Some entity) in
    let username := getattr_username (Some entity) in
    if is_ignored cfg chat_id then ret s
    else if negb (matches_contact (important_ids imp)
                    (important_usernames imp) chat_id username) then ret s
    else if negb (should_forward cfg (Some entity)) then ret s
    else
      let state_key := get_state_key entity in
      let last_forwarded := state_get state state_key in
      let message_limit := Z.max (d_unread_count d) 1 in
      let messages := get_messages d message_limit in
      let* (last_forwarded, notifications_sent) :=
        for_each (cron_message d) (rev messages)
          (last_forwarded, notifications_sent) in
      if last_forwarded >? state_get state state_key
      then ret (<[state_key := last_forwarded]> state, notifications_sent)
      else ret (state, notifications_sent).

Definition process_unread_important_messages (resp : Response)
    (dialogs : list Dialog) : M Z :=
  let imp := fetch_important_contacts cfg resp in
  if nothing_important imp then ret 0
  else
    let* state := load_state in
    let* (state, notifications_sent) :=
      for_each (cron_dialog imp) dialogs (state, 0) in
    let* _ := (if notifications_sent >? 0 then save_state state else ret tt) in
    ret notifications_sent.

(** *** History backfill (lines 352-464) *)

(** [cutoff] (lines 363-365): [now] is [datetime.now(timezone.utc)], an
    instant in microseconds from the epoch.  The subtraction of line 365 is
    [datetime] arithmetic: it raises [OverflowError] when
    [timedelta(days=BACKFILL_DAYS)] cannot be built or when the difference
    leaves the years 1 to 9999.  [cutoff_raises] tells when it does, and
    [backfill_cutoff] is the value of [cutoff] when it does not. *)
Definition cutoff_raises (now : Z) : bool :=
  (BACKFILL_DAYS cfg >? 0)
  && ((BACKFILL_DAYS cfg >? timedelta_max_days)
      || (now - BACKFILL_DAYS cfg * 86400000000 <? datetime_min)
      || (datetime_max <? now - BACKFILL_DAYS cfg * 86400000000)).

Definition backfill_cutoff (now : Z) : option Z :=
  if BACKFILL_DAYS cfg >? 0
  then Some (now - BACKFILL_DAYS cfg * 86400000000)
  else None.

(** [limit] (line 362). *)
Definition backfill_limit : option Z :=
  if BACKFILL_MESSAGE_LIMIT cfg >? 0
  then Some (BACKFILL_MESSAGE_LIMIT cfg) else None.

(** The test of lines 403-411 that ends the walk on an old message. *)
Definition before_cutoff (cutoff : option Z) (message : Message) : bool :=
  match cutoff, m_date message with
  | Some c, Some message_date => message_date <? c
  | _, _ => false
  end.

(** The walk [async for message in client.iter_messages(...)]
    (lines 395-412): what [messages_to_forward] holds when it ends.  A
    message of the client is never [None] and always has an [id], so the
    two [continue] guards do not fire. *)
Fixpoint collect_messages (cutoff : option Z) (last_forwarded : Z)
    (messages : list Message) : list Message :=
  match messages with
  | [] => []
  | message :: rest =>
    if m_id message <=? last_forwarded then []           (* break *)
    else if before_cutoff cutoff message then []         (* break *)
    else message :: collect_messages cutoff last_forwarded rest
  end.

Definition backfill_payload (d : Dialog) (message : Message) : Payload :=
  let entity := Some (d_entity d) in
  let sender :=
    match m_get_sender message with
    | SenderRaises => None
    | SenderIs s => s
    end in
  {| p_chat_id := getattr_id entity;
     p_chat_title := Py.or_opt (Some (d_name d)) (getattr_title entity None);
     p_chat_username := getattr_username entity;
     p_sender_id :=
       match sender with
       | Some _ => getattr_id sender
       | None => m_sender_id message
       end;
     p_sender_username := getattr_username sender;
     p_sender_name :=
       Py.or_opt (Py.or_opt (getattr_first_name sender None)
                    (getattr_title sender None))
         (Some (d_name d));
     p_message := extract_message_text message;
     p_message_id := m_id message;
     p_date := m_date message;
     p_unread_count := None;
     p_cron_mode := None;
     p_has_media := Some (m_media message);
     p_history := Some true;
     p_account_key := None;
     p_account_id := None |}.

(** The body of [for message in reversed(messages_to_forward)]
    (lines 424-449); the loop variables are [last_forwarded] and
    [total_forwarded]. *)
Definition backfill_message (d : Dialog) (message : Message) (s : Z * Z)
  : M (Z * Z) :=
  let '(last_forwarded, total_forwarded) := s in
  let* ok := send_to_backend (Some (get_state_key (d_entity d)))
         (backfill_payload d message) in
  if ok
  then ret (Z.max last_forwarded (m_id message), total_forwarded + 1)
  else ret s.

(** The loop variables of the dialog loop of [backfill_history]
    ([chats_considered] only feeds the final log line). *)
Record Backfill := {
  bf_state : gmap string Z;
  total_forwarded : Z;
  updated_keys : Z;
}.

(** The body of [async for dialog in client.iter_dialogs()]
    (lines 373-453). *)
Definition backfill_dialog (imp : Important) (now : Z) (d : Dialog)
    (s : Backfill) : M Backfill :=
  let entity := d_entity d in
  let chat_id := getattr_id (Some entity) in
  let username := getattr_username (Some entity) in
  if is_ignored cfg chat_id then ret s
  else if negb (matches_contact (important_ids imp)
                  (important_usernames imp) chat_id username) then ret s
  else
    let state := bf_state s in
    let state_key := get_state_key entity in
    let last_forwarded := state_get state state_key in
    let messages_to_forward :=
      collect_messages (backfill_cutoff now) last_forwarded
        (iter_messages d backfill_limit) in
    match messages_to_forward with
    | [] => ret s
    | _ :: _ =>
      let* (last_forwarded, total) :=
        for_each (backfill_message d) (rev messages_to_forward)
          (last_forwarded, total_forwarded s) in
      if last_forwarded >? state_get state state_key
      then ret {| bf_state := <[state_key := last_forwarded]> state;
                  total_forwarded := total;
                  updated_keys := updated_keys s + 1 |}
      else ret {| bf_state := state;
                  total_forwarded := total;
                  updated_keys := updated_keys s |}
    end.

(** [backfill_history] (lines 352-464).  The result is [Some n] when the
    function returns [n], and [None] when line 365 raises [OverflowError]:
    that is after the contact list was fetched and found non-empty and the
    state file was read, and before the dialog loop, so nothing was posted
    or written. *)
Definition backfill_history (resp : Response) (now : Z)
    (dialogs : list Dialog) : M (option Z) :=
  let imp := fetch_important_contacts cfg resp in
  if nothing_important imp then ret (Some 0)
  else
    let* state := load_state in
    if cutoff_raises now then ret None
    else
      let* s := for_each (backfill_dialog imp now) dialogs
            {| bf_state := state; total_forwarded := 0; updated_keys := 0 |} in
      let* _ := (if updated_keys s >? 0 then save_state (bf_state s)
                 else ret tt) in
      ret (Some (total_forwarded s)).

(** *** Live handler (lines 502-535) *)

Inductive Handled :=
| Raised            (* sender.is_self on a sender without that attribute *)
| Dropped           (* one of the early returns *)
| Forwarded (ok : bool).

Definition live_payload (event : NewMessage) : Payload :=
  {| p_chat_id := getattr_id (ev_chat event);
     p_chat_title := getattr_title (ev_chat event) None;
     p_chat_username := getattr_username (ev_chat event);
     p_sender_id := getattr_id (ev_sender event);
     p_sender_username := getattr_username (ev_sender event);
     p_sender_name := getattr_first_name (ev_sender event) (Some EmptyString);
     p_message := default EmptyString (ev_raw_text event);
     p_message_id := ev_id event;
     p_date := Some (ev_date event);
     p_unread_count := None;
     p_cron_mode := None;
     p_has_media := Some (ev_media event);
     p_history := None;
     p_account_key := None;
     p_account_id := None |}.

(** [event.is_private and sender.is_self]; [None] is [AttributeError]. *)
Definition own_private_message (event : NewMessage) : option bool :=
  if ev_is_private event then
    match ev_sender event with
    | Some (User _ _ _ self) => Some self
    | _ => None
    end
  else Some false.

Definition handler (event : NewMessage) : M Handled :=
  match own_private_message event with
  | None => ret Raised
  | Some true => ret Dropped
  | Some false =>
    let chat := ev_chat event in
    let chat_id := getattr_id chat in
    if is_ignored cfg chat_id then ret Dropped
    else if negb (should_forward cfg chat) then ret Dropped
    else
      let message_text := default EmptyString (ev_raw_text event) in
      if negb (Py.truthy message_text) && negb (ev_media event)
      then ret Dropped
      else
        let* ok := send_to_backend None (live_payload event) in
        ret (Forwarded ok)
  end.

End Watcher.

(** ** Vocabulary of the properties *)

Definition dialog_key (d : Dialog) : string := get_state_key (d_entity d).

(** The watermark the state file holds for a key. *)
Definition watermark (w : World) (key : string) : Z :=
  state_get (default ∅ (disk w)) key.

(** The message id of a POST made for the chat [key]. *)
Definition sent_id (key : string) (e : Event) : option Z :=
  match e with
  | Sent (Some k) p _ =>
    if decide (k = key) then Some (p_message_id p) else None
  | _ => None
  end.

(** The ids of the delivery attempts made for [key], in the order of the
    trace. *)
Definition attempted (key : string) (evs : list Event) : list Z :=
  omap (sent_id key) evs.

Definition is_sent (e : Event) : bool :=
  match e with Sent _ _ _ => true | Saved _ => false end.

Definition is_saved (e : Event) : bool := negb (is_sent e).

(** The history of a chat is newest first: ids strictly decrease. *)
Definition newest_first (d : Dialog) : Prop :=
  StronglySorted (λ a b, b < a) (map m_id (d_history d)).

(** The three filters of the skeleton, on the entity of a chat. *)
Definition passes_skeleton (cfg : Config) (imp : Important)
    (chat : option Entity) : bool :=
  negb (is_ignored cfg (getattr_id chat))
  && matches_contact (important_ids imp) (important_usernames imp)
       (getattr_id chat) (getattr_username chat)
  && should_forward cfg chat.

(** *** One shape for the two passes

    Both passes visit a dialog in the same way: decide whether the chat is
    reconciled, pick the messages to go through (oldest first) and the
    payload to build, attempt them in order raising the watermark on each
    success, and store the watermark when it grew.  [Plan] is what differs:
    the cron sweep skips ids at or below the running watermark inside the
    loop, the backfill has filtered them in its walk. *)

Record Plan := {
  plan_skip : bool;
  plan_payload : Message → Payload;
  plan_candidates : list Message;
}.

Section Reconcile.

Variable cfg : Config.
Variable backend : list Event → Payload → bool.

Definition attempt (skip : bool) (key : string) (pl : Message → Payload)
    (message : Message) (s : Z * Z) : M (Z * Z) :=
  if skip && (m_id message <=? s.1) then ret s
  else
    let* ok := send_to_backend cfg backend (Some key) (pl message) in
    if ok then ret (Z.max s.1 (m_id message), s.2 + 1) else ret s.

Definition reconcile (key : string) (plan : Plan)
    (s : gmap string Z * Z) : M (gmap string Z * Z) :=
  let* (last_forwarded, n) :=
    for_each (attempt (plan_skip plan) key (plan_payload plan))
      (plan_candidates plan) (state_get s.1 key, s.2) in
  if last_forwarded >? state_get s.1 key
  then ret (<[key := last_forwarded]> s.1, n)
  else ret (s.1, n).

Definition visit (plan : Dialog → gmap string Z → option Plan)
    (d : Dialog) (s : gmap string Z * Z) : M (gmap string Z * Z) :=
  match plan d s.1 with
  | Some p => reconcile (dialog_key d) p s
  | None => ret s
  end.

Definition sweep_eligible (imp : Important) (d : Dialog) : bool :=
  negb (d_unread_count d <=? 0)
  && passes_skeleton cfg imp (Some (d_entity d)).

Definition sweep_plan (imp : Important) (d : Dialog)
    (state : gmap string Z) : option Plan :=
  if sweep_eligible imp d
  then Some {| plan_skip := true;
               plan_payload := cron_payload d;
               plan_candidates :=
                 rev (get_messages d (Z.max (d_unread_count d) 1)) |}
  else None.

Definition backfill_eligible (imp : Important) (d : Dialog) : bool :=
  negb (is_ignored cfg (getattr_id (Some (d_entity d))))
  && matches_contact (important_ids imp) (important_usernames imp)
       (getattr_id (Some (d_entity d)))
       (getattr_username (Some (d_entity d))).

Definition backfill_plan (imp : Important) (now : Z) (d : Dialog)
    (state : gmap string Z) : option Plan :=
  if backfill_eligible imp d
  then Some {| plan_skip := false;
               plan_payload := backfill_payload d;
               plan_candidates :=
                 rev (collect_messages (backfill_cutoff cfg now)
                        (state_get state (dialog_key d))
                        (iter_messages d (backfill_limit cfg))) |}
  else None.

(** A run of the message loop, as a relation: from watermark [lf] and
    counter [n] after the history [h], going through the messages leaves
    watermark [lf'] and counter [n'] and adds the events [evs]. *)
Inductive attempts (skip : bool) (key : string) (pl : Message → Payload)
  : list Message → Z → Z → list Event → Z → Z → list Event → Prop :=
| attempts_nil lf n h :
    attempts skip key pl [] lf n h lf n []
| attempts_skip m ms lf n h lf' n' evs :
    skip = true → m_id m ≤ lf →
    attempts skip key pl ms lf n h lf' n' evs →
    attempts skip key pl (m :: ms) lf n h lf' n' evs
| attempts_ok m ms lf n h lf' n' evs :
    (skip = true → lf < m_id m) →
    backend h (with_account cfg (pl m)) = true →
    attempts skip key pl ms (Z.max lf (m_id m)) (n + 1)
      (h ++ [Sent (Some key) (with_account cfg (pl m)) true]) lf' n' evs →
    attempts skip key pl (m :: ms) lf n h lf' n'
      (Sent (Some key) (with_account cfg (pl m)) true :: evs)
| attempts_failed m ms lf n h lf' n' evs :
    (skip = true → lf < m_id m) →
    backend h (with_account cfg (pl m)) = false →
    attempts skip key pl ms lf n
      (h ++ [Sent (Some key) (with_account cfg (pl m)) false]) lf' n' evs →
    attempts skip key pl (m :: ms) lf n h lf' n'
      (Sent (Some key) (with_account cfg (pl m)) false :: evs).

(** A visit of one dialog, as a relation: the loop variables [st] (the
    state dict) and [n] (the counter) before and after, and the events
    added. *)
Definition visited (plan : Dialog → gmap string Z → option Plan)
    (d : Dialog) (st : gmap string Z) (n : Z) (h : list Event)
    (st' : gmap string Z) (n' : Z) (evs : list Event) : Prop :=
  match plan d st with
  | None => st' = st ∧ n' = n ∧ evs = []
  | Some p =>
    ∃ lf',
      attempts (plan_skip p) (dialog_key d) (plan_payload p)
        (plan_candidates p) (state_get st (dialog_key d)) n h lf' n' evs
      ∧ st' = if lf' >? state_get st (dialog_key d)
              then <[dialog_key d := lf']> st else st
  end.

(** A run of the dialog loop. *)
Inductive visits (plan : Dialog → gmap string Z → option Plan)
  : list Dialog → gmap string Z → Z → list Event →
    gmap string Z → Z → list Event → Prop :=
| visits_nil st n h :
    visits plan [] st n h st n []
| visits_cons d ds st n h st1 n1 evs1 st' n' evs :
    visited plan d st n h st1 n1 evs1 →
    visits plan ds st1 n1 (h ++ evs1) st' n' evs →
    visits plan (d :: ds) st n h st' n' (evs1 ++ evs).

(** What the properties need of a plan. *)
Record plan_ok (plan : Dialog → gmap string Z → option Plan) : Prop := {
  plan_ids : ∀ d st p m,
    plan d st = Some p → p_message_id (plan_payload p m) = m_id m;
  plan_text : ∀ d st p m,
    plan d st = Some p → p_message (plan_payload p m) = extract_message_text m;
  plan_fresh : ∀ d st p m,
    plan d st = Some p → plan_skip p = false → m ∈ plan_candidates p →
    state_get st (dialog_key d) < m_id m;
  plan_source : ∀ d st p m,
    plan d st = Some p → m ∈ plan_candidates p → m ∈ d_history d;
  plan_sorted : ∀ d st p,
    plan d st = Some p → newest_first d →
    StronglySorted Z.lt (map m_id (plan_candidates p));
  plan_retry : ∀ d st st' p m,
    plan d st = Some p → newest_first d → m ∈ plan_candidates p →
    state_get st' (dialog_key d) < m_id m →
    ∃ p', plan d st' = Some p' ∧ plan_skip p' = plan_skip p
          ∧ plan_payload p' = plan_payload p ∧ m ∈ plan_candidates p';
}.

End Reconcile.

(** The events a run added to the trace. *)
Definition new_events (w w' : World) : list Event :=
  drop (length (trace w)) (trace w').

(** What a pass that does not stop at the contact list comes to: a run of
    the dialog loop from the loaded state, and then the state file written
    with the final state, or left alone when that state is what the file
    already holds. *)
Definition pass_outcome (cfg : Config) (backend : list Event → Payload → bool)
    (plan : Dialog → gmap string Z → option Plan)
    (ds : list Dialog) (w : World) (n' : Z) (w' : World) : Prop :=
  ∃ st' evs,
    visits cfg backend plan ds (default ∅ (disk w)) 0 (trace w) st' n' evs
    ∧ default ∅ (disk w') = st'
    ∧ ((disk w' = disk w ∧ trace w' = trace w ++ evs)
       ∨ (disk w' = Some st' ∧ trace w' = trace w ++ evs ++ [Saved st'])).

(** A sequence of passes over the same state file. *)
Inductive Pass :=
| SweepPass (resp : Response) (dialogs : list Dialog)
| BackfillPass (resp : Response) (now : Z) (dialogs : list Dialog).

Definition run_pass (cfg : Config) (backend : list Event → Payload → bool)
    (p : Pass) (w : World) : World :=
  match p with
  | SweepPass resp ds =>
    (process_unread_important_messages cfg backend resp ds w).2
  | BackfillPass resp now ds =>
    (backfill_history cfg backend resp now ds w).2
  end.

(** The watermark the state file holds for [key] before the first pass and
    after each of the passes. *)
Fixpoint watermarks (cfg : Config) (backend : list Event → Payload → bool)
    (key : string) (ps : list Pass) (w : World) : list Z :=
  match ps with
  | [] => [watermark w key]
  | p :: ps' =>
    watermark w key :: watermarks cfg backend key ps' (run_pass cfg backend p w)
  end.

(** The world after a sequence of passes. *)
Definition run_passes (cfg : Config) (backend : list Event → Payload → bool)
    (ps : list Pass) (w : World) : World :=
  foldl (λ w p, run_pass cfg backend p w) w ps.

(** ** Concrete inputs of the scenarios *)

Module Scenario.

Definition watch_everything : Config :=
  {| WATCH_ALL := true; watch_chat_ids := ∅; watch_usernames := ∅;
     IGNORE_CHAT_IDS := ∅;
     BACKFILL_MESSAGE_LIMIT := 500; BACKFILL_DAYS := 0;
     BACKEND_ACCOUNT_KEY := None; ACCOUNT_ID_NUM := None;
     BACKEND_CONTACT_LIST_URL := Some "https://backend/api/contacts" |}.

(** [WATCH_CHATS=123] *)
Definition watch_123 : Config :=
  {| WATCH_ALL := false; watch_chat_ids := {[ 123 ]}; watch_usernames := ∅;
     IGNORE_CHAT_IDS := ∅;
     BACKFILL_MESSAGE_LIMIT := 500; BACKFILL_DAYS := 0;
     BACKEND_ACCOUNT_KEY := None; ACCOUNT_ID_NUM := None;
     BACKEND_CONTACT_LIST_URL := Some "https://backend/api/contacts" |}.

(** [BACKFILL_DAYS=3] *)
Definition three_days : Config :=
  {| WATCH_ALL := true; watch_chat_ids := ∅; watch_usernames := ∅;
     IGNORE_CHAT_IDS := ∅;
     BACKFILL_MESSAGE_LIMIT := 500; BACKFILL_DAYS := 3;
     BACKEND_ACCOUNT_KEY := None; ACCOUNT_ID_NUM := None;
     BACKEND_CONTACT_LIST_URL := Some "https://backend/api/contacts" |}.

(** [BACKFILL_DAYS=1000000]: further back than [datetime] reaches. *)
Definition before_year_one : Config :=
  {| WATCH_ALL := true; watch_chat_ids := ∅; watch_usernames := ∅;
     IGNORE_CHAT_IDS := ∅;
     BACKFILL_MESSAGE_LIMIT := 500; BACKFILL_DAYS := 1000000;
     BACKEND_ACCOUNT_KEY := None; ACCOUNT_ID_NUM := None;
     BACKEND_CONTACT_LIST_URL := Some "https://backend/api/contacts" |}.

Definition day : Z := 86400000000.

(** The instant the backfill runs at. *)
Definition today : Z := 20000 * day.

Definition ann : Entity := User 555 None (Some "Ann") false.
Definition bob : Entity := User 7 None (Some "Bob") false.

Definition text_message (i : Z) (date : Z) : Message :=
  {| m_id := i; m_raw_text := Some "hi"; m_message := Some "hi";
     m_media := false; m_date := Some date; m_sender_id := Some 555;
     m_get_sender := SenderIs (Some ann) |}.

Definition photo : Message :=
  {| m_id := 1; m_raw_text := Some ""; m_message := Some "";
     m_media := true; m_date := Some today; m_sender_id := Some 555;
     m_get_sender := SenderIs (Some ann) |}.

Definition chat_with_ann (unread : Z) (history : list Message) : Dialog :=
  {| d_entity := ann; d_name := "Ann"; d_unread_count := unread;
     d_history := history |}.

(** Three unread messages, ids 3, 2, 1 newest first. *)
Definition three_unread : Dialog :=
  chat_with_ann 3
    [text_message 3 today; text_message 2 today; text_message 1 today].

(** The history of the cutoff scenario: 90 and 89 of today, 88 of four
    days ago. *)
Definition with_old_message : Dialog :=
  chat_with_ann 0
    [text_message 90 today; text_message 89 today;
     text_message 88 (today - 4 * day)].

(** [{"contacts": [{"telegramChatId": 555}]}] *)
Definition contacts_555 : Response :=
  Body (JDict [("contacts",
                JList [JDict [("telegramChatId", JInt 555)]])]).

(** [{"contacts": [{"telegramChatId": 555}, 42]}]: the second entry is
    not an object. *)
Definition contacts_555_then_junk : Response :=
  Body (JDict [("contacts",
                JList [JDict [("telegramChatId", JInt 555)]; JInt 42])]).

Definition accepts_all : list Event → Payload → bool := λ _ _, true.
Definition rejects_all : list Event → Payload → bool := λ _ _, false.

(** The backend of the partial-failure scenario: message 2 fails. *)
Definition rejects_2 : list Event → Payload → bool :=
  λ _ p, negb (p_message_id p =? 2).

(** The backend that accepts all but message 3. *)
Definition rejects_3 : list Event → Payload → bool :=
  λ _ p, negb (p_message_id p =? 3).

(** No state file yet, nothing done yet. *)
Definition fresh : World := {| disk := None; trace := [] |}.

(** A live event from [sender] in the private chat with them. *)
Definition private_event (sender : Entity) (text : option string)
    (has_media : bool) : NewMessage :=
  {| ev_sender := Some sender; ev_chat := Some sender;
     ev_is_private := true; ev_raw_text := text; ev_media := has_media;
     ev_id := 41; ev_date := today |}.

(** Outcome and id of the events of a trace, for reading it. *)
Definition outcomes (evs : list Event) : list (Z * bool) :=
  omap (λ e, match e with
             | Sent _ p ok => Some (p_message_id p, ok)
             | Saved _ => None
             end) evs.

(** The [message] field of the payloads posted in a trace. *)
Definition texts (evs : list Event) : list string :=
  omap (λ e, match e with
             | Sent _ p _ => Some (p_message p)
             | Saved _ => None
             end) evs.

(** A chat whose only message is a photo without caption. *)
Definition one_photo : Dialog := chat_with_ann 1 [photo].

(** The chat with a fourth message, one unread. *)
Definition fourth_arrived : Dialog :=
  chat_with_ann 1
    [text_message 4 today; text_message 3 today; text_message 2 today;
     text_message 1 today].

(** [IGNORE_CHAT_IDS=7] *)
Definition ignore_7 : Config :=
  {| WATCH_ALL := true; watch_chat_ids := ∅; watch_usernames := ∅;
     IGNORE_CHAT_IDS := {[ 7 ]};
     BACKFILL_MESSAGE_LIMIT := 500; BACKFILL_DAYS := 0;
     BACKEND_ACCOUNT_KEY := Some "ops"%string; ACCOUNT_ID_NUM := Some 12;
     BACKEND_CONTACT_LIST_URL := Some "https://backend/api/contacts" |}.

(** [{"contacts": [{"telegramUsername": "Alice"}]}] *)
Definition contacts_alice : Response :=
  Body (JDict [("contacts",
                JList [JDict [("telegramUsername", JStr "Alice")]])]).

End Scenario.

(** ** The rest of the watcher *)

(** Whether an event is a POST the backend accepted. *)
Definition is_accepted (e : Event) : bool :=
  match e with Sent _ _ ok => ok | Saved _ => false end.

(** The number of accepted POSTs of a trace. *)
Definition accepted (evs : list Event) : Z :=
  Z.of_nat (length (filter (λ e, is_accepted e = true) evs)).

(** The number of writes of the state file in a trace. *)
Definition writes (evs : list Event) : nat :=
  length (filter (λ e, is_saved e = true) evs).

(** *** Reading the environment (lines 20-28, 84-112) *)

Module Env.

(** [s.split(sep)] for a separator of one character. *)
Fixpoint split (sep : ascii) (s : string) : list string :=
  match s with
  | EmptyString => [EmptyString]
  | String c s' =>
    if Ascii.eqb c sep then EmptyString :: split sep s'
    else match split sep s' with
         | token :: tokens => String c token :: tokens
         | [] => [String c EmptyString]
         end
  end.

(** [str.isdigit] on a code point below 256: the decimal digits and the
    superscripts two, three and one. *)
Definition isdigit_char (c : ascii) : bool :=
  let n := N_of_ascii c in
  ((48 <=? n) && (n <=? 57) || (n =? 178) || (n =? 179) || (n =? 185))%N.

Fixpoint all_digits (s : string) : bool :=
  match s with
  | EmptyString => true
  | String c s' => isdigit_char c && all_digits s'
  end.

(** [s.isdigit()] *)
Definition isdigit (s : string) : bool := Py.truthy s && all_digits s.

(** [s.lstrip("-")] *)
Fixpoint lstrip_dash (s : string) : string :=
  match s with
  | String c s' => if Ascii.eqb c "-" then lstrip_dash s' else s
  | EmptyString => EmptyString
  end.

(** [parse_bool] (lines 20-21). *)
Definition parse_bool (value : option string) : bool :=
  let s := Py.lower (Py.strip (default EmptyString value)) in
  bool_decide (s ∈ ["1"; "true"; "yes"; "on"]%string).

(** [parse_int] (lines 24-28): [str(None)] is ["None"], which [int]
    rejects. *)
Definition parse_int (value : option string) (dflt : Z) : Z :=
  match value with
  | Some s => default dflt (Py.int_of_str (Py.strip s))
  | None => dflt
  end.

(** One turn of the loop of lines 87-95 over the tokens of
    [IGNORE_CHAT_IDS]; a token [int] rejects is logged and skipped. *)
Definition ignore_token (ids : gset Z) (token : string) : gset Z :=
  let token := Py.strip token in
  if negb (Py.truthy token) then ids
  else if isdigit (lstrip_dash token) then
    match Py.int_of_str token with
    | Some n => {[ n ]} ∪ ids
    | None => ids
    end
  else ids.

(** [IGNORE_CHAT_IDS] (lines 84-95) from the raw variable. *)
Definition ignore_chat_ids (raw : string) : gset Z :=
  if Py.truthy raw then foldl ignore_token ∅ (split "," raw) else ∅.

(** One turn of the loop of lines 103-112 over the tokens of
    [WATCH_CHATS]; [None] is the [ValueError] of [int(token)], which is
    not caught there. *)
Definition watch_token (sets : gset Z * gset string) (token : string)
  : option (gset Z * gset string) :=
  let token := Py.strip token in
  if negb (Py.truthy token) then Some sets
  else match token with
  | String "@" rest => Some (sets.1, {[ Py.lower rest ]} ∪ sets.2)
  | _ =>
    if isdigit (lstrip_dash token) then
      n ← Py.int_of_str token; Some ({[ n ]} ∪ sets.1, sets.2)
    else Some (sets.1, {[ Py.lower token ]} ∪ sets.2)
  end.

Fixpoint watch_tokens (tokens : list string) (sets : gset Z * gset string)
  : option (gset Z * gset string) :=
  match tokens with
  | [] => Some sets
  | token :: rest => sets' ← watch_token sets token; watch_tokens rest sets'
  end.

(** [watch_chat_ids] and [watch_usernames] (lines 98-112): the two sets
    of an explicit scope; they are not read when the scope is ["all"]. *)
Definition watch_sets (WATCH_CHATS : string)
  : option (gset Z * gset string) :=
  if String.eqb (Py.lower WATCH_CHATS) "all" then Some (∅, ∅)
  else watch_tokens (split "," WATCH_CHATS) (∅, ∅).

(** The configuration with the watch scope read from [WATCH_CHATS]. *)
Definition with_watch_chats (cfg : Config) (WATCH_CHATS : string)
  : option Config :=
  sets ← watch_sets WATCH_CHATS;
  Some {| WATCH_ALL := String.eqb (Py.lower WATCH_CHATS) "all";
          watch_chat_ids := sets.1;
          watch_usernames := sets.2;
          IGNORE_CHAT_IDS := IGNORE_CHAT_IDS cfg;
          BACKFILL_MESSAGE_LIMIT := BACKFILL_MESSAGE_LIMIT cfg;
          BACKFILL_DAYS := BACKFILL_DAYS cfg;
          BACKEND_ACCOUNT_KEY := BACKEND_ACCOUNT_KEY cfg;
          ACCOUNT_ID_NUM := ACCOUNT_ID_NUM cfg;
          BACKEND_CONTACT_LIST_URL := BACKEND_CONTACT_LIST_URL cfg |}.

End Env.

(** What a token of [WATCH_CHATS] asks for, said of the two sets: an
    [@name] is among the usernames in lower case, a number is among the
    ids, anything else is among the usernames in lower case. *)
Definition token_listed (token : string) (sets : gset Z * gset string)
  : Prop :=
  match Py.strip token with
  | EmptyString => True
  | String "@" rest => Py.lower rest ∈ sets.2
  | String c rest =>
    if Env.isdigit (Env.lstrip_dash (String c rest))
    then ∃ n, Py.int_of_str (String c rest) = Some n ∧ n ∈ sets.1
    else Py.lower (String c rest) ∈ sets.2
  end.

(** *** Contact sync (lines 241-261) *)

(** A user of [GetContactsRequest], with the attributes [sync_contacts]
    reads. *)
Record ContactUser := {
  cu_id : Z;
  cu_first_name : option string;
  cu_last_name : option string;
  cu_username : option string;
  cu_phone : option string;
}.

(** An element of the list posted to the contact-sync endpoint. *)
Record ContactEntry := {
  ce_name : string;
  ce_firstName : option string;
  ce_lastName : option string;
  ce_telegramUsername : option string;
  ce_telegramChatId : Z;
  ce_telegramPhone : option string;
}.

(** [" ".join(parts)] *)
Fixpoint join_space (parts : list string) : string :=
  match parts with
  | [] => EmptyString
  | [part] => part
  | part :: rest => part +:+ " " +:+ join_space rest
  end.

(** The [display_name] of lines 250-253. *)
Definition display_name (user : ContactUser) : string :=
  let name_parts :=
    omap (λ part, if Py.truthy_opt part then part else None)
      [cu_first_name user; cu_last_name user] in
  let display_name := Py.strip (join_space name_parts) in
  if Py.truthy display_name then display_name
  else if Py.truthy_opt (cu_username user)
  then default EmptyString (cu_username user)
  else if Py.truthy_opt (cu_phone user)
  then "+" +:+ default EmptyString (cu_phone user)
  else pretty (cu_id user).

(** The [payload] list of lines 248-261. *)
Definition contacts_payload (users : list ContactUser) : list ContactEntry :=
  map (λ user,
         {| ce_name := display_name user;
            ce_firstName := cu_first_name user;
            ce_lastName := cu_last_name user;
            ce_telegramUsername := cu_username user;
            ce_telegramChatId := cu_id user;
            ce_telegramPhone := cu_phone user |}) users.

(** *** The cron run of [main] (lines 467-500)

    [main(cron_mode=True, backfill)]: without an authorized session the
    run ends with code 2; otherwise the contacts are synced, the backfill
    runs when asked for, the unread messages are swept and the run ends
    with code 0.  [sync_contacts] talks to the contact-sync endpoint only
    and swallows its failures: it leaves the state file and the
    notification trace alone.  The backfill runs inside
    [try: ... except Exception] (lines 492-496): when it raises, the
    failure is logged and the sweep runs all the same, from the state the
    backfill left.  Its result is not used either way.  The two passes
    fetch the contact list and the dialogs each on its own. *)
Definition main_cron (cfg : Config) (backend : list Event → Payload → bool)
    (authorized backfill BACKFILL_ON_START : bool)
    (backfill_resp : Response) (now : Z) (backfill_dialogs : list Dialog)
    (sweep_resp : Response) (sweep_dialogs : list Dialog) : M Z :=
  if negb authorized then ret 2
  else
    let* _ :=
      (if backfill || BACKFILL_ON_START
       then let* r := backfill_history cfg backend backfill_resp now
                        backfill_dialogs in
            match r with
            | Some _ => ret tt
            | None => ret tt          (* except Exception: logged *)
            end
       else ret tt) in
    let* notifications :=
      process_unread_important_messages cfg backend sweep_resp
        sweep_dialogs in
    ret 0.

(** ** Loops in the world monad *)

Lemma world_eta (w : World) :
  {| disk := disk w; trace := trace w ++ [] |} = w.
Proof. destruct w; simpl. by rewrite app_nil_r. Qed.

Lemma for_each_app {A S} (body : A → S → M S) (xs ys : list A) s w :
  for_each body (xs ++ ys) s w =
  (let '(s', w') := for_each body xs s w in for_each body ys s' w').
Proof.
  revert s w. induction xs as [|x xs IH]; intros s w; simpl; [done|].
  unfold bind. destruct (body x s w) as [s1 w1]. apply IH.
Qed.

Lemma for_each_ext {A S} (f g : A → S → M S) (xs : list A) :
  (∀ x s w, f x s w = g x s w) →
  ∀ s w, for_each f xs s w = for_each g xs s w.
Proof.
  intros Hfg. induction xs as [|x xs IH]; intros s w; simpl; [done|].
  unfold bind. rewrite Hfg. destruct (g x s w) as [s1 w1]. apply IH.
Qed.

Section Attempts.

Variable cfg : Config.
Variable backend : list Event → Payload → bool.
Variables (skip : bool) (key : string) (pl : Message → Payload).

Let run := attempts cfg backend skip key pl.

Lemma attempt_eq m lf n w :
  attempt cfg backend skip key pl m (lf, n) w =
  if skip && (m_id m <=? lf) then ((lf, n), w)
  else
    let p := with_account cfg (pl m) in
    let ok := backend (trace w) p in
    (if ok then (Z.max lf (m_id m), n + 1) else (lf, n),
     {| disk := disk w; trace := trace w ++ [Sent (Some key) p ok] |}).
Proof.
  unfold attempt, bind, send_to_backend, ret. cbn [fst snd].
  destruct (skip && (m_id m <=? lf)); [done|].
  cbn zeta. by destruct (backend (trace w) (with_account cfg (pl m))).
Qed.

(** The message loop computes a run of [attempts]: it always ends, and
    it touches the world only by adding the events of the run. *)
Lemma attempt_loop_run ms : ∀ lf n w,
  ∃ lf' n' evs,
    for_each (attempt cfg backend skip key pl) ms (lf, n) w
    = ((lf', n'), {| disk := disk w; trace := trace w ++ evs |})
    ∧ run ms lf n (trace w) lf' n' evs.
Proof.
  induction ms as [|m ms IH]; intros lf n w.
  - exists lf, n, []. split; [by rewrite world_eta | constructor].
  - cbn [for_each]. unfold bind. rewrite attempt_eq.
    destruct (skip && (m_id m <=? lf)) eqn:Hskip.
    + apply andb_true_iff in Hskip as [Hs Hle%Z.leb_le].
      destruct (IH lf n w) as (lf' & n' & evs & Heq & Hrun).
      exists lf', n', evs. split; [exact Heq|].
      by apply attempts_skip.
    + assert (Hgt : skip = true → lf < m_id m).
      { intros Hs. rewrite Hs in Hskip. simpl in Hskip. by apply Z.leb_gt. }
      cbn zeta. set (p := with_account cfg (pl m)).
      destruct (backend (trace w) p) eqn:Hok.
      * destruct (IH (Z.max lf (m_id m)) (n + 1)
                    {| disk := disk w;
                       trace := trace w ++ [Sent (Some key) p true] |})
          as (lf' & n' & evs & Heq & Hrun).
        exists lf', n', (Sent (Some key) p true :: evs).
        rewrite Heq. cbn [disk trace]. rewrite <- app_assoc.
        split; [done|]. by apply attempts_ok.
      * destruct (IH lf n
                    {| disk := disk w;
                       trace := trace w ++ [Sent (Some key) p false] |})
          as (lf' & n' & evs & Heq & Hrun).
        exists lf', n', (Sent (Some key) p false :: evs).
        rewrite Heq. cbn [disk trace]. rewrite <- app_assoc.
        split; [done|]. by apply attempts_failed.
Qed.

Hypothesis pl_id : ∀ m, p_message_id (pl m) = m_id m.

Lemma with_account_id p : p_message_id (with_account cfg p) = p_message_id p.
Proof. done. Qed.

(** The watermark of the loop only grows, and where it ends is where it
    started or the id of a delivery that succeeded. *)
Lemma attempts_watermark ms lf n h lf' n' evs :
  run ms lf n h lf' n' evs →
  lf ≤ lf' ∧ n ≤ n'
  ∧ (n' = n → lf' = lf)
  ∧ (lf' = lf ∨ ∃ p, Sent (Some key) p true ∈ evs ∧ p_message_id p = lf').
Proof.
  induction 1 as [lf n h | m ms lf n h lf' n' evs Hs Hle _ IH
                 | m ms lf n h lf' n' evs Hgt Hok _ IH
                 | m ms lf n h lf' n' evs Hgt Hok _ IH].
  - repeat split; [lia | lia | auto].
  - exact IH.
  - destruct IH as (Hlf & Hn & _ & Hsrc).
    repeat split; [lia | lia | lia |].
    destruct Hsrc as [-> | (p & Hin & Hp)].
    + destruct (Z.max_spec lf (m_id m)) as [[_ ->] | [_ ->]].
      * right. eexists. split; [apply list_elem_of_here|].
        by rewrite with_account_id, pl_id.
      * by left.
    + right. exists p. split; [by apply list_elem_of_further | done].
  - destruct IH as (Hlf & Hn & Hsame & Hsrc).
    repeat split; [lia | lia | done |].
    destruct Hsrc as [-> | (p & Hin & Hp)]; [by left|].
    right. exists p. split; [by apply list_elem_of_further | done].
Qed.

(** Every POST of the loop is for a message of the batch, built by the
    payload builder and tagged with the key; when the loop skips, its id
    is above the watermark the loop started from. *)
Lemma attempts_events ms lf n h lf' n' evs :
  run ms lf n h lf' n' evs →
  Forall (λ e, ∃ m ok, e = Sent (Some key) (with_account cfg (pl m)) ok
                       ∧ m ∈ ms ∧ (skip = true → lf < m_id m)) evs.
Proof.
  induction 1 as [lf n h | m ms lf n h lf' n' evs Hs Hle _ IH
                 | m ms lf n h lf' n' evs Hgt Hok _ IH
                 | m ms lf n h lf' n' evs Hgt Hok _ IH].
  - constructor.
  - eapply Forall_impl; [exact IH|].
    intros e (m' & ok & -> & Hin & Hlt). exists m', ok.
    split; [done|]. split; [by apply list_elem_of_further | done].
  - constructor.
    + exists m, true. split; [done|]. split; [apply list_elem_of_here | done].
    + eapply Forall_impl; [exact IH|].
      intros e (m' & ok & -> & Hin & Hlt). exists m', ok.
      split; [done|]. split; [by apply list_elem_of_further|].
      intros Hs. specialize (Hlt Hs). lia.
  - constructor.
    + exists m, false. split; [done|]. split; [apply list_elem_of_here | done].
    + eapply Forall_impl; [exact IH|].
      intros e (m' & ok & -> & Hin & Hlt). exists m', ok.
      split; [done|]. split; [by apply list_elem_of_further | done].
Qed.

Lemma sent_id_same p ok : sent_id key (Sent (Some key) p ok) = Some (p_message_id p).
Proof. simpl. by rewrite decide_True. Qed.

(** The attempts follow the order of the batch. *)
Lemma attempts_sublist ms lf n h lf' n' evs :
  run ms lf n h lf' n' evs →
  attempted key evs `sublist_of` map m_id ms.
Proof.
  induction 1 as [lf n h | m ms lf n h lf' n' evs Hs Hle _ IH
                 | m ms lf n h lf' n' evs Hgt Hok _ IH
                 | m ms lf n h lf' n' evs Hgt Hok _ IH].
  - constructor.
  - simpl. by apply sublist_cons.
  - unfold attempted. cbn [omap list_omap]. rewrite sent_id_same.
    rewrite with_account_id, pl_id. simpl. by apply sublist_skip.
  - unfold attempted. cbn [omap list_omap]. rewrite sent_id_same.
    rewrite with_account_id, pl_id. simpl. by apply sublist_skip.
Qed.

(** A loop that does not skip attempts the whole batch. *)
Lemma attempts_all ms lf n h lf' n' evs :
  skip = false →
  run ms lf n h lf' n' evs →
  attempted key evs = map m_id ms.
Proof.
  intros Hskip.
  induction 1 as [lf n h | m ms lf n h lf' n' evs Hs Hle _ IH
                 | m ms lf n h lf' n' evs Hgt Hok _ IH
                 | m ms lf n h lf' n' evs Hgt Hok _ IH].
  - done.
  - congruence.
  - unfold attempted. cbn [omap list_omap]. rewrite sent_id_same.
    rewrite with_account_id, pl_id. simpl. f_equal. exact IH.
  - unfold attempted. cbn [omap list_omap]. rewrite sent_id_same.
    rewrite with_account_id, pl_id. simpl. f_equal. exact IH.
Qed.

(** In a batch of increasing ids, a message above the watermark is
    attempted, whatever became of the messages before it. *)
Lemma attempts_reach ms lf n h lf' n' evs m :
  run ms lf n h lf' n' evs →
  StronglySorted Z.lt (map m_id ms) →
  m ∈ ms → lf < m_id m →
  ∃ ok, Sent (Some key) (with_account cfg (pl m)) ok ∈ evs.
Proof.
  induction 1 as [lf n h | m0 ms lf n h lf' n' evs Hs Hle _ IH
                 | m0 ms lf n h lf' n' evs Hgt Hok _ IH
                 | m0 ms lf n h lf' n' evs Hgt Hok _ IH];
    intros Hsorted Hin Hlt.
  - by apply elem_of_nil in Hin.
  - simpl in Hsorted. apply StronglySorted_inv in Hsorted as [Hs' Hall].
    apply elem_of_cons in Hin as [-> | Hin]; [lia|]. by apply IH.
  - simpl in Hsorted. apply StronglySorted_inv in Hsorted as [Hs' Hall].
    apply elem_of_cons in Hin as [-> | Hin].
    + exists true. apply list_elem_of_here.
    + destruct IH as [ok Hok']; [done | done | |].
      * rewrite Forall_forall in Hall.
        assert (m_id m0 < m_id m).
        { apply Hall, list_elem_of_In, in_map, list_elem_of_In, Hin. }
        lia.
      * exists ok. by apply list_elem_of_further.
  - simpl in Hsorted. apply StronglySorted_inv in Hsorted as [Hs' Hall].
    apply elem_of_cons in Hin as [-> | Hin].
    + exists false. apply list_elem_of_here.
    + destruct IH as [ok Hok']; [done | done | done |].
      exists ok. by apply list_elem_of_further.
Qed.

End Attempts.

(** ** The dialog loop *)

Lemma state_get_insert (st : gmap string Z) (k k' : string) (v : Z) :
  state_get (<[k := v]> st) k' = if decide (k = k') then v else state_get st k'.
Proof.
  unfold state_get. destruct (decide (k = k')) as [<- | Hne].
  - by rewrite lookup_insert_eq.
  - by rewrite lookup_insert_ne.
Qed.

Section Visits.

Variable cfg : Config.
Variable backend : list Event → Payload → bool.
Variable plan : Dialog → gmap string Z → option Plan.
Hypothesis plan_wf : plan_ok plan.

Lemma visit_run d st n w :
  ∃ st' n' evs,
    visit cfg backend plan d (st, n) w
    = ((st', n'), {| disk := disk w; trace := trace w ++ evs |})
    ∧ visited cfg backend plan d st n (trace w) st' n' evs.
Proof.
  unfold visit, visited. cbn [fst snd]. destruct (plan d st) as [p|].
  - unfold reconcile, bind. cbn [fst snd].
    destruct (attempt_loop_run cfg backend (plan_skip p) (dialog_key d)
                (plan_payload p) (plan_candidates p)
                (state_get st (dialog_key d)) n w)
      as (lf' & n' & evs & -> & Hrun).
    eexists _, n', evs. split; [|exists lf'; split; [exact Hrun | done]].
    by destruct (lf' >? state_get st (dialog_key d)).
  - exists st, n, []. by rewrite world_eta.
Qed.

Lemma visits_run ds : ∀ st n w,
  ∃ st' n' evs,
    for_each (visit cfg backend plan) ds (st, n) w
    = ((st', n'), {| disk := disk w; trace := trace w ++ evs |})
    ∧ visits cfg backend plan ds st n (trace w) st' n' evs.
Proof.
  induction ds as [|d ds IH]; intros st n w.
  - exists st, n, []. split; [by rewrite world_eta | constructor].
  - cbn [for_each]. unfold bind.
    destruct (visit_run d st n w) as (st1 & n1 & evs1 & -> & Hd).
    destruct (IH st1 n1 {| disk := disk w; trace := trace w ++ evs1 |})
      as (st' & n' & evs & -> & Hds).
    exists st', n', (evs1 ++ evs). cbn [disk trace]. rewrite <- app_assoc.
    split; [done|]. by eapply visits_cons.
Qed.

(** *** One visit *)

Lemma visited_state d st n h st' n' evs :
  visited cfg backend plan d st n h st' n' evs →
  n ≤ n' ∧ (n' = n → st' = st)
  ∧ (∀ k, k ≠ dialog_key d → st' !! k = st !! k)
  ∧ (∀ k, state_get st k ≤ state_get st' k)
  ∧ (st' = st
     ∨ (st' = <[dialog_key d := state_get st' (dialog_key d)]> st
        ∧ state_get st (dialog_key d) < state_get st' (dialog_key d)
        ∧ ∃ p, Sent (Some (dialog_key d)) p true ∈ evs
               ∧ p_message_id p = state_get st' (dialog_key d))).
Proof.
  unfold visited. destruct (plan d st) as [p|] eqn:Hplan.
  - intros (lf' & Hrun & ->).
    apply attempts_watermark in Hrun
      as (Hlf & Hn & Hsame & Hsrc);
      [|intros m; by eapply (plan_ids _ plan_wf)].
    destruct (lf' >? state_get st (dialog_key d)) eqn:Hgt.
    + apply Z.gtb_gt in Hgt.
      split; [done|]. split; [intros ->%Hsame; lia|].
      split; [intros k Hk; by rewrite lookup_insert_ne|].
      split.
      { intros k. rewrite state_get_insert. case_decide; [subst; lia | lia]. }
      right. rewrite state_get_insert, decide_True by done.
      split; [done|]. split; [lia|].
      destruct Hsrc as [-> | Hsrc]; [lia | done].
    + split; [done|]. split; [done|]. split; [done|]. split; [intros; lia|].
      by left.
  - intros (-> & -> & ->). split; [lia|]. split; [done|]. split; [done|].
    split; [intros; lia | by left].
Qed.

Lemma visited_events d st n h st' n' evs :
  visited cfg backend plan d st n h st' n' evs →
  Forall (λ e, ∃ p m ok,
            plan d st = Some p
            ∧ e = Sent (Some (dialog_key d))
                    (with_account cfg (plan_payload p m)) ok
            ∧ m ∈ plan_candidates p
            ∧ state_get st (dialog_key d) < m_id m) evs.
Proof.
  unfold visited. destruct (plan d st) as [p|] eqn:Hplan.
  - intros (lf' & Hrun & _).
    apply attempts_events in Hrun.
    eapply Forall_impl; [exact Hrun|].
    intros e (m & ok & -> & Hin & Hlt). exists p, m, ok.
    split; [done|]. split; [done|]. split; [done|].
    destruct (plan_skip p) eqn:Hskip; [by apply Hlt|].
    by eapply (plan_fresh _ plan_wf).
  - intros (_ & _ & ->). constructor.
Qed.

Lemma attempted_app key evs1 evs2 :
  attempted key (evs1 ++ evs2) = attempted key evs1 ++ attempted key evs2.
Proof. unfold attempted. apply omap_app. Qed.

Lemma visited_other_key d st n h st' n' evs k :
  visited cfg backend plan d st n h st' n' evs →
  k ≠ dialog_key d →
  attempted k evs = [] ∧ ∀ p ok, Sent (Some k) p ok ∉ evs.
Proof.
  intros Hv%visited_events Hk. rewrite Forall_forall in Hv. split.
  - induction evs as [|e evs IH]; [done|].
    unfold attempted. cbn [omap list_omap].
    destruct (Hv e) as (p & m & ok & _ & -> & _); [apply list_elem_of_here|].
    simpl. rewrite decide_False by done.
    apply IH. intros x Hx. apply Hv. by apply list_elem_of_further.
  - intros p ok Hin. destruct (Hv _ Hin) as (p' & m & ok' & _ & Heq & _).
    congruence.
Qed.

(** *** The whole loop *)

(** The state only grows, key by key; the counter only grows, and when
    it did not move neither did the state; a key whose value moved holds
    the id of a delivery that succeeded for it. *)
Lemma visits_state ds st n h st' n' evs :
  visits cfg backend plan ds st n h st' n' evs →
  n ≤ n' ∧ (n' = n → st' = st)
  ∧ (∀ k, state_get st k ≤ state_get st' k)
  ∧ (∀ k, st' !! k = st !! k
          ∨ (st' !! k = Some (state_get st' k)
             ∧ state_get st k < state_get st' k
             ∧ ∃ p, Sent (Some k) p true ∈ evs
                    ∧ p_message_id p = state_get st' k)).
Proof.
  induction 1 as [st n h | d ds st n h st1 n1 evs1 st' n' evs Hd _ IH].
  - split; [lia|]. split; [done|]. split; [intros; lia | by left].
  - apply visited_state in Hd as (Hn1 & Hsame1 & Hother & Hmono1 & Hsrc1).
    destruct IH as (Hn & Hsame & Hmono & Hsrc).
    split; [lia|]. split.
    { intros Heq. assert (n' = n1) as Hn' by lia.
      rewrite (Hsame Hn'). apply Hsame1. lia. }
    split; [intros k; specialize (Hmono1 k); specialize (Hmono k); lia|].
    intros k. destruct (Hsrc k) as [Hk | (Hk & Hlt & p & Hin & Hp)].
    + destruct Hsrc1 as [-> | (Hst1 & Hlt1 & p & Hin & Hp)]; [by left|].
      destruct (decide (k = dialog_key d)) as [-> | Hne].
      * right. assert (state_get st' (dialog_key d)
                       = state_get st1 (dialog_key d)) as Hsg.
        { unfold state_get. by rewrite Hk. }
        rewrite Hsg. split.
        { rewrite Hk. rewrite Hst1 at 1. by rewrite lookup_insert_eq. }
        split; [done|]. exists p. split; [|done].
        apply elem_of_app. by left.
      * left. rewrite Hk. by apply Hother.
    + right. split; [done|]. split; [specialize (Hmono1 k); lia|].
      exists p. split; [|done]. apply elem_of_app. by right.
Qed.

(** Every POST of the loop comes from a dialog of the list that the plan
    reconciles and from one of its candidate messages, and its id is
    above the value the state held for the key when the loop started. *)
Lemma visits_events ds st n h st' n' evs :
  visits cfg backend plan ds st n h st' n' evs →
  Forall (λ e, ∃ d sd p m ok,
            d ∈ ds ∧ plan d sd = Some p
            ∧ e = Sent (Some (dialog_key d))
                    (with_account cfg (plan_payload p m)) ok
            ∧ m ∈ plan_candidates p
            ∧ state_get st (dialog_key d) < m_id m) evs.
Proof.
  induction 1 as [st n h | d ds st n h st1 n1 evs1 st' n' evs Hd _ IH].
  - constructor.
  - apply Forall_app. split.
    + apply visited_events in Hd. eapply Forall_impl; [exact Hd|].
      intros e (p & m & ok & Hplan & -> & Hin & Hlt).
      exists d, st, p, m, ok. split; [apply list_elem_of_here | done].
    + apply visited_state in Hd as (_ & _ & _ & Hmono & _).
      eapply Forall_impl; [exact IH|].
      intros e (d' & sd & p & m & ok & Hd' & Hplan & -> & Hin & Hlt).
      exists d', sd, p, m, ok. split; [by apply list_elem_of_further|].
      split; [done|]. split; [done|]. split; [done|].
      specialize (Hmono (dialog_key d')). lia.
Qed.

End Visits.

(** ** The two plans *)

Lemma StronglySorted_sublist {A} (R : relation A) (l1 l2 : list A) :
  l1 `sublist_of` l2 → StronglySorted R l2 → StronglySorted R l1.
Proof.
  induction 1 as [|x l1 l2 Hsub IH|x l1 l2 Hsub IH]; intros Hs.
  - constructor.
  - apply StronglySorted_inv in Hs as [Hs Hall]. constructor; [by apply IH|].
    rewrite Forall_forall in *. intros y Hy. apply Hall.
    by eapply elem_of_sublist.
  - apply StronglySorted_inv in Hs as [Hs _]. by apply IH.
Qed.

Lemma StronglySorted_rev_lt (l : list Z) :
  StronglySorted (λ a b, b < a) l → StronglySorted Z.lt (rev l).
Proof.
  induction 1 as [|x l Hs IH Hall]; simpl; [constructor|].
  apply StronglySorted_app_2; [|done|repeat constructor].
  intros a b Ha ->%list_elem_of_singleton.
  rewrite Forall_forall in Hall. apply Hall.
  by apply list_elem_of_In, in_rev, list_elem_of_In.
Qed.

Lemma map_sublist {A B} (f : A → B) (l1 l2 : list A) :
  l1 `sublist_of` l2 → map f l1 `sublist_of` map f l2.
Proof. induction 1; simpl; by constructor. Qed.

Lemma elem_of_rev {A} (x : A) (l : list A) : x ∈ rev l ↔ x ∈ l.
Proof. rewrite !list_elem_of_In. symmetry. apply in_rev. Qed.

Lemma iter_messages_sublist d limit :
  iter_messages d limit `sublist_of` d_history d.
Proof. destruct limit; simpl; [apply sublist_take | done]. Qed.

(** The walk keeps messages in the order it is given them. *)
Lemma collect_messages_sublist cutoff lf ms :
  collect_messages cutoff lf ms `sublist_of` ms.
Proof.
  induction ms as [|m ms IH]; simpl; [done|].
  destruct (m_id m <=? lf); [apply sublist_nil_l|].
  destruct (before_cutoff cutoff m); [apply sublist_nil_l|].
  by apply sublist_skip.
Qed.

Lemma collect_messages_above cutoff lf ms m :
  m ∈ collect_messages cutoff lf ms →
  lf < m_id m ∧ before_cutoff cutoff m = false.
Proof.
  induction ms as [|m0 ms IH]; simpl; [by intros ?%elem_of_nil|].
  destruct (m_id m0 <=? lf) eqn:Hle; [by intros ?%elem_of_nil|].
  destruct (before_cutoff cutoff m0) eqn:Hcut; [by intros ?%elem_of_nil|].
  intros [-> | Hin]%elem_of_cons; [|by apply IH].
  split; [by apply Z.leb_gt | done].
Qed.

(** With ids decreasing along the walk, raising the watermark below a
    collected message keeps that message in the walk. *)
Lemma collect_messages_retry cutoff lf lf' ms m :
  StronglySorted (λ a b, b < a) (map m_id ms) →
  m ∈ collect_messages cutoff lf ms → lf' < m_id m →
  m ∈ collect_messages cutoff lf' ms.
Proof.
  induction ms as [|m0 ms IH]; simpl; [done|].
  intros [Hs Hall]%StronglySorted_inv.
  destruct (m_id m0 <=? lf) eqn:Hle; [by intros ?%elem_of_nil|].
  destruct (before_cutoff cutoff m0) eqn:Hcut; [by intros ?%elem_of_nil|].
  intros [-> | Hin]%elem_of_cons Hlt.
  - apply Z.leb_gt in Hlt as ->. apply list_elem_of_here.
  - assert (m_id m < m_id m0) as Hlt0.
    { rewrite Forall_forall in Hall. apply Hall.
      apply list_elem_of_In, in_map, list_elem_of_In.
      eapply elem_of_sublist; [exact Hin|].
      apply collect_messages_sublist. }
    assert ((m_id m0 <=? lf') = false) as -> by (apply Z.leb_gt; lia).
    apply list_elem_of_further. by apply IH.
Qed.

Section Plans.

Variable cfg : Config.
Variable backend : list Event → Payload → bool.

Lemma sweep_plan_ok imp : plan_ok (sweep_plan cfg imp).
Proof.
  split; unfold sweep_plan.
  - intros d st p m. destruct (sweep_eligible cfg imp d); [|done].
    by intros [= <-].
  - intros d st p m. destruct (sweep_eligible cfg imp d); [|done].
    by intros [= <-].
  - intros d st p m. destruct (sweep_eligible cfg imp d); [|done].
    by intros [= <-].
  - intros d st p m. destruct (sweep_eligible cfg imp d); [|done].
    intros [= <-]. cbn [plan_candidates]. rewrite elem_of_rev.
    intros Hin. eapply elem_of_sublist; [exact Hin | apply sublist_take].
  - intros d st p. destruct (sweep_eligible cfg imp d); [|done].
    intros [= <-] Hnf. cbn [plan_candidates]. rewrite map_rev.
    apply StronglySorted_rev_lt.
    eapply StronglySorted_sublist; [|exact Hnf].
    apply map_sublist, sublist_take.
  - intros d st st' p m. destruct (sweep_eligible cfg imp d); [|done].
    intros [= <-] _ Hin _. eexists. split; [done|]. by repeat split.
Qed.

Lemma backfill_plan_ok imp now : plan_ok (backfill_plan cfg imp now).
Proof.
  split; unfold backfill_plan.
  - intros d st p m. destruct (backfill_eligible cfg imp d); [|done].
    by intros [= <-].
  - intros d st p m. destruct (backfill_eligible cfg imp d); [|done].
    by intros [= <-].
  - intros d st p m. destruct (backfill_eligible cfg imp d); [|done].
    intros [= <-] _. cbn [plan_candidates]. rewrite elem_of_rev.
    by intros [? _]%collect_messages_above.
  - intros d st p m. destruct (backfill_eligible cfg imp d); [|done].
    intros [= <-]. cbn [plan_candidates]. rewrite elem_of_rev.
    intros Hin. eapply elem_of_sublist; [exact Hin|].
    etrans; [apply collect_messages_sublist|].
    apply iter_messages_sublist.
  - intros d st p. destruct (backfill_eligible cfg imp d); [|done].
    intros [= <-] Hnf. cbn [plan_candidates]. rewrite map_rev.
    apply StronglySorted_rev_lt.
    eapply StronglySorted_sublist; [|exact Hnf].
    apply map_sublist.
    etrans; [apply collect_messages_sublist|].
    apply iter_messages_sublist.
  - intros d st st' p m. destruct (backfill_eligible cfg imp d); [|done].
    intros [= <-] Hnf Hin Hlt. eexists. split; [done|].
    split; [done|]. split; [done|].
    cbn [plan_candidates] in *. rewrite elem_of_rev in *.
    eapply collect_messages_retry; [|exact Hin|exact Hlt].
    eapply StronglySorted_sublist; [|exact Hnf].
    apply map_sublist, iter_messages_sublist.
Qed.

(** *** The passes follow their plans *)

Lemma cron_message_attempt d m s w :
  cron_message cfg backend d m s w
  = attempt cfg backend true (dialog_key d) (cron_payload d) m s w.
Proof.
  destruct s as [lf n]. unfold cron_message, attempt. cbn [fst snd andb].
  by destruct (m_id m <=? lf).
Qed.

Lemma backfill_message_attempt d m s w :
  backfill_message cfg backend d m s w
  = attempt cfg backend false (dialog_key d) (backfill_payload d) m s w.
Proof. by destruct s as [lf n]. Qed.

Lemma cron_dialog_visit imp d s w :
  cron_dialog cfg backend imp d s w
  = visit cfg backend (sweep_plan cfg imp) d s w.
Proof.
  destruct s as [st n].
  unfold cron_dialog, visit, sweep_plan, sweep_eligible, passes_skeleton.
  cbn [fst snd].
  destruct (d_unread_count d <=? 0); [done|].
  destruct (is_ignored cfg _); [done|].
  destruct (matches_contact _ _ _ _); [|done].
  destruct (should_forward cfg _); [|done].
  cbn [negb andb]. unfold reconcile, bind. cbn [fst snd plan_skip plan_payload plan_candidates].
  rewrite (for_each_ext _ _ _ (cron_message_attempt d)).
  fold (dialog_key d).
  by destruct (for_each _ _ _ w) as [[lf' n'] w'].
Qed.

Lemma backfill_dialog_visit imp now d s w :
  ∃ u',
    backfill_dialog cfg backend imp now d s w
    = (let '((st', n'), w') :=
         visit cfg backend (backfill_plan cfg imp now) d
           (bf_state s, total_forwarded s) w in
       ({| bf_state := st'; total_forwarded := n'; updated_keys := u' |}, w'))
    ∧ updated_keys s ≤ u'
    ∧ (u' = updated_keys s →
       (visit cfg backend (backfill_plan cfg imp now) d
          (bf_state s, total_forwarded s) w).1.1 = bf_state s).
Proof.
  destruct s as [st n u].
  unfold backfill_dialog, visit, backfill_plan, backfill_eligible.
  cbn [fst snd bf_state total_forwarded updated_keys].
  destruct (is_ignored cfg _); [by exists u|].
  destruct (matches_contact _ _ _ _); [|by exists u].
  cbn [negb andb]. fold (dialog_key d).
  unfold reconcile. cbn [fst snd plan_skip plan_payload plan_candidates].
  destruct (collect_messages _ _ _) as [|m0 ms] eqn:Hcollect.
  - exists u. unfold bind, ret. simpl.
    rewrite Z.gtb_ltb, Z.ltb_irrefl. done.
  - unfold bind.
    rewrite (for_each_ext _ _ _ (backfill_message_attempt d)).
    destruct (for_each _ _ _ w) as [[lf' n'] w'].
    destruct (lf' >? state_get st (dialog_key d)) eqn:Hgt.
    + exists (u + 1). split; [done|]. split; [lia|]. lia.
    + exists u. by repeat split.
Qed.

Lemma backfill_loop_visits imp now ds : ∀ s w,
  ∃ st' n' u' evs,
    for_each (backfill_dialog cfg backend imp now) ds s w
    = ({| bf_state := st'; total_forwarded := n'; updated_keys := u' |},
       {| disk := disk w; trace := trace w ++ evs |})
    ∧ visits cfg backend (backfill_plan cfg imp now) ds
        (bf_state s) (total_forwarded s) (trace w) st' n' evs
    ∧ updated_keys s ≤ u'
    ∧ (u' = updated_keys s → st' = bf_state s).
Proof.
  induction ds as [|d ds IH]; intros s w.
  - destruct s as [st n u]. exists st, n, u, [].
    rewrite world_eta. split; [done|]. split; [constructor|]. by split.
  - cbn [for_each]. unfold bind.
    destruct (backfill_dialog_visit imp now d s w) as (u1 & -> & Hu1 & Hsame1).
    destruct (visit_run cfg backend (backfill_plan cfg imp now) d
                (bf_state s) (total_forwarded s) w)
      as (st1 & n1 & evs1 & Hvisit & Hd).
    rewrite Hvisit in *. cbn [fst snd] in Hsame1.
    destruct (IH {| bf_state := st1; total_forwarded := n1;
                    updated_keys := u1 |}
                {| disk := disk w; trace := trace w ++ evs1 |})
      as (st' & n' & u' & evs & -> & Hds & Hu & Hsame).
    cbn [bf_state total_forwarded updated_keys disk trace] in *.
    exists st', n', u', (evs1 ++ evs). rewrite <- app_assoc.
    split; [done|]. split; [by eapply visits_cons|]. split; [lia|].
    intros Heq. rewrite Hsame by lia. apply Hsame1. lia.
Qed.

(** The cron sweep stops at an empty contact list or is a run of its
    dialog loop followed by the write of the state. *)
Lemma cron_pass_outcome resp ds w :
  let imp := fetch_important_contacts cfg resp in
  let r := process_unread_important_messages cfg backend resp ds w in
  if nothing_important imp then r = (0, w)
  else pass_outcome cfg backend (sweep_plan cfg imp) ds w r.1 r.2.
Proof.
  intros imp r. subst r. unfold process_unread_important_messages.
  fold imp. destruct (nothing_important imp); [done|].
  unfold bind, load_state.
  rewrite (for_each_ext _ _ _ (cron_dialog_visit imp)).
  destruct (visits_run cfg backend (sweep_plan cfg imp) ds
              (default ∅ (disk w)) 0 w) as (st' & n' & evs & -> & Hrun).
  destruct (n' >? 0) eqn:Hn; unfold save_state, ret; cbn [fst snd];
    exists st', evs; (split; [exact Hrun|]); cbn [disk trace].
  - split; [done|]. right. by rewrite app_assoc.
  - apply visits_state in Hrun as (Hn0 & Hsame & _); [|apply sweep_plan_ok].
    assert (n' = 0) as Hz by (rewrite Z.gtb_ltb in Hn; apply Z.ltb_ge in Hn; lia).
    split; [by rewrite Hsame|]. by left.
Qed.

(** The backfill returns 0 at an empty contact list, raises at a cutoff
    it cannot compute, and is otherwise a run of its dialog loop followed
    by the write of the state. *)
Lemma backfill_pass_outcome resp now ds w :
  let imp := fetch_important_contacts cfg resp in
  let r := backfill_history cfg backend resp now ds w in
  if nothing_important imp then r = (Some 0, w)
  else if cutoff_raises cfg now then r = (None, w)
  else ∃ n', r.1 = Some n'
         ∧ pass_outcome cfg backend (backfill_plan cfg imp now) ds w n' r.2.
Proof.
  intros imp r. subst r. unfold backfill_history.
  fold imp. destruct (nothing_important imp); [done|].
  unfold bind, load_state. cbn [fst snd].
  destruct (cutoff_raises cfg now); [done|].
  destruct (backfill_loop_visits imp now ds
              {| bf_state := default ∅ (disk w); total_forwarded := 0;
                 updated_keys := 0 |} w)
    as (st' & n' & u' & evs & -> & Hrun & Hu & Hsame).
  cbn [bf_state total_forwarded updated_keys] in *.
  exists n'.
  destruct (u' >? 0) eqn:Hn; unfold save_state, ret;
    cbn [fst snd bf_state total_forwarded];
    (split; [done|]); exists st', evs; (split; [exact Hrun|]);
    cbn [disk trace].
  - split; [done|]. right. by rewrite app_assoc.
  - assert (u' = 0) as Hz by (rewrite Z.gtb_ltb in Hn; apply Z.ltb_ge in Hn; lia).
    split; [by rewrite Hsame|]. by left.
Qed.

End Plans.

(** ** Properties of a pass, for any plan *)

Lemma new_events_app w w' evs :
  trace w' = trace w ++ evs → new_events w w' = evs.
Proof. intros Heq. unfold new_events. rewrite Heq. apply drop_app_length. Qed.

Lemma new_events_refl w : new_events w w = [].
Proof. unfold new_events. apply drop_all. Qed.

Section Passes.

Variable cfg : Config.
Variable backend : list Event → Payload → bool.
Variable plan : Dialog → gmap string Z → option Plan.
Hypothesis plan_wf : plan_ok plan.

Lemma visited_sorted d st n h st' n' evs :
  visited cfg backend plan d st n h st' n' evs →
  newest_first d →
  StronglySorted Z.lt (attempted (dialog_key d) evs).
Proof.
  unfold visited. intros Hv Hnf. destruct (plan d st) as [p|] eqn:Hplan.
  - destruct Hv as (lf' & Hrun & _).
    apply attempts_sublist in Hrun;
      [|intros m; by eapply (plan_ids _ plan_wf)].
    eapply StronglySorted_sublist; [exact Hrun|].
    by eapply (plan_sorted _ plan_wf).
  - destruct Hv as (_ & _ & ->). constructor.
Qed.

(** A key that no dialog of the list has is left alone. *)
Lemma visits_other_key ds st n h st' n' evs k :
  visits cfg backend plan ds st n h st' n' evs →
  k ∉ map dialog_key ds →
  attempted k evs = [] ∧ st' !! k = st !! k.
Proof.
  induction 1 as [st n h | d ds st n h st1 n1 evs1 st' n' evs Hd _ IH];
    intros Hk; [done|].
  cbn [map] in Hk. apply not_elem_of_cons in Hk as [Hne Hk].
  destruct (IH Hk) as [Hevs Hst].
  destruct (visited_other_key cfg backend plan plan_wf _ _ _ _ _ _ _ k Hd Hne)
    as [Hevs1 _].
  apply (visited_state cfg backend plan plan_wf) in Hd
    as (_ & _ & Hother & _).
  split.
  - by rewrite attempted_app, Hevs1, Hevs.
  - rewrite Hst. by apply Hother.
Qed.

(** When every chat is listed once and its history is newest first, the
    attempts made for a chat come in strictly increasing id order. *)
Lemma visits_sorted ds st n h st' n' evs k :
  visits cfg backend plan ds st n h st' n' evs →
  NoDup (map dialog_key ds) →
  Forall newest_first ds →
  StronglySorted Z.lt (attempted k evs).
Proof.
  induction 1 as [st n h | d ds st n h st1 n1 evs1 st' n' evs Hd Hds IH];
    intros Hnd Hnf; [constructor|].
  cbn [map] in Hnd. apply NoDup_cons in Hnd as [Hfresh Hnd].
  apply Forall_cons in Hnf as [Hnf1 Hnf].
  rewrite attempted_app.
  destruct (decide (k = dialog_key d)) as [-> | Hne].
  - destruct (visits_other_key _ _ _ _ _ _ _ _ Hds Hfresh) as [-> _].
    rewrite app_nil_r. by eapply visited_sorted.
  - destruct (visited_other_key cfg backend plan plan_wf _ _ _ _ _ _ _ k Hd Hne)
      as [-> _].
    by apply IH.
Qed.

(** A candidate message of a listed chat whose id is above the state's
    value for the chat is attempted by the loop. *)
Lemma visits_reach ds st n h st' n' evs d sd p m :
  visits cfg backend plan ds st n h st' n' evs →
  NoDup (map dialog_key ds) →
  d ∈ ds → newest_first d →
  plan d sd = Some p → m ∈ plan_candidates p →
  state_get st (dialog_key d) < m_id m →
  ∃ ok, Sent (Some (dialog_key d))
          (with_account cfg (plan_payload p m)) ok ∈ evs.
Proof.
  induction 1 as [st n h | d0 ds st n h st1 n1 evs1 st' n' evs Hd0 Hds IH];
    intros Hnd Hin Hnf Hplan Hm Hlt; [by apply elem_of_nil in Hin|].
  cbn [map] in Hnd. apply NoDup_cons in Hnd as [Hfresh Hnd].
  apply elem_of_cons in Hin as [-> | Hin].
  - destruct (plan_retry _ plan_wf _ _ st _ _ Hplan Hnf Hm Hlt)
      as (p' & Hplan' & Hskip & Hpl & Hm').
    unfold visited in Hd0. rewrite Hplan' in Hd0.
    destruct Hd0 as (lf' & Hrun & _).
    eapply attempts_reach in Hrun as [ok Hok]; [|
      by eapply (plan_sorted _ plan_wf) | exact Hm' | exact Hlt].
    exists ok. rewrite <- Hpl. apply elem_of_app. by left.
  - assert (dialog_key d ≠ dialog_key d0) as Hne.
    { intros Heq. apply Hfresh. rewrite <- Heq.
      apply list_elem_of_In, in_map, list_elem_of_In, Hin. }
    apply (visited_state cfg backend plan plan_wf) in Hd0
      as (_ & _ & Hother & _).
    destruct IH as [ok Hok]; try done.
    { unfold state_get. rewrite (Hother _ Hne). exact Hlt. }
    exists ok. apply elem_of_app. by right.
Qed.

(** *** From the loop to the pass *)

Lemma pass_outcome_events ds w n' w' :
  pass_outcome cfg backend plan ds w n' w' →
  ∃ st' evs saved,
    visits cfg backend plan ds (default ∅ (disk w)) 0 (trace w) st' n' evs
    ∧ default ∅ (disk w') = st'
    ∧ new_events w w' = evs ++ saved
    ∧ Forall (λ e, is_saved e = true) saved.
Proof.
  intros (st' & evs & Hrun & Hst & [[_ Htr] | [_ Htr]]).
  - exists st', evs, []. rewrite app_nil_r.
    split; [done|]. split; [done|]. split; [by apply new_events_app | done].
  - exists st', evs, [Saved st'].
    split; [done|]. split; [done|]. split; [by apply new_events_app|].
    by repeat constructor.
Qed.

Lemma Sent_in_events evs saved key p ok :
  Forall (λ e, is_saved e = true) saved →
  Sent key p ok ∈ evs ++ saved ↔ Sent key p ok ∈ evs.
Proof.
  intros Hsaved. rewrite elem_of_app. split; [|by left].
  intros [?|Hin]; [done|]. rewrite Forall_forall in Hsaved.
  by apply Hsaved in Hin.
Qed.

Lemma attempted_saved saved k :
  Forall (λ e, is_saved e = true) saved → attempted k saved = [].
Proof.
  induction 1 as [|e saved He _ IH]; [done|].
  unfold attempted. cbn [omap list_omap]. by destruct e.
Qed.

(** No attempt at or below the stored watermark. *)
Lemma pass_above_watermark ds w n' w' k p ok :
  pass_outcome cfg backend plan ds w n' w' →
  Sent (Some k) p ok ∈ new_events w w' →
  watermark w k < p_message_id p.
Proof.
  intros (st' & evs & saved & Hrun & _ & -> & Hsaved)%pass_outcome_events.
  rewrite Sent_in_events by done. intros Hin.
  apply (visits_events cfg backend plan plan_wf) in Hrun.
  rewrite Forall_forall in Hrun.
  destruct (Hrun _ Hin) as (d & sd & pl & m & ok' & _ & Hplan & Heq & _ & Hlt).
  injection Heq as Hk Hp _. subst k p.
  by rewrite with_account_id, (plan_ids _ plan_wf _ _ _ _ Hplan).
Qed.

(** The stored watermark of a key stays or grows to the id of a delivery
    that succeeded for the key in this pass. *)
Lemma pass_watermark ds w n' w' k :
  pass_outcome cfg backend plan ds w n' w' →
  watermark w k ≤ watermark w' k
  ∧ (default ∅ (disk w') !! k = default ∅ (disk w) !! k
     ∨ (watermark w k < watermark w' k
        ∧ ∃ p, Sent (Some k) p true ∈ new_events w w'
               ∧ p_message_id p = watermark w' k)).
Proof.
  intros (st' & evs & saved & Hrun & Hst & -> & Hsaved)%pass_outcome_events.
  apply (visits_state cfg backend plan plan_wf) in Hrun
    as (_ & _ & Hmono & Hsrc).
  unfold watermark. rewrite Hst. split; [apply Hmono|].
  destruct (Hsrc k) as [Hk | (_ & Hlt & p & Hin & Hp)]; [by left|].
  right. split; [done|]. exists p. by rewrite Sent_in_events.
Qed.

Lemma pass_sorted ds w n' w' k :
  pass_outcome cfg backend plan ds w n' w' →
  NoDup (map dialog_key ds) →
  Forall newest_first ds →
  StronglySorted Z.lt (attempted k (new_events w w')).
Proof.
  intros (st' & evs & saved & Hrun & _ & -> & Hsaved)%pass_outcome_events
    Hnd Hnf.
  rewrite attempted_app, (attempted_saved _ _ Hsaved), app_nil_r.
  by eapply visits_sorted.
Qed.

(** Every POST of a pass carries the extracted text of a message of one
    of the dialogs. *)
Lemma pass_text ds w n' w' k p ok :
  pass_outcome cfg backend plan ds w n' w' →
  Sent k p ok ∈ new_events w w' →
  ∃ d m, d ∈ ds ∧ m ∈ d_history d ∧ k = Some (dialog_key d)
         ∧ p_message_id p = m_id m
         ∧ p_message p = extract_message_text m.
Proof.
  intros (st' & evs & saved & Hrun & _ & -> & Hsaved)%pass_outcome_events.
  rewrite Sent_in_events by done. intros Hin.
  apply (visits_events cfg backend plan plan_wf) in Hrun.
  rewrite Forall_forall in Hrun.
  destruct (Hrun _ Hin) as (d & sd & pl & m & ok' & Hd & Hplan & Heq & Hm & _).
  injection Heq as Hk Hp _. subst k p. exists d, m.
  split; [done|]. split; [by eapply (plan_source _ plan_wf)|].
  split; [done|]. rewrite with_account_id.
  split; [by eapply (plan_ids _ plan_wf)|].
  by apply (plan_text _ plan_wf _ _ _ _ Hplan).
Qed.

(** A delivery that failed, with no success for a larger or equal id of
    the chat in the same pass, is still above the watermark the pass
    stores. *)
Lemma pass_failed_above ds w n1 w1 k p :
  pass_outcome cfg backend plan ds w n1 w1 →
  Sent (Some k) p false ∈ new_events w w1 →
  (∀ q, Sent (Some k) q true ∈ new_events w w1 →
        p_message_id q < p_message_id p) →
  watermark w1 k < p_message_id p.
Proof.
  intros H1 Hfail Hsucc.
  pose proof (pass_above_watermark _ _ _ _ _ _ _ H1 Hfail) as Hlt.
  destruct (pass_watermark _ _ _ _ k H1) as [_ [Hsame | (_ & q & Hq & Hid)]].
  - unfold watermark, state_get in *. by rewrite Hsame.
  - rewrite <- Hid. by apply Hsucc.
Qed.

End Passes.

(** ** The two passes *)

Section Claims.

Variable cfg : Config.
Variable backend : list Event → Payload → bool.

Lemma sweep_cases resp ds w :
  let r := process_unread_important_messages cfg backend resp ds w in
  r = (0, w)
  ∨ pass_outcome cfg backend
      (sweep_plan cfg (fetch_important_contacts cfg resp)) ds w r.1 r.2.
Proof.
  pose proof (cron_pass_outcome cfg backend resp ds w) as H. cbn zeta in *.
  destruct (nothing_important _); [by left | by right].
Qed.

(** The backfill stops at an empty contact list or at the cutoff it
    cannot compute, leaving the world as it was, or is a run of its dialog
    loop followed by the write of the state. *)
Lemma backfill_cases resp now ds w :
  let r := backfill_history cfg backend resp now ds w in
  r.2 = w
  ∨ ∃ n', r.1 = Some n'
      ∧ pass_outcome cfg backend
          (backfill_plan cfg (fetch_important_contacts cfg resp) now) ds w
          n' r.2.
Proof.
  pose proof (backfill_pass_outcome cfg backend resp now ds w) as H.
  cbn zeta in *.
  destruct (nothing_important _); [left; by rewrite H|].
  destruct (cutoff_raises cfg now); [left; by rewrite H | by right].
Qed.

(** A pass stops at the contact list or at its cutoff, or is the outcome
    of one of the two plans. *)
Lemma run_pass_cases p w :
  run_pass cfg backend p w = w
  ∨ ∃ plan ds n',
      plan_ok plan
      ∧ pass_outcome cfg backend plan ds w n' (run_pass cfg backend p w).
Proof.
  destruct p as [resp ds | resp now ds]; cbn [run_pass].
  - destruct (sweep_cases resp ds w) as [-> | H]; [by left|].
    right. eexists _, ds, _. split; [apply sweep_plan_ok | exact H].
  - destruct (backfill_cases resp now ds w) as [-> | (n' & _ & H)];
      [by left|].
    right. eexists _, ds, _. split; [apply backfill_plan_ok | exact H].
Qed.

Lemma elem_of_attempted key evs i :
  i ∈ attempted key evs
  ↔ ∃ p ok, Sent (Some key) p ok ∈ evs ∧ p_message_id p = i.
Proof.
  unfold attempted. rewrite list_elem_of_omap. split.
  - intros (e & Hin & He). destruct e as [[k|] p ok | st]; try done.
    simpl in He. case_decide; [|done]. injection He as <-. subst k.
    by exists p, ok.
  - intros (p & ok & Hin & <-). eexists. split; [exact Hin|].
    simpl. by rewrite decide_True.
Qed.

Lemma run_pass_watermark p w key :
  watermark w key ≤ watermark (run_pass cfg backend p w) key.
Proof.
  destruct (run_pass_cases p w) as [-> | (plan & ds & n' & Hok & Hout)];
    [lia|].
  by destruct (pass_watermark cfg backend plan Hok _ _ _ _ key Hout).
Qed.

Lemma watermarks_bounded key ps : ∀ w z,
  z ≤ watermark w key → Forall (Z.le z) (watermarks cfg backend key ps w).
Proof.
  induction ps as [|p ps IH]; intros w z Hz; cbn [watermarks].
  - by repeat constructor.
  - constructor; [done|]. apply IH.
    pose proof (run_pass_watermark p w key). lia.
Qed.

Lemma watermarks_sorted key ps : ∀ w,
  StronglySorted Z.le (watermarks cfg backend key ps w).
Proof.
  induction ps as [|p ps IH]; intros w; cbn [watermarks].
  - repeat constructor.
  - constructor; [apply IH|]. apply watermarks_bounded.
    apply run_pass_watermark.
Qed.

(** The message loops, one step at a time. *)
Lemma cron_loop_step d m ms lf n w :
  for_each (cron_message cfg backend d) (m :: ms) (lf, n) w
  = if m_id m <=? lf
    then for_each (cron_message cfg backend d) ms (lf, n) w
    else
      let p := with_account cfg (cron_payload d m) in
      let ok := backend (trace w) p in
      for_each (cron_message cfg backend d) ms
        (if ok then (Z.max lf (m_id m), n + 1) else (lf, n))
        {| disk := disk w;
           trace := trace w ++ [Sent (Some (dialog_key d)) p ok] |}.
Proof.
  cbn [for_each]. unfold bind at 1.
  rewrite cron_message_attempt, attempt_eq. cbn [andb].
  by destruct (m_id m <=? lf).
Qed.

Lemma backfill_loop_step d m ms lf n w :
  for_each (backfill_message cfg backend d) (m :: ms) (lf, n) w
  = let p := with_account cfg (backfill_payload d m) in
    let ok := backend (trace w) p in
    for_each (backfill_message cfg backend d) ms
      (if ok then (Z.max lf (m_id m), n + 1) else (lf, n))
      {| disk := disk w;
         trace := trace w ++ [Sent (Some (dialog_key d)) p ok] |}.
Proof.
  cbn [for_each]. unfold bind at 1.
  by rewrite backfill_message_attempt, attempt_eq.
Qed.

Lemma loop_watermark skip key pl ms lf n w :
  (∀ m, p_message_id (pl m) = m_id m) →
  let r := for_each (attempt cfg backend skip key pl) ms (lf, n) w in
  lf ≤ r.1.1
  ∧ (r.1.1 = lf
     ∨ ∃ q, Sent (Some key) q true ∈ new_events w r.2
            ∧ p_message_id q = r.1.1).
Proof.
  intros Hid r. subst r.
  destruct (attempt_loop_run cfg backend skip key pl ms lf n w)
    as (lf' & n' & evs & -> & Hrun).
  apply attempts_watermark in Hrun as (Hle & _ & _ & Hsrc); [|done].
  cbn [fst snd]. split; [done|].
  by rewrite (new_events_app w _ evs).
Qed.

End Claims.

(** ** The claims *)

(** C4.  In both message loops a delivery that fails leaves the watermark
    and the counter as they were and the loop goes on with the remaining
    messages; a delivery that succeeds sets the watermark to
    [max(current, thisId)].  With watermark 0 and messages 1, 2, 3 (oldest
    first) where the delivery of 2 fails and those of 1 and 3 succeed, all
    three are attempted in that order and the watermark ends at 3, in the
    cron sweep and in the backfill. *)
Theorem failed_delivery_keeps_watermark_and_loop_goes_on :
  (∀ cfg backend d m ms lf n w,
     for_each (cron_message cfg backend d) (m :: ms) (lf, n) w
     = if m_id m <=? lf
       then for_each (cron_message cfg backend d) ms (lf, n) w
       else
         let p := with_account cfg (cron_payload d m) in
         let ok := backend (trace w) p in
         for_each (cron_message cfg backend d) ms
           (if ok then (Z.max lf (m_id m), n + 1) else (lf, n))
           {| disk := disk w;
              trace := trace w ++ [Sent (Some (dialog_key d)) p ok] |})
  ∧ (∀ cfg backend d m ms lf n w,
       for_each (backfill_message cfg backend d) (m :: ms) (lf, n) w
       = let p := with_account cfg (backfill_payload d m) in
         let ok := backend (trace w) p in
         for_each (backfill_message cfg backend d) ms
           (if ok then (Z.max lf (m_id m), n + 1) else (lf, n))
           {| disk := disk w;
              trace := trace w ++ [Sent (Some (dialog_key d)) p ok] |})
  ∧ (let r := process_unread_important_messages Scenario.watch_everything
                Scenario.rejects_2 Scenario.contacts_555
                [Scenario.three_unread] Scenario.fresh in
     watermark Scenario.fresh "User:555" = 0
     ∧ Scenario.outcomes (trace r.2) = [(1, true); (2, false); (3, true)]
     ∧ watermark r.2 "User:555" = 3)
  ∧ (let r := backfill_history Scenario.watch_everything
                Scenario.rejects_2 Scenario.contacts_555 Scenario.today
                [Scenario.three_unread] Scenario.fresh in
     Scenario.outcomes (trace r.2) = [(1, true); (2, false); (3, true)]
     ∧ watermark r.2 "User:555" = 3).
Proof.
  split; [intros; apply cron_loop_step|].
  split; [intros; apply backfill_loop_step|].
  split; [by vm_compute | by vm_compute].
Qed.

(** C6.  A message whose id is at or below the watermark the state file
    holds for its chat is not among the delivery attempts of a cron sweep
    or of a backfill; the comparison is strict, so an id equal to the
    watermark is not attempted. *)
Theorem no_delivery_at_or_below_watermark :
  ∀ cfg backend resp now ds w d m,
    m_id m ≤ watermark w (dialog_key d) →
    (m_id m ∉ attempted (dialog_key d)
       (new_events w
          (process_unread_important_messages cfg backend resp ds w).2))
    ∧ (m_id m ∉ attempted (dialog_key d)
         (new_events w (backfill_history cfg backend resp now ds w).2)).
Proof.
  intros cfg backend resp now ds w d m Hle. split.
  - destruct (sweep_cases cfg backend resp ds w) as [-> | Hout].
    + cbn [snd]. rewrite new_events_refl. apply not_elem_of_nil.
    + rewrite elem_of_attempted. intros (p & ok & Hin & Hid).
      pose proof (pass_above_watermark cfg backend _ (sweep_plan_ok cfg _)
                    _ _ _ _ _ _ _ Hout Hin). lia.
  - destruct (backfill_cases cfg backend resp now ds w)
      as [-> | (n' & _ & Hout)].
    + rewrite new_events_refl. apply not_elem_of_nil.
    + rewrite elem_of_attempted. intros (p & ok & Hin & Hid).
      pose proof (pass_above_watermark cfg backend _
                    (backfill_plan_ok cfg _ _) _ _ _ _ _ _ _ Hout Hin). lia.
Qed.

(** Witness of C6: the second sweep of the partial-failure scenario finds
    the watermark at 3 and attempts none of the messages 1, 2, 3. *)
Lemma no_delivery_at_or_below_watermark_witness :
  let w := (process_unread_important_messages Scenario.watch_everything
              Scenario.rejects_2 Scenario.contacts_555
              [Scenario.three_unread] Scenario.fresh).2 in
  let m := Scenario.text_message 3 Scenario.today in
  m_id m ≤ watermark w (dialog_key Scenario.three_unread)
  ∧ (m_id m ∉ attempted (dialog_key Scenario.three_unread)
       (new_events w
          (process_unread_important_messages Scenario.watch_everything
             Scenario.rejects_2 Scenario.contacts_555
             [Scenario.three_unread] w).2))
  ∧ (m_id m ∉ attempted (dialog_key Scenario.three_unread)
       (new_events w
          (backfill_history Scenario.watch_everything
             Scenario.rejects_2 Scenario.contacts_555 Scenario.today
             [Scenario.three_unread] w).2)).
Proof.
  intros w m.
  assert (m_id m ≤ watermark w (dialog_key Scenario.three_unread)) as Hle
    by (vm_compute; discriminate).
  split; [exact Hle|].
  exact (no_delivery_at_or_below_watermark Scenario.watch_everything
           Scenario.rejects_2 Scenario.contacts_555 Scenario.today
           [Scenario.three_unread] w Scenario.three_unread m Hle).
Defined.

(** C7.  For every key the watermarks the state file holds over
    successive passes are non-decreasing.  A pass leaves the stored value
    of a key alone, or replaces it by a strictly greater one that is the id
    of a delivery that succeeded for that key in the pass; and inside both
    message loops the watermark only grows, to the id of a delivery that
    succeeded. *)
Theorem watermark_never_decreases :
  ∀ cfg backend key,
    (∀ ps w, StronglySorted Z.le (watermarks cfg backend key ps w))
    ∧ (∀ p w,
         let w' := run_pass cfg backend p w in
         default ∅ (disk w') !! key = default ∅ (disk w) !! key
         ∨ (watermark w key < watermark w' key
            ∧ ∃ q, Sent (Some key) q true ∈ new_events w w'
                   ∧ p_message_id q = watermark w' key))
    ∧ (∀ d ms lf n w,
         let r := for_each (cron_message cfg backend d) ms (lf, n) w in
         lf ≤ r.1.1
         ∧ (r.1.1 = lf
            ∨ ∃ q, Sent (Some (dialog_key d)) q true ∈ new_events w r.2
                   ∧ p_message_id q = r.1.1))
    ∧ (∀ d ms lf n w,
         let r := for_each (backfill_message cfg backend d) ms (lf, n) w in
         lf ≤ r.1.1
         ∧ (r.1.1 = lf
            ∨ ∃ q, Sent (Some (dialog_key d)) q true ∈ new_events w r.2
                   ∧ p_message_id q = r.1.1)).
Proof.
  intros cfg backend key.
  split; [intros; apply watermarks_sorted|].
  split.
  { intros p w w'. subst w'.
    destruct (run_pass_cases cfg backend p w)
      as [-> | (plan & ds & n' & Hok & Hout)]; [by left|].
    by destruct (pass_watermark cfg backend plan Hok _ _ _ _ key Hout). }
  split.
  - intros d ms lf n w.
    rewrite (for_each_ext _ _ _ (cron_message_attempt cfg backend d)).
    by apply loop_watermark.
  - intros d ms lf n w.
    rewrite (for_each_ext _ _ _ (backfill_message_attempt cfg backend d)).
    by apply loop_watermark.
Qed.

Lemma collect_messages_stop cutoff lf ms :
  ∃ rest,
    ms = collect_messages cutoff lf ms ++ rest
    ∧ Forall (λ m, lf < m_id m ∧ before_cutoff cutoff m = false)
        (collect_messages cutoff lf ms)
    ∧ match rest with
      | [] => True
      | m :: _ => m_id m ≤ lf ∨ before_cutoff cutoff m = true
      end.
Proof.
  induction ms as [|m ms (rest & Heq & Hall & Hstop)]; [by exists []|].
  simpl. destruct (m_id m <=? lf) eqn:Hle.
  { exists (m :: ms). split; [done|]. split; [constructor|].
    left. by apply Z.leb_le. }
  destruct (before_cutoff cutoff m) eqn:Hcut.
  { exists (m :: ms). split; [done|]. split; [constructor | by right]. }
  exists rest. split; [simpl; by f_equal|]. split; [|done].
  constructor; [|done]. split; [by apply Z.leb_gt | done].
Qed.

Lemma backfill_dialog_attempts cfg backend imp now d s w :
  backfill_eligible cfg imp d = true →
  attempted (dialog_key d)
    (new_events w (backfill_dialog cfg backend imp now d s w).2)
  = map m_id
      (rev (collect_messages (backfill_cutoff cfg now)
              (state_get (bf_state s) (dialog_key d))
              (iter_messages d (backfill_limit cfg)))).
Proof.
  intros Helig.
  destruct (backfill_dialog_visit cfg backend imp now d s w) as (u' & -> & _).
  destruct (visit_run cfg backend (backfill_plan cfg imp now) d
              (bf_state s) (total_forwarded s) w)
    as (st' & n' & evs & -> & Hv).
  cbn [snd]. rewrite (new_events_app w _ evs) by done.
  unfold visited, backfill_plan in Hv. rewrite Helig in Hv.
  destruct Hv as (lf' & Hrun & _).
  cbn [plan_skip plan_payload plan_candidates] in Hrun.
  by apply attempts_all in Hrun.
Qed.

(** C8.  The backfill walk goes newest first over at most the configured
    number of messages and keeps a prefix of them: it ends at the first
    message whose id is at or below the chat's watermark or whose date is
    before the cutoff, and nothing after that message is collected.  The
    collected messages are then attempted in reverse, oldest first.  With
    a cutoff of 3 days and messages 90 and 89 of today and 88 of four days
    ago, the walk collects 90 and 89 and the deliveries are 89 then 90. *)
Theorem backfill_walk_stops_early :
  (∀ cutoff lf ms,
     ∃ rest,
       ms = collect_messages cutoff lf ms ++ rest
       ∧ Forall (λ m, lf < m_id m ∧ before_cutoff cutoff m = false)
           (collect_messages cutoff lf ms)
       ∧ match rest with
         | [] => True
         | m :: _ => m_id m ≤ lf ∨ before_cutoff cutoff m = true
         end)
  ∧ (∀ cfg d,
       0 < BACKFILL_MESSAGE_LIMIT cfg →
       (length (iter_messages d (backfill_limit cfg))
        ≤ Z.to_nat (BACKFILL_MESSAGE_LIMIT cfg))%nat)
  ∧ (∀ cfg backend imp now d s w,
       backfill_eligible cfg imp d = true →
       attempted (dialog_key d)
         (new_events w (backfill_dialog cfg backend imp now d s w).2)
       = map m_id
           (rev (collect_messages (backfill_cutoff cfg now)
                   (state_get (bf_state s) (dialog_key d))
                   (iter_messages d (backfill_limit cfg)))))
  ∧ (let cutoff := backfill_cutoff Scenario.three_days Scenario.today in
     let r := backfill_history Scenario.three_days Scenario.accepts_all
                Scenario.contacts_555 Scenario.today
                [Scenario.with_old_message] Scenario.fresh in
     cutoff = Some (Scenario.today - 3 * Scenario.day)
     ∧ map m_id (collect_messages cutoff 0
                   (d_history Scenario.with_old_message)) = [90; 89]
     ∧ Scenario.outcomes (trace r.2) = [(89, true); (90, true)]).
Proof.
  split; [apply collect_messages_stop|].
  split.
  { intros cfg d Hpos. unfold backfill_limit.
    assert ((BACKFILL_MESSAGE_LIMIT cfg >? 0) = true) as ->
      by (apply Z.gtb_gt; lia).
    simpl. rewrite length_take. lia. }
  split; [apply backfill_dialog_attempts|].
  by vm_compute.
Qed.

(** Witness of C8: the chat of the cutoff scenario, visited by the
    backfill with an empty state. *)
Lemma backfill_walk_stops_early_witness :
  let cfg := Scenario.three_days in
  let imp := fetch_important_contacts cfg Scenario.contacts_555 in
  let d := Scenario.with_old_message in
  let s := {| bf_state := ∅; total_forwarded := 0; updated_keys := 0 |} in
  (0 < BACKFILL_MESSAGE_LIMIT cfg
   ∧ (length (iter_messages d (backfill_limit cfg))
      ≤ Z.to_nat (BACKFILL_MESSAGE_LIMIT cfg))%nat)
  ∧ backfill_eligible cfg imp d = true
  ∧ attempted (dialog_key d)
      (new_events Scenario.fresh
         (backfill_dialog cfg Scenario.accepts_all imp Scenario.today d s
            Scenario.fresh).2)
    = map m_id
        (rev (collect_messages (backfill_cutoff cfg Scenario.today)
                (state_get (bf_state s) (dialog_key d))
                (iter_messages d (backfill_limit cfg)))).
Proof.
  intros cfg imp d s.
  destruct backfill_walk_stops_early as (_ & Hlimit & Hattempts & _).
  assert (0 < BACKFILL_MESSAGE_LIMIT cfg) as Hpos by done.
  assert (backfill_eligible cfg imp d = true) as Helig by (by vm_compute).
  split; [split; [exact Hpos | exact (Hlimit cfg d Hpos)]|].
  split; [exact Helig|].
  exact (Hattempts cfg Scenario.accepts_all imp Scenario.today d s
           Scenario.fresh Helig).
Defined.

Lemma filter_above_all (lf : Z) (l : list Z) :
  Forall (λ i, lf < i) l → filter (λ i, lf < i) l = l.
Proof.
  induction 1 as [|i l Hi _ IH]; [done|].
  rewrite filter_cons_True by done. by f_equal.
Qed.

(** In a batch of increasing ids the skipping loop attempts exactly the
    ids above the watermark it starts from. *)
Lemma attempts_sweep_exact cfg backend key pl ms lf n h lf' n' evs :
  (∀ m, p_message_id (pl m) = m_id m) →
  attempts cfg backend true key pl ms lf n h lf' n' evs →
  StronglySorted Z.lt (map m_id ms) →
  attempted key evs = filter (λ i, lf < i) (map m_id ms).
Proof.
  intros Hid.
  induction 1 as [lf n h | m ms lf n h lf' n' evs Hs Hle _ IH
                 | m ms lf n h lf' n' evs Hgt Hok _ IH
                 | m ms lf n h lf' n' evs Hgt Hok _ IH];
    intros Hsorted; [done|..];
    cbn [map] in *; apply StronglySorted_inv in Hsorted as [Hsorted Hall].
  - rewrite filter_cons_False by lia. by apply IH.
  - specialize (Hgt eq_refl). rewrite filter_cons_True by done.
    unfold attempted. cbn [omap list_omap]. rewrite sent_id_same.
    rewrite with_account_id, Hid. simpl. f_equal.
    fold (attempted key evs). rewrite (IH Hsorted).
    rewrite !filter_above_all; [done | |].
    + eapply Forall_impl; [exact Hall|]. simpl. intros; lia.
    + eapply Forall_impl; [exact Hall|]. simpl. intros; lia.
  - specialize (Hgt eq_refl). rewrite filter_cons_True by done.
    unfold attempted. cbn [omap list_omap]. rewrite sent_id_same.
    rewrite with_account_id, Hid. simpl. f_equal.
    by apply IH.
Qed.

Lemma cron_dialog_attempts cfg backend imp d st n w :
  sweep_eligible cfg imp d = true →
  newest_first d →
  attempted (dialog_key d)
    (new_events w (cron_dialog cfg backend imp d (st, n) w).2)
  = filter (λ i, state_get st (dialog_key d) < i)
      (rev (map m_id (get_messages d (Z.max (d_unread_count d) 1)))).
Proof.
  intros Helig Hnf. rewrite cron_dialog_visit.
  destruct (visit_run cfg backend (sweep_plan cfg imp) d st n w)
    as (st' & n' & evs & -> & Hv).
  cbn [snd]. rewrite (new_events_app w _ evs) by done.
  pose proof (plan_sorted _ (sweep_plan_ok cfg imp) d st) as Hsorted.
  unfold visited, sweep_plan in Hv, Hsorted. rewrite Helig in Hv, Hsorted.
  destruct Hv as (lf' & Hrun & _).
  specialize (Hsorted _ eq_refl Hnf).
  cbn [plan_skip plan_payload plan_candidates] in Hrun, Hsorted.
  rewrite <- map_rev.
  by eapply attempts_sweep_exact in Hrun.
Qed.

(** C9.  When every chat is listed once and the client hands messages
    newest first (ids decreasing), the delivery attempts a cron sweep or a
    backfill makes for a chat come in strictly increasing id order.  In the
    cron sweep the attempts for a reconciled chat are exactly the ids above
    its watermark among the [max(unread_count, 1)] most recent messages,
    in the reverse of the fetch order. *)
Theorem attempts_in_increasing_id_order :
  (∀ cfg backend resp now ds w k,
     NoDup (map dialog_key ds) →
     Forall newest_first ds →
     StronglySorted Z.lt
       (attempted k
          (new_events w
             (process_unread_important_messages cfg backend resp ds w).2))
     ∧ StronglySorted Z.lt
         (attempted k
            (new_events w (backfill_history cfg backend resp now ds w).2)))
  ∧ (∀ cfg backend imp d st n w,
       sweep_eligible cfg imp d = true →
       newest_first d →
       attempted (dialog_key d)
         (new_events w (cron_dialog cfg backend imp d (st, n) w).2)
       = filter (λ i, state_get st (dialog_key d) < i)
           (rev (map m_id
                   (get_messages d (Z.max (d_unread_count d) 1))))).
Proof.
  split; [|apply cron_dialog_attempts].
  intros cfg backend resp now ds w k Hnd Hnf. split.
  - destruct (sweep_cases cfg backend resp ds w) as [-> | Hout].
    + cbn [snd]. rewrite new_events_refl. constructor.
    + eapply pass_sorted; [apply sweep_plan_ok | exact Hout | done | done].
  - destruct (backfill_cases cfg backend resp now ds w)
      as [-> | (n' & _ & Hout)].
    + rewrite new_events_refl. constructor.
    + eapply pass_sorted; [apply backfill_plan_ok | exact Hout | done | done].
Qed.

Lemma three_unread_newest_first : newest_first Scenario.three_unread.
Proof.
  unfold newest_first. simpl.
  repeat (constructor; [|repeat constructor; lia]). constructor.
Qed.

Lemma three_unread_listed_once :
  NoDup (map dialog_key [Scenario.three_unread]).
Proof. apply NoDup_singleton. Qed.

(** Witness of C9: the chat with three unread messages. *)
Lemma attempts_in_increasing_id_order_witness :
  let cfg := Scenario.watch_everything in
  let imp := fetch_important_contacts cfg Scenario.contacts_555 in
  let d := Scenario.three_unread in
  (NoDup (map dialog_key [d]) ∧ Forall newest_first [d]
   ∧ StronglySorted Z.lt
       (attempted "User:555"
          (new_events Scenario.fresh
             (process_unread_important_messages cfg Scenario.rejects_2
                Scenario.contacts_555 [d] Scenario.fresh).2))
   ∧ StronglySorted Z.lt
       (attempted "User:555"
          (new_events Scenario.fresh
             (backfill_history cfg Scenario.rejects_2
                Scenario.contacts_555 Scenario.today [d] Scenario.fresh).2)))
  ∧ (sweep_eligible cfg imp d = true ∧ newest_first d
     ∧ attempted (dialog_key d)
         (new_events Scenario.fresh
            (cron_dialog cfg Scenario.rejects_2 imp d (∅, 0)
               Scenario.fresh).2)
       = filter (λ i, state_get ∅ (dialog_key d) < i)
           (rev (map m_id
                   (get_messages d (Z.max (d_unread_count d) 1))))).
Proof.
  intros cfg imp d.
  destruct attempts_in_increasing_id_order as [Hpass Hdialog].
  assert (Forall newest_first [d]) as Hnf
    by (constructor; [apply three_unread_newest_first | constructor]).
  assert (sweep_eligible cfg imp d = true) as Helig by (by vm_compute).
  split.
  - split; [apply three_unread_listed_once|]. split; [exact Hnf|].
    exact (Hpass cfg Scenario.rejects_2 Scenario.contacts_555 Scenario.today
             [d] Scenario.fresh "User:555" three_unread_listed_once Hnf).
  - split; [exact Helig|]. split; [apply three_unread_newest_first|].
    exact (Hdialog cfg Scenario.rejects_2 imp d ∅ 0 Scenario.fresh Helig
             three_unread_newest_first).
Defined.

(** Counterexample to C3 as stated: in the partial-failure scenario the
    delivery of message 2 fails and that of message 3 succeeds, so the
    sweep stores watermark 3; message 2 is then at or below the stored
    watermark and the next sweep over the same dialogs does not attempt
    it. *)
Lemma failed_delivery_overtaken_is_not_retried :
  let sweep := process_unread_important_messages Scenario.watch_everything
                 Scenario.rejects_2 Scenario.contacts_555
                 [Scenario.three_unread] in
  let w1 := (sweep Scenario.fresh).2 in
  let w2 := (sweep w1).2 in
  Scenario.outcomes (new_events Scenario.fresh w1)
  = [(1, true); (2, false); (3, true)]
  ∧ watermark w1 "User:555" = 3
  ∧ ¬ (watermark w1 "User:555" < 2)
  ∧ attempted "User:555" (new_events w1 w2) = []
  ∧ 2 ∉ attempted "User:555" (new_events w1 w2).
Proof.
  intros sweep w1 w2.
  assert (attempted "User:555" (new_events w1 w2) = []) as Hnone
    by (by vm_compute).
  split; [by vm_compute|]. split; [by vm_compute|].
  split; [by vm_compute|]. split; [exact Hnone|].
  rewrite Hnone. apply not_elem_of_nil.
Qed.

Lemma truthy_nonempty s : Py.truthy s = true → s ≠ EmptyString.
Proof. by destruct s. Qed.

Lemma truthy_eqb s : Py.truthy s = negb (String.eqb s EmptyString).
Proof. by destruct s. Qed.

Lemma extract_message_text_nonempty m : extract_message_text m ≠ EmptyString.
Proof.
  unfold extract_message_text, media_placeholder.
  destruct (Py.truthy (Py.strip (default _ (m_raw_text m)))) eqn:Hraw;
    [by apply truthy_nonempty|].
  destruct (Py.truthy_opt (m_message m)); [|by destruct (m_media m)].
  destruct (Py.truthy (Py.strip (default _ (m_message m)))) eqn:Hsec;
    [by apply truthy_nonempty | by destruct (m_media m)].
Qed.

Lemma extract_message_text_policy m :
  extract_message_text m
  = extraction_policy (default EmptyString (m_raw_text m))
      (default EmptyString (m_message m)) (m_media m).
Proof.
  unfold extract_message_text, extraction_policy, media_placeholder.
  rewrite <- !truthy_eqb.
  destruct (Py.truthy (Py.strip (default _ (m_raw_text m)))); [done|].
  destruct (m_message m) as [[|c s]|]; done.
Qed.

(** Counterexample to C5 as stated: the live handler posts the raw text
    as it is; for an event with empty raw text and a media attachment the
    payload's text is empty, not ["[Media message]"]. *)
Lemma live_media_message_has_empty_text :
  let event := Scenario.private_event Scenario.ann (Some EmptyString) true in
  let r := handler Scenario.watch_everything Scenario.accepts_all event
             Scenario.fresh in
  ev_raw_text event = Some EmptyString
  ∧ ev_media event = true
  ∧ r.1 = Forwarded true
  ∧ Scenario.texts (trace r.2) = [EmptyString]
  ∧ Scenario.texts (trace r.2) ≠ ["[Media message]"%string].
Proof. by vm_compute. Qed.

(** C1.  The backfill at its failing input: with [WATCH_CHATS=123] the
    chat 555 is outside the watch scope ([should_forward] is false for it)
    and it is on the important list.  The cron sweep skips it; the
    backfill, which never calls [should_forward], reconciles it and posts
    its three messages. *)
Theorem backfill_does_not_apply_watch_scope :
  let cfg := Scenario.watch_123 in
  let imp := fetch_important_contacts cfg Scenario.contacts_555 in
  let d := Scenario.three_unread in
  should_forward cfg (Some (d_entity d)) = false
  ∧ passes_skeleton cfg imp (Some (d_entity d)) = false
  ∧ backfill_eligible cfg imp d = true
  ∧ Scenario.outcomes
      (trace (backfill_history cfg Scenario.accepts_all Scenario.contacts_555
                Scenario.today [d] Scenario.fresh).2)
    = [(1, true); (2, true); (3, true)]
  ∧ Scenario.outcomes
      (trace (process_unread_important_messages cfg Scenario.accepts_all
                Scenario.contacts_555 [d] Scenario.fresh).2)
    = [].
Proof. by vm_compute. Qed.




Lemma nothing_important_no_contacts raised :
  nothing_important (no_contacts raised) = true.
Proof.
  unfold nothing_important, no_contacts. cbn [important_ids important_usernames].
  by rewrite !bool_decide_eq_true_2.
Qed.

(** Counterexample to C10 as stated: the second entry of the contact list
    is not an object, reading it raises inside
    [fetch_important_contacts] after contact 555 has been recorded; the
    function returns that contact, and the sweep and the backfill reconcile
    its chat and post its messages. *)
Lemma fetch_exception_after_first_contact :
  let cfg := Scenario.watch_everything in
  let imp := fetch_important_contacts cfg Scenario.contacts_555_then_junk in
  let sweep := process_unread_important_messages cfg Scenario.accepts_all
                 Scenario.contacts_555_then_junk [Scenario.three_unread]
                 Scenario.fresh in
  let backfill := backfill_history cfg Scenario.accepts_all
                    Scenario.contacts_555_then_junk Scenario.today
                    [Scenario.three_unread] Scenario.fresh in
  fetch_raised imp = true
  ∧ nothing_important imp = false
  ∧ sweep.1 = 3
  ∧ Scenario.outcomes (trace sweep.2) = [(1, true); (2, true); (3, true)]
  ∧ watermark sweep.2 "User:555" = 3
  ∧ backfill.1 = Some 3
  ∧ Scenario.outcomes (trace backfill.2) = [(1, true); (2, true); (3, true)].
Proof. by vm_compute. Qed.

(** C10, amended.  When [fetch_important_contacts] returns no contact, the
    cron sweep and the backfill stop at once: they return 0 and leave the
    world as it is, with no delivery attempted and no state written.  That
    is the case whenever the request, the status check or the decoding
    raises, and whenever the document is not an object holding a list of
    contacts. *)
Theorem no_contacts_short_circuits_pass :
  (∀ cfg backend resp now ds w,
     nothing_important (fetch_important_contacts cfg resp) = true →
     process_unread_important_messages cfg backend resp ds w = (0, w)
     ∧ backfill_history cfg backend resp now ds w = (Some 0, w))
  ∧ (∀ cfg,
       nothing_important (fetch_important_contacts cfg RequestRaises) = true)
  ∧ (∀ cfg data,
       (∀ kvs, data ≠ JDict kvs) →
       nothing_important (fetch_important_contacts cfg (Body data)) = true)
  ∧ (∀ cfg kvs,
       (∀ l, Json.get kvs "contacts" (JList []) ≠ JList l) →
       nothing_important (fetch_important_contacts cfg (Body (JDict kvs)))
       = true).
Proof.
  split.
  { intros cfg backend resp now ds w Hnone.
    unfold process_unread_important_messages, backfill_history.
    by rewrite Hnone. }
  split.
  { intros cfg. unfold fetch_important_contacts.
    destruct (negb _); apply nothing_important_no_contacts. }
  split.
  { intros cfg data Hdata. unfold fetch_important_contacts.
    destruct (negb _); [apply nothing_important_no_contacts|].
    destruct data; try apply nothing_important_no_contacts.
    by destruct (Hdata kvs). }
  intros cfg kvs Hlist. unfold fetch_important_contacts.
  destruct (negb _); [apply nothing_important_no_contacts|].
  destruct (Json.get kvs "contacts" (JList [])) as [| | |[|]|l|[|]] eqn:Hget;
    try apply nothing_important_no_contacts.
  by destruct (Hlist l).
Qed.

(** Witness of C10: the request for the contact list fails, the document
    is [null], or its ["contacts"] is [null]. *)
Lemma no_contacts_short_circuits_pass_witness :
  let cfg := Scenario.watch_everything in
  (nothing_important (fetch_important_contacts cfg RequestRaises) = true
   ∧ process_unread_important_messages cfg Scenario.accepts_all RequestRaises
       [Scenario.three_unread] Scenario.fresh
     = (0, Scenario.fresh)
   ∧ backfill_history cfg Scenario.accepts_all RequestRaises Scenario.today
       [Scenario.three_unread] Scenario.fresh
     = (Some 0, Scenario.fresh))
  ∧ ((∀ kvs, JNull ≠ JDict kvs)
     ∧ nothing_important (fetch_important_contacts cfg (Body JNull)) = true)
  ∧ ((∀ l, Json.get [("contacts"%string, JNull)] "contacts" (JList [])
           ≠ JList l)
     ∧ nothing_important
         (fetch_important_contacts cfg
            (Body (JDict [("contacts"%string, JNull)]))) = true).
Proof.
  intros cfg.
  destruct no_contacts_short_circuits_pass
    as (Hstop & Hraises & Hdocument & Hcontacts).
  assert (∀ kvs, JNull ≠ JDict kvs) as Hnull by (intros kvs; discriminate).
  assert (∀ l, Json.get [("contacts"%string, JNull)] "contacts" (JList [])
               ≠ JList l) as Hnolist by (intros l; discriminate).
  split.
  - split; [exact (Hraises cfg)|].
    exact (Hstop cfg Scenario.accepts_all RequestRaises Scenario.today
             [Scenario.three_unread] Scenario.fresh (Hraises cfg)).
  - split; [split; [exact Hnull | exact (Hdocument cfg JNull Hnull)]|].
    split; [exact Hnolist | exact (Hcontacts cfg _ Hnolist)].
Defined.

(** ** Counting deliveries *)

Lemma accepted_cons e evs :
  accepted (e :: evs) = (if is_accepted e then 1 else 0) + accepted evs.
Proof.
  unfold accepted. destruct (is_accepted e) eqn:He.
  - rewrite filter_cons_True by done. simpl length. lia.
  - rewrite filter_cons_False by (by rewrite He). lia.
Qed.

Lemma accepted_app evs1 evs2 :
  accepted (evs1 ++ evs2) = accepted evs1 + accepted evs2.
Proof.
  unfold accepted. rewrite filter_app, length_app. lia.
Qed.

Lemma accepted_nonneg evs : 0 ≤ accepted evs.
Proof. unfold accepted. lia. Qed.

Lemma accepted_saved saved :
  Forall (λ e, is_saved e = true) saved → accepted saved = 0.
Proof.
  induction 1 as [|e saved He _ IH]; [done|].
  rewrite accepted_cons, IH. by destruct e.
Qed.

Lemma accepted_pos evs :
  0 < accepted evs ↔ ∃ k p, Sent k p true ∈ evs.
Proof.
  induction evs as [|e evs IH].
  - split; [done|]. by intros (k & p & ?%elem_of_nil).
  - rewrite accepted_cons. pose proof (accepted_nonneg evs). split.
    + destruct e as [k p [] | st]; simpl.
      * intros _. exists k, p. apply list_elem_of_here.
      * intros (k' & p' & Hin)%IH. exists k', p'.
        by apply list_elem_of_further.
      * intros (k' & p' & Hin)%IH. exists k', p'.
        by apply list_elem_of_further.
    + intros (k & p & [<- | Hin]%elem_of_cons); simpl; [lia|].
      assert (0 < accepted evs) by (apply IH; eauto).
      destruct (is_accepted e); lia.
Qed.

Section Accepted.

Variable cfg : Config.
Variable backend : list Event → Payload → bool.

(** The counter of a message loop grows by the number of accepted POSTs,
    and the watermark ends at or above the id of each of them. *)
Lemma attempts_accepted skip key pl ms lf n h lf' n' evs :
  (∀ m, p_message_id (pl m) = m_id m) →
  attempts cfg backend skip key pl ms lf n h lf' n' evs →
  n' = n + accepted evs
  ∧ ∀ p, Sent (Some key) p true ∈ evs → p_message_id p ≤ lf'.
Proof.
  intros Hid.
  induction 1 as [lf n h | m ms lf n h lf' n' evs Hs Hle _ IH
                 | m ms lf n h lf' n' evs Hgt Hok Hrun IH
                 | m ms lf n h lf' n' evs Hgt Hok _ IH].
  - split; [unfold accepted; simpl; lia|]. by intros p ?%elem_of_nil.
  - exact IH.
  - destruct IH as [Hn Hcover]. rewrite accepted_cons. simpl.
    split; [lia|]. intros p [Heq | Hin]%elem_of_cons; [|by apply Hcover].
    injection Heq as ->. rewrite with_account_id, Hid.
    apply (attempts_watermark cfg backend skip key pl Hid) in Hrun. lia.
  - destruct IH as [Hn Hcover]. rewrite accepted_cons. simpl.
    split; [lia|]. intros p [Heq | Hin]%elem_of_cons; [done|].
    by apply Hcover.
Qed.

Variable plan : Dialog → gmap string Z → option Plan.
Hypothesis plan_wf : plan_ok plan.

Lemma visited_accepted d st n h st' n' evs :
  visited cfg backend plan d st n h st' n' evs →
  n' = n + accepted evs
  ∧ ∀ k p, Sent (Some k) p true ∈ evs → p_message_id p ≤ state_get st' k.
Proof.
  intros Hv.
  pose proof (visited_events cfg backend plan plan_wf _ _ _ _ _ _ _ Hv) as Hev.
  unfold visited in Hv. destruct (plan d st) as [pl|] eqn:Hplan.
  - destruct Hv as (lf' & Hrun & ->).
    pose proof (attempts_watermark cfg backend _ _ _
                  (λ m, plan_ids _ plan_wf _ _ _ m Hplan) _ _ _ _ _ _ _ Hrun)
      as (Hle & _).
    apply attempts_accepted in Hrun as [Hn Hcover];
      [|intros m; by eapply (plan_ids _ plan_wf)].
    split; [done|]. intros k p Hin.
    rewrite Forall_forall in Hev.
    destruct (Hev _ Hin) as (? & m & ? & _ & Heq & _).
    injection Heq as -> _. specialize (Hcover p Hin).
    destruct (lf' >? state_get st (dialog_key d)) eqn:Hgt.
    + rewrite state_get_insert, decide_True by done. done.
    + rewrite Z.gtb_ltb in Hgt. apply Z.ltb_ge in Hgt. lia.
  - destruct Hv as (-> & -> & ->). split; [unfold accepted; simpl; lia|].
    by intros k p ?%elem_of_nil.
Qed.

Lemma visits_accepted ds st n h st' n' evs :
  visits cfg backend plan ds st n h st' n' evs →
  n' = n + accepted evs
  ∧ ∀ k p, Sent (Some k) p true ∈ evs → p_message_id p ≤ state_get st' k.
Proof.
  induction 1 as [st n h | d ds st n h st1 n1 evs1 st' n' evs Hd Hds IH].
  - split; [unfold accepted; simpl; lia|]. by intros k p ?%elem_of_nil.
  - apply visited_accepted in Hd as [Hn1 Hcover1].
    destruct IH as [Hn Hcover].
    apply (visits_state cfg backend plan plan_wf) in Hds
      as (_ & _ & Hmono & _).
    split; [rewrite accepted_app; lia|].
    intros k p [Hin | Hin]%elem_of_app; [|by apply Hcover].
    specialize (Hcover1 k p Hin). specialize (Hmono k). lia.
Qed.

(** The count a pass returns is the number of POSTs the backend accepted,
    and the stored watermark of a chat ends at or above the id of every
    accepted POST for it. *)
Lemma pass_accepted ds w n' w' :
  pass_outcome cfg backend plan ds w n' w' →
  n' = accepted (new_events w w')
  ∧ ∀ k p, Sent (Some k) p true ∈ new_events w w' →
           p_message_id p ≤ watermark w' k.
Proof.
  intros (st' & evs & saved & Hrun & Hst & -> & Hsaved)%pass_outcome_events.
  apply visits_accepted in Hrun as [Hn Hcover].
  split; [rewrite accepted_app, (accepted_saved _ Hsaved); lia|].
  intros k p Hin. rewrite Sent_in_events in Hin by done.
  unfold watermark. rewrite Hst. by apply Hcover.
Qed.

End Accepted.

(** ** Further properties of the passes *)

Lemma passes_count_accepted :
  ∀ cfg backend resp now ds w,
    (process_unread_important_messages cfg backend resp ds w).1
    = accepted
        (new_events w
           (process_unread_important_messages cfg backend resp ds w).2)
    ∧ let r := backfill_history cfg backend resp now ds w in
      if negb (nothing_important (fetch_important_contacts cfg resp))
         && cutoff_raises cfg now
      then r = (None, w)
      else r.1 = Some (accepted (new_events w r.2)).
Proof.
  intros cfg backend resp now ds w. split.
  - destruct (sweep_cases cfg backend resp ds w) as [-> | Hout].
    + cbn [fst snd]. by rewrite new_events_refl.
    + by destruct (pass_accepted cfg backend _ (sweep_plan_ok cfg _)
                     _ _ _ _ Hout).
  - pose proof (backfill_pass_outcome cfg backend resp now ds w) as H.
    cbn zeta in *.
    destruct (nothing_important _); cbn [negb andb].
    + rewrite H. cbn [fst snd]. by rewrite new_events_refl.
    + destruct (cutoff_raises cfg now); [done|].
      destruct H as (n' & -> & Hout).
      by destruct (pass_accepted cfg backend _ (backfill_plan_ok cfg _ _)
                     _ _ _ _ Hout) as [-> _].
Qed.

(** X1.  The number a cron sweep returns is the number of POSTs the
    backend accepted during the pass, and so is the number a backfill
    returns; the backfill returns unless it got contacts and cannot
    compute its cutoff, in which case it raises and leaves the world as it
    was. *)
Theorem pass_returns_accepted_count :
  ∀ cfg backend resp now ds w,
    (process_unread_important_messages cfg backend resp ds w).1
    = accepted
        (new_events w
           (process_unread_important_messages cfg backend resp ds w).2)
    ∧ let r := backfill_history cfg backend resp now ds w in
      if negb (nothing_important (fetch_important_contacts cfg resp))
         && cutoff_raises cfg now
      then r = (None, w)
      else r.1 = Some (accepted (new_events w r.2)).
Proof. exact passes_count_accepted. Qed.

Lemma run_pass_covers cfg backend pass w k p :
  Sent (Some k) p true ∈ new_events w (run_pass cfg backend pass w) →
  p_message_id p ≤ watermark (run_pass cfg backend pass w) k.
Proof.
  destruct (run_pass_cases cfg backend pass w)
    as [-> | (plan & ds & n' & Hok & Hout)].
  - rewrite new_events_refl. by intros ?%elem_of_nil.
  - intros Hin.
    by destruct (pass_accepted cfg backend plan Hok _ _ _ _ Hout)
      as [_ Hcover]; apply Hcover.
Qed.

Lemma run_pass_above cfg backend pass w k q ok :
  Sent (Some k) q ok ∈ new_events w (run_pass cfg backend pass w) →
  watermark w k < p_message_id q.
Proof.
  destruct (run_pass_cases cfg backend pass w)
    as [-> | (plan & ds & n' & Hok & Hout)].
  - rewrite new_events_refl. by intros ?%elem_of_nil.
  - intros Hin.
    exact (pass_above_watermark cfg backend plan Hok _ _ _ _ _ _ _ Hout Hin).
Qed.

Lemma run_passes_watermark cfg backend ps : ∀ w k,
  watermark w k ≤ watermark (run_passes cfg backend ps w) k.
Proof.
  induction ps as [|p ps IH]; intros w k; cbn [run_passes foldl]; [lia|].
  etrans; [apply (run_pass_watermark cfg backend p w k)|]. apply IH.
Qed.

(** X2.  Once the backend has accepted a message of a chat in a pass, the
    stored watermark of the chat is at or above its id, and no later pass
    of either kind, whatever passes ran in between and whatever dialogs
    they are given, attempts that id or a smaller one for the chat. *)
Theorem accepted_delivery_is_never_attempted_again :
  ∀ cfg backend pass between next w k p q ok,
    let w1 := run_pass cfg backend pass w in
    let w2 := run_passes cfg backend between w1 in
    Sent (Some k) p true ∈ new_events w w1 →
    Sent (Some k) q ok ∈ new_events w2 (run_pass cfg backend next w2) →
    p_message_id p ≤ watermark w1 k
    ∧ p_message_id p < p_message_id q.
Proof.
  intros cfg backend pass between next w k p q ok w1 w2 Hp Hq.
  pose proof (run_pass_covers _ _ _ _ _ _ Hp) as Hcover.
  split; [exact Hcover|].
  apply run_pass_above in Hq.
  pose proof (run_passes_watermark cfg backend between w1 k). subst w1 w2.
  lia.
Qed.

(** ** Where the POSTs of a pass come from *)

Section Provenance.

Variable cfg : Config.
Variable backend : list Event → Payload → bool.
Variable plan : Dialog → gmap string Z → option Plan.
Hypothesis plan_wf : plan_ok plan.

Lemma pass_provenance ds w n' w' k p ok :
  pass_outcome cfg backend plan ds w n' w' →
  Sent k p ok ∈ new_events w w' →
  ∃ d sd pl m,
    d ∈ ds ∧ plan d sd = Some pl ∧ k = Some (dialog_key d)
    ∧ p = with_account cfg (plan_payload pl m)
    ∧ m ∈ plan_candidates pl.
Proof.
  intros (st' & evs & saved & Hrun & _ & -> & Hsaved)%pass_outcome_events.
  rewrite Sent_in_events by done. intros Hin.
  apply (visits_events cfg backend plan plan_wf) in Hrun.
  rewrite Forall_forall in Hrun.
  destruct (Hrun _ Hin) as (d & sd & pl & m & ok' & Hd & Hplan & Heq & Hm & _).
  injection Heq as -> -> _. by exists d, sd, pl, m.
Qed.

Lemma pass_reach ds w n' w' d sd pl m :
  pass_outcome cfg backend plan ds w n' w' →
  NoDup (map dialog_key ds) →
  d ∈ ds → newest_first d →
  plan d sd = Some pl → m ∈ plan_candidates pl →
  watermark w (dialog_key d) < m_id m →
  ∃ ok, Sent (Some (dialog_key d))
          (with_account cfg (plan_payload pl m)) ok ∈ new_events w w'.
Proof.
  intros (st' & evs & saved & Hrun & _ & -> & Hsaved)%pass_outcome_events
    Hnd Hd Hnf Hplan Hm Hlt.
  destruct (visits_reach cfg backend plan plan_wf _ _ _ _ _ _ _ d sd pl m
              Hrun Hnd Hd Hnf Hplan Hm Hlt) as [ok Hok].
  exists ok. by rewrite Sent_in_events.
Qed.

End Provenance.

Lemma sweep_plan_Some cfg imp d sd pl :
  sweep_plan cfg imp d sd = Some pl →
  sweep_eligible cfg imp d = true
  ∧ pl = {| plan_skip := true;
            plan_payload := cron_payload d;
            plan_candidates :=
              rev (get_messages d (Z.max (d_unread_count d) 1)) |}.
Proof.
  unfold sweep_plan. destruct (sweep_eligible cfg imp d); [|done].
  by intros [= <-].
Qed.

Lemma backfill_plan_Some cfg imp now d sd pl :
  backfill_plan cfg imp now d sd = Some pl →
  backfill_eligible cfg imp d = true
  ∧ pl = {| plan_skip := false;
            plan_payload := backfill_payload d;
            plan_candidates :=
              rev (collect_messages (backfill_cutoff cfg now)
                     (state_get sd (dialog_key d))
                     (iter_messages d (backfill_limit cfg))) |}.
Proof.
  unfold backfill_plan. destruct (backfill_eligible cfg imp d); [|done].
  by intros [= <-].
Qed.

Lemma sweep_provenance :
  ∀ cfg backend resp ds w k p ok,
    Sent k p ok
      ∈ new_events w
          (process_unread_important_messages cfg backend resp ds w).2 →
    ∃ d m,
      d ∈ ds ∧ k = Some (dialog_key d)
      ∧ 0 < d_unread_count d
      ∧ passes_skeleton cfg (fetch_important_contacts cfg resp)
          (Some (d_entity d)) = true
      ∧ m ∈ get_messages d (Z.max (d_unread_count d) 1)
      ∧ p = with_account cfg (cron_payload d m).
Proof.
  intros cfg backend resp ds w k p ok Hin.
  destruct (sweep_cases cfg backend resp ds w) as [Heq | Hout].
  { rewrite Heq in Hin. cbn [snd] in Hin. rewrite new_events_refl in Hin.
    by apply elem_of_nil in Hin. }
  destruct (pass_provenance cfg backend _ (sweep_plan_ok cfg _)
              _ _ _ _ _ _ _ Hout Hin)
    as (d & sd & pl & m & Hd & Hplan & -> & -> & Hm).
  apply sweep_plan_Some in Hplan as [Helig ->].
  cbn [plan_candidates plan_payload] in *. rewrite elem_of_rev in Hm.
  unfold sweep_eligible in Helig.
  apply andb_true_iff in Helig as [Hunread Hskel].
  exists d, m. split; [done|]. split; [done|].
  split; [apply negb_true_iff, Z.leb_gt in Hunread; lia|]. done.
Qed.

(** X3.  Every POST of a cron sweep is the cron payload of one of the
    [max(unread_count, 1)] most recent messages of a listed dialog that
    has unread messages and whose chat is not ignored, matches an
    important contact and is in the watch scope. *)
Theorem sweep_posts_only_for_unread_chats_passing_the_filters :
  ∀ cfg backend resp ds w k p ok,
    Sent k p ok
      ∈ new_events w
          (process_unread_important_messages cfg backend resp ds w).2 →
    ∃ d m,
      d ∈ ds ∧ k = Some (dialog_key d)
      ∧ 0 < d_unread_count d
      ∧ passes_skeleton cfg (fetch_important_contacts cfg resp)
          (Some (d_entity d)) = true
      ∧ m ∈ get_messages d (Z.max (d_unread_count d) 1)
      ∧ p = with_account cfg (cron_payload d m).
Proof. exact sweep_provenance. Qed.

Lemma backfill_provenance :
  ∀ cfg backend resp now ds w k p ok,
    Sent k p ok
      ∈ new_events w (backfill_history cfg backend resp now ds w).2 →
    ∃ d m,
      d ∈ ds ∧ k = Some (dialog_key d)
      ∧ is_ignored cfg (Some (entity_id (d_entity d))) = false
      ∧ matches_contact
          (important_ids (fetch_important_contacts cfg resp))
          (important_usernames (fetch_important_contacts cfg resp))
          (Some (entity_id (d_entity d)))
          (getattr_username (Some (d_entity d))) = true
      ∧ m ∈ iter_messages d (backfill_limit cfg)
      ∧ before_cutoff (backfill_cutoff cfg now) m = false
      ∧ p = with_account cfg (backfill_payload d m).
Proof.
  intros cfg backend resp now ds w k p ok Hin.
  destruct (backfill_cases cfg backend resp now ds w)
    as [Heq | (n' & _ & Hout)].
  { rewrite Heq, new_events_refl in Hin. by apply elem_of_nil in Hin. }
  destruct (pass_provenance cfg backend _ (backfill_plan_ok cfg _ _)
              _ _ _ _ _ _ _ Hout Hin)
    as (d & sd & pl & m & Hd & Hplan & -> & -> & Hm).
  apply backfill_plan_Some in Hplan as [Helig ->].
  cbn [plan_candidates plan_payload] in *. rewrite elem_of_rev in Hm.
  unfold backfill_eligible in Helig.
  apply andb_true_iff in Helig as [Hign%negb_true_iff Hmatch].
  exists d, m. split; [done|]. split; [done|]. split; [exact Hign|].
  split; [exact Hmatch|].
  split; [eapply elem_of_sublist; [exact Hm | apply collect_messages_sublist]|].
  split; [by apply collect_messages_above in Hm as [_ ?] | done].
Qed.

(** X4.  Every POST of a backfill is the backfill payload of a message
    that is among the first [BACKFILL_MESSAGE_LIMIT] of its chat (all of
    them when the limit is not positive), is not dated before the cutoff,
    and belongs to a listed dialog whose chat is not ignored and matches
    an important contact. *)
Theorem backfill_posts_only_for_important_chats_within_bounds :
  ∀ cfg backend resp now ds w k p ok,
    Sent k p ok
      ∈ new_events w (backfill_history cfg backend resp now ds w).2 →
    ∃ d m,
      d ∈ ds ∧ k = Some (dialog_key d)
      ∧ is_ignored cfg (Some (entity_id (d_entity d))) = false
      ∧ matches_contact
          (important_ids (fetch_important_contacts cfg resp))
          (important_usernames (fetch_important_contacts cfg resp))
          (Some (entity_id (d_entity d)))
          (getattr_username (Some (d_entity d))) = true
      ∧ m ∈ iter_messages d (backfill_limit cfg)
      ∧ before_cutoff (backfill_cutoff cfg now) m = false
      ∧ p = with_account cfg (backfill_payload d m).
Proof. exact backfill_provenance. Qed.

Lemma matches_contact_something ids usernames chat_id username :
  matches_contact ids usernames chat_id username = true →
  nothing_important {| important_ids := ids;
                       important_usernames := usernames;
                       fetch_raised := false |} = false.
Proof.
  unfold matches_contact, nothing_important.
  cbn [important_ids important_usernames].
  destruct chat_id as [i|].
  - destruct (bool_decide (i ∈ ids)) eqn:Hi.
    + intros _. apply bool_decide_eq_true in Hi.
      rewrite bool_decide_eq_false_2; [done | set_solver].
    + destruct (Py.truthy_opt username); [|done]. cbn [andb].
      destruct (bool_decide (_ ∈ usernames)) eqn:Hu; [|done]. intros _.
      apply bool_decide_eq_true in Hu.
      rewrite (bool_decide_eq_false_2 (usernames = ∅)) by set_solver.
      by rewrite andb_false_r.
  - destruct (Py.truthy_opt username); [|done]. cbn [andb].
    destruct (bool_decide (_ ∈ usernames)) eqn:Hu; [|done]. intros _.
    apply bool_decide_eq_true in Hu.
    rewrite (bool_decide_eq_false_2 (usernames = ∅)) by set_solver.
    by rewrite andb_false_r.
Qed.

Lemma nothing_important_sets imp :
  nothing_important imp
  = nothing_important {| important_ids := important_ids imp;
                         important_usernames := important_usernames imp;
                         fetch_raised := false |}.
Proof. done. Qed.

Lemma eligible_something cfg imp d :
  backfill_eligible cfg imp d = true → nothing_important imp = false.
Proof.
  unfold backfill_eligible. intros [_ Hmatch]%andb_true_iff.
  rewrite nothing_important_sets. by eapply matches_contact_something.
Qed.

Lemma sweep_eligible_backfill cfg imp d :
  sweep_eligible cfg imp d = true → backfill_eligible cfg imp d = true.
Proof.
  unfold sweep_eligible, passes_skeleton, backfill_eligible.
  intros [_ [Hskel _]%andb_true_iff]%andb_true_iff. exact Hskel.
Qed.

(** The cron sweep reaches every message above the stored watermark among
    those it fetches for a chat it reconciles. *)
Lemma sweep_reaches cfg backend resp ds w d m :
  NoDup (map dialog_key ds) →
  d ∈ ds → newest_first d →
  sweep_eligible cfg (fetch_important_contacts cfg resp) d = true →
  m ∈ get_messages d (Z.max (d_unread_count d) 1) →
  watermark w (dialog_key d) < m_id m →
  ∃ ok,
    Sent (Some (dialog_key d)) (with_account cfg (cron_payload d m)) ok
      ∈ new_events w
          (process_unread_important_messages cfg backend resp ds w).2.
Proof.
  intros Hnd Hd Hnf Helig Hm Hlt.
  pose proof (cron_pass_outcome cfg backend resp ds w) as Hout.
  cbn zeta in Hout.
  rewrite (eligible_something _ _ _ (sweep_eligible_backfill _ _ _ Helig))
    in Hout.
  apply (pass_reach cfg backend _ (sweep_plan_ok cfg _) _ _ _ _ d ∅
           {| plan_skip := true;
              plan_payload := cron_payload d;
              plan_candidates :=
                rev (get_messages d (Z.max (d_unread_count d) 1)) |}
           m Hout Hnd Hd Hnf).
  - unfold sweep_plan. by rewrite Helig.
  - by apply elem_of_rev.
  - done.
Qed.

(** The backfill, when it can compute its cutoff, reaches every message
    its walk collects. *)
Lemma backfill_reaches cfg backend resp now ds w d m :
  NoDup (map dialog_key ds) →
  d ∈ ds → newest_first d →
  backfill_eligible cfg (fetch_important_contacts cfg resp) d = true →
  cutoff_raises cfg now = false →
  m ∈ collect_messages (backfill_cutoff cfg now)
        (watermark w (dialog_key d))
        (iter_messages d (backfill_limit cfg)) →
  ∃ ok,
    Sent (Some (dialog_key d)) (with_account cfg (backfill_payload d m)) ok
      ∈ new_events w (backfill_history cfg backend resp now ds w).2.
Proof.
  intros Hnd Hd Hnf Helig Hcut Hm.
  pose proof (backfill_pass_outcome cfg backend resp now ds w) as Hout.
  cbn zeta in Hout.
  rewrite (eligible_something _ _ _ Helig), Hcut in Hout.
  destruct Hout as (n' & _ & Hout).
  apply (pass_reach cfg backend _ (backfill_plan_ok cfg _ _) _ _ _ _ d
           (default ∅ (disk w))
           {| plan_skip := false;
              plan_payload := backfill_payload d;
              plan_candidates :=
                rev (collect_messages (backfill_cutoff cfg now)
                       (watermark w (dialog_key d))
                       (iter_messages d (backfill_limit cfg))) |}
           m Hout Hnd Hd Hnf).
  - unfold backfill_plan. by rewrite Helig.
  - by apply elem_of_rev.
  - by apply collect_messages_above in Hm as [? _].
Qed.

(** X5.  When every chat is listed once and histories are newest first:
    the cron sweep attempts every message above the stored watermark among
    the [max(unread_count, 1)] most recent of each chat it reconciles, and
    the backfill, when the cutoff of line 365 can be computed, attempts
    every message its walk collects, whatever the backend answered for the
    messages before it. *)
Theorem every_new_message_is_attempted :
  (∀ cfg backend resp ds w d m,
     NoDup (map dialog_key ds) →
     d ∈ ds → newest_first d →
     sweep_eligible cfg (fetch_important_contacts cfg resp) d = true →
     m ∈ get_messages d (Z.max (d_unread_count d) 1) →
     watermark w (dialog_key d) < m_id m →
     ∃ ok,
       Sent (Some (dialog_key d)) (with_account cfg (cron_payload d m)) ok
         ∈ new_events w
             (process_unread_important_messages cfg backend resp ds w).2)
  ∧ (∀ cfg backend resp now ds w d m,
       NoDup (map dialog_key ds) →
       d ∈ ds → newest_first d →
       backfill_eligible cfg (fetch_important_contacts cfg resp) d = true →
       cutoff_raises cfg now = false →
       m ∈ collect_messages (backfill_cutoff cfg now)
             (watermark w (dialog_key d))
             (iter_messages d (backfill_limit cfg)) →
       ∃ ok,
         Sent (Some (dialog_key d))
           (with_account cfg (backfill_payload d m)) ok
           ∈ new_events w (backfill_history cfg backend resp now ds w).2).
Proof.
  split.
  - intros cfg backend resp ds w d m. apply sweep_reaches.
  - intros cfg backend resp now ds w d m. apply backfill_reaches.
Qed.

(** ** Writes of the state file *)

Section Writes.

Variable cfg : Config.
Variable backend : list Event → Payload → bool.

Lemma visits_only_send plan ds st n h st' n' evs :
  plan_ok plan →
  visits cfg backend plan ds st n h st' n' evs →
  Forall (λ e, is_sent e = true) evs.
Proof.
  intros Hok Hrun. apply (visits_events cfg backend plan Hok) in Hrun.
  eapply Forall_impl; [exact Hrun|].
  by intros e (d & sd & pl & m & ok & _ & _ & -> & _).
Qed.

(** The two counters of the backfill move together: a visit raises
    [updated_keys] exactly when it raises [total_forwarded]. *)
Lemma backfill_dialog_counters imp now d s w :
  let s' := (backfill_dialog cfg backend imp now d s w).1 in
  total_forwarded s ≤ total_forwarded s'
  ∧ updated_keys s ≤ updated_keys s'
  ∧ (updated_keys s < updated_keys s'
     ↔ total_forwarded s < total_forwarded s').
Proof.
  destruct s as [st n u]. unfold backfill_dialog.
  cbn [bf_state total_forwarded updated_keys].
  destruct (is_ignored cfg _); [cbn; lia|].
  destruct (negb (matches_contact _ _ _ _)); [cbn; lia|].
  fold (dialog_key d).
  destruct (collect_messages _ _ _) as [|m0 ms] eqn:Hcollect; [cbn; lia|].
  unfold bind.
  rewrite (for_each_ext _ _ _ (backfill_message_attempt cfg backend d)).
  destruct (attempt_loop_run cfg backend false (dialog_key d)
              (backfill_payload d) (rev (m0 :: ms))
              (state_get st (dialog_key d)) n w)
    as (lf' & n' & evs & -> & Hrun).
  pose proof (attempts_watermark cfg backend false (dialog_key d)
                (backfill_payload d) (λ _, eq_refl)
                _ _ _ _ _ _ _ Hrun) as (Hlf & Hn & Hsame & _).
  pose proof (attempts_accepted cfg backend false (dialog_key d)
                (backfill_payload d) _ _ _ _ _ _ _
                (λ _, eq_refl) Hrun) as [Hcount Hcover].
  pose proof (attempts_events cfg backend false _ _ _ _ _ _ _ _ _ Hrun)
    as Hev.
  destruct (lf' >? state_get st (dialog_key d)) eqn:Hgt;
    unfold ret; cbn [fst total_forwarded updated_keys].
  - apply Z.gtb_gt in Hgt. split; [lia|]. split; [lia|].
    split; [|lia]. intros _.
    destruct (decide (n' = n)) as [Heq | Hne]; [|lia].
    specialize (Hsame Heq). lia.
  - rewrite Z.gtb_ltb in Hgt. apply Z.ltb_ge in Hgt.
    split; [lia|]. split; [lia|]. split; [lia|]. intros Hmore.
    assert (0 < accepted evs) as (k & p & Hin)%accepted_pos by lia.
    rewrite Forall_forall in Hev.
    destruct (Hev _ Hin) as (m & ok & Heq & Hm & _).
    injection Heq as -> -> _.
    specialize (Hcover _ Hin). rewrite with_account_id in Hcover.
    rewrite elem_of_rev, <- Hcollect in Hm.
    apply collect_messages_above in Hm as [Habove _].
    cbn [backfill_payload p_message_id] in Hcover. lia.
Qed.

Lemma backfill_loop_counters imp now ds : ∀ s w,
  let s' := (for_each (backfill_dialog cfg backend imp now) ds s w).1 in
  total_forwarded s ≤ total_forwarded s'
  ∧ updated_keys s ≤ updated_keys s'
  ∧ (updated_keys s < updated_keys s'
     ↔ total_forwarded s < total_forwarded s').
Proof.
  induction ds as [|d ds IH]; intros s w; cbn [for_each]; [cbn; lia|].
  unfold bind.
  pose proof (backfill_dialog_counters imp now d s w) as Hd.
  destruct (backfill_dialog cfg backend imp now d s w) as [s1 w1].
  specialize (IH s1 w1). cbn zeta in *. cbn [fst] in Hd. lia.
Qed.

(** A sweep that gets past the contact list writes the state file after
    its last POST when its count is positive, and not at all otherwise. *)
Lemma sweep_trace resp ds w :
  ∃ st' sends,
    Forall (λ e, is_sent e = true) sends
    ∧ let n' := (process_unread_important_messages cfg backend resp ds w).1 in
      (process_unread_important_messages cfg backend resp ds w).2
      = if n' >? 0
        then {| disk := Some st'; trace := trace w ++ sends ++ [Saved st'] |}
        else {| disk := disk w; trace := trace w ++ sends |}.
Proof.
  unfold process_unread_important_messages.
  destruct (nothing_important _).
  { exists ∅, []. split; [done|]. cbn. by rewrite world_eta. }
  unfold bind, load_state.
  rewrite (for_each_ext _ _ _
             (cron_dialog_visit cfg backend
                (fetch_important_contacts cfg resp))).
  destruct (visits_run cfg backend
              (sweep_plan cfg (fetch_important_contacts cfg resp)) ds
              (default ∅ (disk w)) 0 w) as (st' & n' & evs & -> & Hrun).
  exists st', evs.
  split; [by eapply visits_only_send; [apply sweep_plan_ok|]|].
  destruct (n' >? 0) eqn:Hn; unfold save_state, ret; cbn [fst snd disk trace];
    rewrite Hn; [by rewrite app_assoc | done].
Qed.

Lemma backfill_trace resp now ds w :
  ∃ st' sends,
    Forall (λ e, is_sent e = true) sends
    ∧ let n' := default 0 (backfill_history cfg backend resp now ds w).1 in
      (backfill_history cfg backend resp now ds w).2
      = if n' >? 0
        then {| disk := Some st'; trace := trace w ++ sends ++ [Saved st'] |}
        else {| disk := disk w; trace := trace w ++ sends |}.
Proof.
  unfold backfill_history.
  destruct (nothing_important _).
  { exists ∅, []. split; [done|]. cbn. by rewrite world_eta. }
  unfold bind, load_state. cbn [fst snd].
  destruct (cutoff_raises cfg now).
  { exists ∅, []. split; [done|]. cbn. by rewrite world_eta. }
  pose proof (backfill_loop_counters (fetch_important_contacts cfg resp)
                now ds
                {| bf_state := default ∅ (disk w); total_forwarded := 0;
                   updated_keys := 0 |} w) as Hcount.
  destruct (backfill_loop_visits cfg backend
              (fetch_important_contacts cfg resp) now ds
              {| bf_state := default ∅ (disk w); total_forwarded := 0;
                 updated_keys := 0 |} w)
    as (st' & n' & u' & evs & Heq & Hrun & _).
  rewrite Heq in *. cbn zeta in Hcount.
  cbn [fst bf_state total_forwarded updated_keys] in *.
  exists st', evs.
  split; [by eapply visits_only_send; [apply backfill_plan_ok|]|].
  assert ((u' >? 0) = (n' >? 0)) as Hsame.
  { rewrite !Z.gtb_ltb. destruct (0 <? n') eqn:Hn.
    - apply Z.ltb_lt in Hn. apply Z.ltb_lt. lia.
    - apply Z.ltb_ge in Hn. apply Z.ltb_ge. lia. }
  destruct (u' >? 0) eqn:Hu; unfold save_state, ret;
    cbn [fst snd disk trace bf_state total_forwarded default from_option id];
    rewrite <- Hsame; [by rewrite app_assoc | done].
Qed.

End Writes.

Lemma writes_sends sends :
  Forall (λ e, is_sent e = true) sends → writes sends = 0%nat.
Proof.
  induction 1 as [|e sends He _ IH]; [done|].
  unfold writes in *. rewrite filter_cons_False; [done|].
  unfold is_saved. by rewrite He.
Qed.

Lemma pass_writes_once (n' : Z) (w w' : World) st' sends :
  Forall (λ e, is_sent e = true) sends →
  w' = (if n' >? 0
        then {| disk := Some st'; trace := trace w ++ sends ++ [Saved st'] |}
        else {| disk := disk w; trace := trace w ++ sends |}) →
  (0 < n' →
   writes (new_events w w') = 1%nat
   ∧ last (new_events w w') = Some (Saved (default ∅ (disk w')))
   ∧ disk w' = Some (default ∅ (disk w')))
  ∧ (n' ≤ 0 → writes (new_events w w') = 0%nat ∧ disk w' = disk w).
Proof.
  intros Hsends ->. split; intros Hn.
  - assert ((n' >? 0) = true) as -> by (apply Z.gtb_gt; lia).
    rewrite (new_events_app w _ (sends ++ [Saved st'])) by done.
    cbn [disk default]. split; [|split; [apply last_snoc | done]].
    unfold writes. rewrite filter_app, length_app.
    fold (writes sends). by rewrite writes_sends.
  - assert ((n' >? 0) = false) as ->
      by (rewrite Z.gtb_ltb; apply Z.ltb_ge; lia).
    rewrite (new_events_app w _ sends) by done.
    split; [by apply writes_sends | done].
Qed.

(** X6.  A cron sweep or a backfill writes the state file at most once:
    when the backend accepted at least one POST it writes the final state
    once, as its last effect, after every POST; when none was accepted the
    file is not written and keeps its content. *)
Theorem state_file_written_once_after_accepted_delivery :
  ∀ cfg backend resp now ds w,
    (let r := process_unread_important_messages cfg backend resp ds w in
     (0 < accepted (new_events w r.2) →
      writes (new_events w r.2) = 1%nat
      ∧ last (new_events w r.2) = Some (Saved (default ∅ (disk r.2)))
      ∧ disk r.2 = Some (default ∅ (disk r.2)))
     ∧ (accepted (new_events w r.2) ≤ 0 →
        writes (new_events w r.2) = 0%nat ∧ disk r.2 = disk w))
    ∧ (let r := backfill_history cfg backend resp now ds w in
       (0 < accepted (new_events w r.2) →
        writes (new_events w r.2) = 1%nat
        ∧ last (new_events w r.2) = Some (Saved (default ∅ (disk r.2)))
        ∧ disk r.2 = Some (default ∅ (disk r.2)))
       ∧ (accepted (new_events w r.2) ≤ 0 →
          writes (new_events w r.2) = 0%nat ∧ disk r.2 = disk w)).
Proof.
  intros cfg backend resp now ds w.
  destruct (passes_count_accepted cfg backend resp now ds w)
    as [Hsweep Hbackfill].
  split; cbn zeta.
  - rewrite <- Hsweep.
    destruct (sweep_trace cfg backend resp ds w) as (st' & sends & Hs & Heq).
    by eapply pass_writes_once.
  - assert (accepted
              (new_events w (backfill_history cfg backend resp now ds w).2)
            = default 0 (backfill_history cfg backend resp now ds w).1)
      as ->.
    { cbn zeta in Hbackfill.
      destruct (negb _ && cutoff_raises cfg now).
      - rewrite Hbackfill. cbn [fst snd default from_option id].
        by rewrite new_events_refl.
      - by rewrite Hbackfill. }
    destruct (backfill_trace cfg backend resp now ds w)
      as (st' & sends & Hs & Heq).
    by eapply pass_writes_once.
Qed.

(** ** The cron run *)

Lemma run_pass_extends cfg backend pass w :
  trace (run_pass cfg backend pass w)
  = trace w ++ new_events w (run_pass cfg backend pass w).
Proof.
  destruct (run_pass_cases cfg backend pass w)
    as [-> | (plan & ds & n' & _ & st' & evs & _ & _ & Htrace)].
  - by rewrite new_events_refl, app_nil_r.
  - destruct Htrace as [[_ Htr] | [_ Htr]];
      by rewrite (new_events_app _ _ _ Htr).
Qed.

Lemma new_events_trans w w1 w2 evs1 evs2 :
  trace w1 = trace w ++ evs1 → trace w2 = trace w1 ++ evs2 →
  new_events w w2 = evs1 ++ evs2.
Proof.
  intros H1 H2. apply new_events_app. by rewrite H2, H1, app_assoc.
Qed.

Lemma backfill_extends cfg backend resp now ds w :
  trace (backfill_history cfg backend resp now ds w).2
  = trace w ++ new_events w (backfill_history cfg backend resp now ds w).2.
Proof. exact (run_pass_extends cfg backend (BackfillPass resp now ds) w). Qed.

Lemma sweep_extends cfg backend resp ds w :
  trace (process_unread_important_messages cfg backend resp ds w).2
  = trace w
    ++ new_events w (process_unread_important_messages cfg backend resp ds w).2.
Proof. exact (run_pass_extends cfg backend (SweepPass resp ds) w). Qed.

Lemma main_cron_unfold cfg backend backfill on_start b_resp now b_ds
    s_resp s_ds w :
  main_cron cfg backend true backfill on_start b_resp now b_ds s_resp s_ds w
  = (0, (process_unread_important_messages cfg backend s_resp s_ds
           (if backfill || on_start
            then (backfill_history cfg backend b_resp now b_ds w).2
            else w)).2).
Proof.
  unfold main_cron. cbn [negb]. unfold bind, ret.
  destruct (backfill || on_start).
  - destruct (backfill_history cfg backend b_resp now b_ds w) as [[n1|] w1];
      cbn [fst snd];
      by destruct (process_unread_important_messages cfg backend s_resp s_ds
                     w1).
  - by destruct (process_unread_important_messages cfg backend s_resp s_ds w).
Qed.



(** ** Filters and account fields on every POST *)

Lemma handler_effects cfg backend event w :
  let r := handler cfg backend event w in
  r.2 = w
  ∨ ∃ ok,
      r = (Forwarded ok,
           {| disk := disk w;
              trace := trace w
                       ++ [Sent None (with_account cfg (live_payload event))
                             ok] |})
      ∧ is_ignored cfg (getattr_id (ev_chat event)) = false
      ∧ should_forward cfg (ev_chat event) = true.
Proof.
  unfold handler. destruct (own_private_message event) as [[]|]; [by left| |by left].
  destruct (is_ignored cfg _); [by left|].
  destruct (should_forward cfg _); [|by left]. cbn [negb].
  destruct (negb (Py.truthy _) && negb (ev_media event)); [by left|].
  right. unfold bind, send_to_backend, ret. by eexists.
Qed.

Lemma handler_events cfg backend event w k p ok :
  Sent k p ok ∈ new_events w (handler cfg backend event w).2 →
  k = None ∧ p = with_account cfg (live_payload event)
  ∧ is_ignored cfg (getattr_id (ev_chat event)) = false
  ∧ should_forward cfg (ev_chat event) = true.
Proof.
  destruct (handler_effects cfg backend event w)
    as [-> | (ok' & -> & Hign & Hscope)].
  - rewrite new_events_refl. by intros ?%elem_of_nil.
  - cbn [snd]. rewrite (new_events_app w _ [Sent None _ ok']) by done.
    intros [= -> -> _]%list_elem_of_singleton. done.
Qed.

Lemma not_ignored cfg i :
  is_ignored cfg (Some i) = false → i ∉ IGNORE_CHAT_IDS cfg.
Proof. cbn. by intros ?%bool_decide_eq_false. Qed.

(** X8.  A chat whose id is in [IGNORE_CHAT_IDS] is never posted about: no
    POST of a cron sweep, of a backfill or of the live handler carries the
    id of an ignored chat, whether or not the chat is important or in the
    watch scope. *)
Theorem ignored_chat_is_never_posted :
  ∀ cfg backend resp now ds event w k p ok i,
    Sent k p ok
      ∈ new_events w
          (process_unread_important_messages cfg backend resp ds w).2
    ∨ Sent k p ok
        ∈ new_events w (backfill_history cfg backend resp now ds w).2
    ∨ Sent k p ok ∈ new_events w (handler cfg backend event w).2 →
    p_chat_id p = Some i →
    i ∉ IGNORE_CHAT_IDS cfg.
Proof.
  intros cfg backend resp now ds event w k p ok i [Hin | [Hin | Hin]] Hid.
  - apply sweep_provenance in Hin
      as (d & m & _ & _ & _ & Hskel & _ & ->).
    cbn in Hid. injection Hid as <-.
    unfold passes_skeleton in Hskel.
    apply andb_true_iff in Hskel as [Hskel _].
    apply andb_true_iff in Hskel as [Hign%negb_true_iff _].
    by apply not_ignored.
  - apply backfill_provenance in Hin
      as (d & m & _ & _ & Hign & _ & _ & _ & ->).
    cbn in Hid. injection Hid as <-. by apply not_ignored.
  - apply handler_events in Hin as (_ & -> & Hign & _).
    cbn [with_account live_payload p_chat_id] in Hid.
    rewrite Hid in Hign. by apply not_ignored.
Qed.

(** X9.  Every POST, in all three modes, carries the configured account:
    [account_id] is [ACCOUNT_ID_NUM], and [account_key] is
    [BACKEND_ACCOUNT_KEY] when that is a non-empty string and absent
    otherwise. *)
Theorem every_post_carries_the_account :
  ∀ cfg backend resp now ds event w k p ok,
    Sent k p ok
      ∈ new_events w
          (process_unread_important_messages cfg backend resp ds w).2
    ∨ Sent k p ok
        ∈ new_events w (backfill_history cfg backend resp now ds w).2
    ∨ Sent k p ok ∈ new_events w (handler cfg backend event w).2 →
    p_account_id p = ACCOUNT_ID_NUM cfg
    ∧ p_account_key p
      = if Py.truthy_opt (BACKEND_ACCOUNT_KEY cfg)
        then BACKEND_ACCOUNT_KEY cfg else None.
Proof.
  intros cfg backend resp now ds event w k p ok Hin.
  assert (∃ p0, p = with_account cfg p0
                ∧ p_account_id p0 = None ∧ p_account_key p0 = None)
    as (p0 & -> & Hid & Hkey).
  { destruct Hin as [Hin | [Hin | Hin]].
    - apply sweep_provenance in Hin as (d & m & _ & _ & _ & _ & _ & ->).
      by eexists.
    - apply backfill_provenance in Hin
        as (d & m & _ & _ & _ & _ & _ & _ & ->).
      by eexists.
    - apply handler_events in Hin as (_ & -> & _). by eexists. }
  cbn [with_account p_account_id p_account_key]. rewrite Hid, Hkey.
  split; [by destruct (ACCOUNT_ID_NUM cfg) | done].
Qed.

(** X10.  The live handler never writes the state file: an event leaves
    the file as it is and adds at most one POST to the trace, the live
    payload of the event, whose text is the raw text of the event as it
    came. *)
Theorem live_handler_leaves_state_file_alone :
  ∀ cfg backend event w,
    let r := handler cfg backend event w in
    disk r.2 = disk w
    ∧ writes (new_events w r.2) = 0%nat
    ∧ (new_events w r.2 = []
       ∨ ∃ ok p,
           new_events w r.2 = [Sent None p ok]
           ∧ r.1 = Forwarded ok
           ∧ p = with_account cfg (live_payload event)
           ∧ p_message p = default EmptyString (ev_raw_text event)).
Proof.
  intros cfg backend event w r. subst r.
  destruct (handler_effects cfg backend event w)
    as [-> | (ok & -> & _)].
  - rewrite new_events_refl. split; [done|]. split; [done | by left].
  - cbn [fst snd disk].
    rewrite (new_events_app w _ [Sent None _ ok]) by done.
    split; [done|]. split; [done|]. right. by eexists _, _.
Qed.

(** ** Usernames, keys and names *)

Lemma lower_char_idemp c : Py.lower_char (Py.lower_char c) = Py.lower_char c.
Proof. by destruct c as [[] [] [] [] [] [] [] []]. Qed.

Lemma lower_idemp s : Py.lower (Py.lower s) = Py.lower s.
Proof.
  induction s as [|c s IH]; [done|]. simpl. by rewrite lower_char_idemp, IH.
Qed.

Lemma truthy_lower s : Py.truthy (Py.lower s) = Py.truthy s.
Proof. by destruct s. Qed.

Lemma scan_contacts_lower contacts : ∀ ids usernames u,
  (∀ v, v ∈ usernames → Py.lower v = v) →
  u ∈ important_usernames (scan_contacts contacts ids usernames) →
  Py.lower u = u.
Proof.
  induction contacts as [|entry contacts IH]; intros ids usernames u Hlow;
    [by apply Hlow|].
  destruct entry as [| | | | |kvs]; try (by apply Hlow).
  cbn [scan_contacts].
  destruct (Json.truthy (Json.or (Json.get kvs "telegramUsername" JNull)
                           (Json.get kvs "telegram_username" JNull)));
    [|by apply IH].
  destruct (Json.or (Json.get kvs "telegramUsername" JNull)
              (Json.get kvs "telegram_username" JNull));
    try (by apply Hlow).
  apply IH. intros v [->%elem_of_singleton | Hv]%elem_of_union;
    [apply lower_idemp | by apply Hlow].
Qed.

Lemma fetch_usernames_lower cfg resp u :
  u ∈ important_usernames (fetch_important_contacts cfg resp) →
  Py.lower u = u.
Proof.
  unfold fetch_important_contacts.
  destruct (negb _); [by intros ?%elem_of_empty|].
  destruct resp as [|[| | | | |data]]; try (by intros ?%elem_of_empty).
  destruct (Json.get data "contacts" (JList [])) as [| | |[|]|l|[|]];
    try (by intros ?%elem_of_empty).
  apply scan_contacts_lower. by intros v ?%elem_of_empty.
Qed.

(** X11.  Matching a chat to the important contacts by username ignores
    case: the usernames [fetch_important_contacts] returns are all in
    lower case, and [matches_contact] answers the same for two chat
    usernames that differ only in case. *)
Theorem important_username_match_ignores_case :
  (∀ cfg resp u,
     u ∈ important_usernames (fetch_important_contacts cfg resp) →
     Py.lower u = u)
  ∧ (∀ ids usernames chat_id u u',
       Py.lower u = Py.lower u' →
       matches_contact ids usernames chat_id (Some u)
       = matches_contact ids usernames chat_id (Some u')).
Proof.
  split; [apply fetch_usernames_lower|].
  intros ids usernames chat_id u u' Hlow. unfold matches_contact.
  cbn [Py.truthy_opt default from_option id].
  by rewrite <- (truthy_lower u), <- (truthy_lower u'), Hlow.
Qed.

(** X12.  The state key tells chats apart: two entities have the same key
    only if they are of the same class and have the same id, so two chats
    never share a watermark. *)
Theorem get_state_key_inj :
  ∀ e1 e2,
    get_state_key e1 = get_state_key e2 →
    class_name e1 = class_name e2 ∧ entity_id e1 = entity_id e2.
Proof.
  intros e1 e2. unfold get_state_key.
  destruct e1, e2; cbn [class_name entity_id]; simpl;
    intros Heq; try discriminate Heq; simplify_eq; done.
Qed.

Lemma pretty_N_go_nonempty x : ∀ s,
  s ≠ EmptyString → pretty_N_go x s ≠ EmptyString.
Proof.
  induction (N.lt_wf_0 x) as [x _ IH]; intros s Hs.
  destruct (decide (x = 0%N)) as [-> | Hx]; [by rewrite pretty_N_go_0|].
  rewrite pretty_N_go_step by lia.
  apply IH; [apply N.div_lt; lia | done].
Qed.

Lemma pretty_Z_nonempty (z : Z) : pretty z ≠ EmptyString.
Proof.
  assert (∀ p : positive, pretty p ≠ EmptyString) as Hpos.
  { intros p. unfold pretty, pretty_positive, pretty, pretty_N.
    rewrite decide_False by done.
    rewrite pretty_N_go_step by lia. by apply pretty_N_go_nonempty. }
  destruct z as [|p|p]; [done | apply Hpos | done].
Qed.

Lemma display_name_truthy user : Py.truthy (display_name user) = true.
Proof.
  unfold display_name.
  destruct (Py.truthy (Py.strip _)) eqn:Hname; [done|].
  destruct (cu_username user) as [[|c s]|]; cbn [Py.truthy_opt default];
    [|done|].
  - destruct (cu_phone user) as [[|c s]|]; cbn [Py.truthy_opt default];
      [|done|]; pose proof (pretty_Z_nonempty (cu_id user));
      by destruct (pretty (cu_id user)).
  - destruct (cu_phone user) as [[|c s]|]; cbn [Py.truthy_opt default];
      [|done|]; pose proof (pretty_Z_nonempty (cu_id user));
      by destruct (pretty (cu_id user)).
Qed.

(** X13.  The list [sync_contacts] builds has one entry per contact, in
    order and with the contact's id, and every entry has a non-empty
    name, whatever names, username and phone the contact has or lacks. *)
Theorem synced_contacts_have_names :
  ∀ users,
    map ce_telegramChatId (contacts_payload users) = map cu_id users
    ∧ Forall (λ entry, ce_name entry ≠ EmptyString) (contacts_payload users).
Proof.
  intros users. unfold contacts_payload. split.
  - rewrite map_map. done.
  - apply Forall_forall. intros entry Hin.
    apply list_elem_of_In, in_map_iff in Hin as (user & <- & _).
    cbn [ce_name]. apply truthy_nonempty, display_name_truthy.
Qed.

(** ** The environment *)

Lemma ignore_token_spec ids token i :
  i ∈ Env.ignore_token ids token
  ↔ i ∈ ids
    ∨ (Env.isdigit (Env.lstrip_dash (Py.strip token)) = true
       ∧ Py.int_of_str (Py.strip token) = Some i).
Proof.
  unfold Env.ignore_token.
  destruct (Py.truthy (Py.strip token)) eqn:Htruthy; cbn [negb].
  - destruct (Env.isdigit _);
      [|split; [by left | by intros [Hin|[Hf _]]]].
    destruct (Py.int_of_str (Py.strip token)) as [n|];
      [|split; [by left | by intros [Hin|[_ Hf]]]].
    rewrite elem_of_union, elem_of_singleton. split.
    + intros [-> | Hin]; [by right | by left].
    + intros [Hin | [_ [= ->]]]; [by right | by left].
  - destruct (Py.strip token); [|done].
    split; [by left | by intros [Hin|[Hf _]]].
Qed.

Lemma foldl_ignore_token tokens : ∀ ids i,
  i ∈ foldl Env.ignore_token ids tokens
  ↔ i ∈ ids
    ∨ ∃ token, token ∈ tokens
               ∧ Env.isdigit (Env.lstrip_dash (Py.strip token)) = true
               ∧ Py.int_of_str (Py.strip token) = Some i.
Proof.
  induction tokens as [|t tokens IH]; intros ids i; cbn [foldl].
  - split; [by left|]. intros [?|(token & ?%elem_of_nil & _)]; done.
  - rewrite IH, ignore_token_spec. split.
    + intros [[?|[? ?]]|(token & ? & ? & ?)]; [by left| |].
      * right. exists t. split; [apply list_elem_of_here | done].
      * right. exists token. split; [by apply list_elem_of_further | done].
    + intros [?|(token & [->|?]%elem_of_cons & ? & ?)];
        [by left; left | by left; right | right; by exists token].
Qed.

(** X14.  An id is in the parsed [IGNORE_CHAT_IDS] exactly when one of
    the comma-separated entries of the variable, trimmed, consists of
    digits after any leading dashes and [int] reads it as that id; every
    other entry is dropped, and no entry makes the parsing fail. *)
Theorem ignore_chat_ids_are_the_numeric_entries :
  ∀ raw i,
    i ∈ Env.ignore_chat_ids raw
    ↔ ∃ token,
        token ∈ Env.split "," raw
        ∧ Env.isdigit (Env.lstrip_dash (Py.strip token)) = true
        ∧ Py.int_of_str (Py.strip token) = Some i.
Proof.
  intros raw i. unfold Env.ignore_chat_ids.
  destruct raw as [|c raw]; cbn [Py.truthy].
  - split; [by intros ?%elem_of_empty|].
    by intros (token & ->%list_elem_of_singleton & ? & _).
  - rewrite foldl_ignore_token. split; [|by right].
    by intros [?%elem_of_empty|?].
Qed.

Lemma watch_token_unfold sets token :
  Env.watch_token sets token
  = match Py.strip token with
    | EmptyString => Some sets
    | String c rest =>
      if Ascii.eqb c "@"
      then Some (sets.1, {[ Py.lower rest ]} ∪ sets.2)
      else if Env.isdigit (Env.lstrip_dash (String c rest))
      then n ← Py.int_of_str (String c rest); Some ({[ n ]} ∪ sets.1, sets.2)
      else Some (sets.1, {[ Py.lower (String c rest) ]} ∪ sets.2)
    end.
Proof.
  unfold Env.watch_token.
  destruct (Py.strip token) as [|c rest]; [done|].
  cbn [Py.truthy negb].
  destruct c as [[] [] [] [] [] [] [] []]; reflexivity.
Qed.

Lemma token_listed_unfold token sets :
  token_listed token sets
  = match Py.strip token with
    | EmptyString => True
    | String c rest =>
      if Ascii.eqb c "@" then Py.lower rest ∈ sets.2
      else if Env.isdigit (Env.lstrip_dash (String c rest))
      then ∃ n, Py.int_of_str (String c rest) = Some n ∧ n ∈ sets.1
      else Py.lower (String c rest) ∈ sets.2
    end.
Proof.
  unfold token_listed.
  destruct (Py.strip token) as [|c rest]; [done|].
  destruct c as [[] [] [] [] [] [] [] []]; reflexivity.
Qed.

Lemma token_listed_mono token (sets sets' : gset Z * gset string) :
  sets.1 ⊆ sets'.1 → sets.2 ⊆ sets'.2 →
  token_listed token sets → token_listed token sets'.
Proof.
  intros H1 H2. rewrite !token_listed_unfold.
  destruct (Py.strip token) as [|c rest]; [done|].
  destruct (Ascii.eqb c "@"); [apply H2|].
  destruct (Env.isdigit _); [|apply H2].
  intros (n & Hn & Hin). exists n. split; [done | by apply H1].
Qed.

Lemma watch_token_listed sets token sets' :
  Env.watch_token sets token = Some sets' →
  sets.1 ⊆ sets'.1 ∧ sets.2 ⊆ sets'.2 ∧ token_listed token sets'.
Proof.
  rewrite watch_token_unfold, token_listed_unfold.
  destruct (Py.strip token) as [|c rest]; [by intros [= <-]|].
  destruct (Ascii.eqb c "@").
  { intros [= <-]. cbn [fst snd]. split; [done|].
    split; [apply union_subseteq_r|].
    apply elem_of_union_l. by apply elem_of_singleton. }
  destruct (Env.isdigit _).
  - destruct (Py.int_of_str _) as [n|]; [|done]. cbn.
    intros [= <-]. cbn [fst snd]. split; [apply union_subseteq_r|].
    split; [done|]. exists n. split; [done|].
    apply elem_of_union_l. by apply elem_of_singleton.
  - intros [= <-]. cbn [fst snd]. split; [done|].
    split; [apply union_subseteq_r|].
    apply elem_of_union_l. by apply elem_of_singleton.
Qed.

Lemma watch_tokens_listed tokens : ∀ sets sets',
  Env.watch_tokens tokens sets = Some sets' →
  sets.1 ⊆ sets'.1 ∧ sets.2 ⊆ sets'.2
  ∧ ∀ token, token ∈ tokens → token_listed token sets'.
Proof.
  induction tokens as [|t tokens IH]; intros sets sets'; cbn [Env.watch_tokens].
  - intros [= <-]. split; [done|]. split; [done|]. by intros ? ?%elem_of_nil.
  - destruct (Env.watch_token sets t) as [sets1|] eqn:Ht; [|done].
    cbn. intros Hrest.
    apply watch_token_listed in Ht as (H1 & H2 & Hlisted).
    apply IH in Hrest as (H1' & H2' & Hall).
    split; [by etrans|]. split; [by etrans|].
    intros token [->|Hin]%elem_of_cons; [|by apply Hall].
    by eapply token_listed_mono.
Qed.

Lemma watch_token_lower sets token sets' :
  (∀ u, u ∈ sets.2 → Py.lower u = u) →
  Env.watch_token sets token = Some sets' →
  ∀ u, u ∈ sets'.2 → Py.lower u = u.
Proof.
  intros Hlow. rewrite watch_token_unfold.
  assert (∀ s u, u ∈ ({[ Py.lower s ]} ∪ sets.2 : gset string) →
                 Py.lower u = u) as Hadd.
  { intros s u [->%elem_of_singleton | Hu]%elem_of_union;
      [apply lower_idemp | by apply Hlow]. }
  destruct (Py.strip token) as [|c rest]; [by intros [= <-]|].
  destruct (Ascii.eqb c "@");
    [intros [= <-] u Hu; exact (Hadd rest u Hu)|].
  destruct (Env.isdigit _);
    [|intros [= <-] u Hu; exact (Hadd (String c rest) u Hu)].
  destruct (Py.int_of_str _) as [n|]; [|done]. cbn.
  intros [= <-]. exact Hlow.
Qed.

Lemma watch_tokens_lower tokens : ∀ sets sets',
  (∀ u, u ∈ sets.2 → Py.lower u = u) →
  Env.watch_tokens tokens sets = Some sets' →
  ∀ u, u ∈ sets'.2 → Py.lower u = u.
Proof.
  induction tokens as [|t tokens IH]; intros sets sets' Hlow;
    cbn [Env.watch_tokens].
  - by intros [= <-].
  - destruct (Env.watch_token sets t) as [sets1|] eqn:Ht; [|done].
    cbn. apply IH. by eapply watch_token_lower.
Qed.

(** What [token_listed] says of a token that does not start with [@]. *)
Lemma token_listed_plain token sets c rest :
  Py.strip token = String c rest →
  c ≠ "@"%char →
  token_listed token sets →
  if Env.isdigit (Env.lstrip_dash (String c rest))
  then ∃ n, Py.int_of_str (String c rest) = Some n ∧ n ∈ sets.1
  else Py.lower (String c rest) ∈ sets.2.
Proof.
  intros Hstrip Hc. rewrite token_listed_unfold, Hstrip.
  by apply Ascii.eqb_neq in Hc as ->.
Qed.

Lemma token_listed_at token sets name :
  Py.strip token = String "@" name →
  token_listed token sets → Py.lower name ∈ sets.2.
Proof. intros Hstrip. by rewrite token_listed_unfold, Hstrip. Qed.

Lemma numeric_not_at rest :
  Env.isdigit (Env.lstrip_dash (String "@" rest)) = false.
Proof. done. Qed.

Lemma with_watch_chats_sets base raw cfg :
  Env.with_watch_chats base raw = Some cfg →
  WATCH_ALL cfg = String.eqb (Py.lower raw) "all"
  ∧ Env.watch_sets raw = Some (watch_chat_ids cfg, watch_usernames cfg).
Proof.
  unfold Env.with_watch_chats.
  destruct (Env.watch_sets raw) as [[ids names]|]; [|done].
  cbn. by intros [= <-].
Qed.

Lemma should_forward_by_username cfg chat u :
  WATCH_ALL cfg = false →
  getattr_username (Some chat) = Some u →
  Py.truthy u = true →
  Py.lower u ∈ watch_usernames cfg →
  should_forward cfg (Some chat) = true.
Proof.
  intros Hall Hu Htruthy Hin. unfold should_forward. rewrite Hall, Hu.
  cbn [Py.truthy_opt default from_option id]. rewrite Htruthy.
  rewrite (bool_decide_eq_true_2 _ Hin). cbn [andb].
  by destruct (match getattr_id (Some chat) with Some _ => _ | None => _ end).
Qed.

Lemma should_forward_by_id cfg chat :
  WATCH_ALL cfg = false →
  entity_id chat ≠ 0 →
  entity_id chat ∈ watch_chat_ids cfg →
  should_forward cfg (Some chat) = true.
Proof.
  intros Hall Hne Hin. unfold should_forward. rewrite Hall.
  cbn [getattr_id fmap option_fmap option_map].
  assert ((entity_id chat =? 0) = false) as -> by (by apply Z.eqb_neq).
  by rewrite (bool_decide_eq_true_2 _ Hin).
Qed.

Lemma should_forward_by_title cfg chat t :
  WATCH_ALL cfg = false →
  getattr_title (Some chat) None = Some t →
  Py.truthy t = true →
  Py.lower t ∈ watch_usernames cfg →
  should_forward cfg (Some chat) = true.
Proof.
  intros Hall Ht Htruthy Hin. unfold should_forward. rewrite Hall, Ht.
  cbn [Py.truthy_opt default from_option id]. rewrite Htruthy.
  rewrite (bool_decide_eq_true_2 _ Hin). cbn [andb].
  destruct (match getattr_id (Some chat) with Some _ => _ | None => _ end);
    [done|].
  by destruct (_ && _).
Qed.

(** X15.  An explicit [WATCH_CHATS] is honoured by [should_forward]: the
    sets read from it hold lower-case names only, and for each of its
    comma-separated entries, trimmed, a chat is in scope when the entry is
    [@name] and the chat's username is that name in any case, when the
    entry is a number other than 0 and the chat has that id, and when the
    entry is any other text and the chat's title is that text in any
    case. *)
Theorem listed_chat_is_in_watch_scope :
  ∀ base raw cfg,
    Env.with_watch_chats base raw = Some cfg →
    WATCH_ALL cfg = false →
    (∀ u, u ∈ watch_usernames cfg → Py.lower u = u)
    ∧ ∀ token chat,
        token ∈ Env.split "," raw →
        (∀ name u,
           Py.strip token = String "@" name →
           getattr_username (Some chat) = Some u →
           Py.truthy u = true →
           Py.lower u = Py.lower name →
           should_forward cfg (Some chat) = true)
        ∧ (∀ i,
             Env.isdigit (Env.lstrip_dash (Py.strip token)) = true →
             Py.int_of_str (Py.strip token) = Some i →
             i ≠ 0 → entity_id chat = i →
             should_forward cfg (Some chat) = true)
        ∧ (∀ c rest t,
             Py.strip token = String c rest →
             c ≠ "@"%char →
             Env.isdigit (Env.lstrip_dash (Py.strip token)) = false →
             getattr_title (Some chat) None = Some t →
             Py.truthy t = true →
             Py.lower t = Py.lower (Py.strip token) →
             should_forward cfg (Some chat) = true).
Proof.
  intros base raw cfg Hcfg Hall.
  apply with_watch_chats_sets in Hcfg as [Heqb Hsets].
  rewrite Hall in Heqb. unfold Env.watch_sets in Hsets.
  rewrite <- Heqb in Hsets.
  pose proof (watch_tokens_listed _ _ _ Hsets) as (_ & _ & Hlisted).
  split.
  { eapply (watch_tokens_lower _ _ _ _ Hsets). }
  intros token chat Hin. specialize (Hlisted token Hin).
  split; [|split].
  - intros name u Hstrip Hu Htruthy Hlow.
    apply (token_listed_at _ _ _ Hstrip) in Hlisted. cbn [snd] in Hlisted.
    apply (should_forward_by_username cfg chat u); try done.
    by rewrite Hlow.
  - intros i Hdigit Hint Hne Hid.
    destruct (Py.strip token) as [|c rest] eqn:Hstrip; [done|].
    assert (c ≠ "@"%char) as Hc.
    { intros ->. by rewrite numeric_not_at in Hdigit. }
    pose proof (token_listed_plain _ _ _ _ Hstrip Hc Hlisted) as Hplain.
    rewrite Hdigit in Hplain. destruct Hplain as (n & Hn & Hmem).
    rewrite Hint in Hn. injection Hn as <-. cbn [fst] in Hmem.
    apply should_forward_by_id; [done | by rewrite Hid | by rewrite Hid].
  - intros c rest t Hstrip Hc Hdigit Ht Htruthy Hlow.
    pose proof (token_listed_plain _ _ _ _ Hstrip Hc Hlisted) as Hplain.
    rewrite Hstrip in Hdigit, Hlow. rewrite Hdigit in Hplain.
    cbn [snd] in Hplain.
    apply (should_forward_by_title cfg chat t); try done.
    by rewrite Hlow.
  Unshelve. by intros u ?%elem_of_empty.
Qed.

(** ** Instances of the further properties *)

(** Instance of X2: message 1 is accepted in the sweep of the
    partial-failure scenario; the next sweep, with a fourth message in
    the chat, posts message 4. *)
Lemma accepted_delivery_is_never_attempted_again_witness :
  let cfg := Scenario.watch_everything in
  let backend := Scenario.rejects_2 in
  let pass := SweepPass Scenario.contacts_555 [Scenario.three_unread] in
  let next := SweepPass Scenario.contacts_555 [Scenario.fourth_arrived] in
  let p := with_account cfg
             (cron_payload Scenario.three_unread
                (Scenario.text_message 1 Scenario.today)) in
  let q := with_account cfg
             (cron_payload Scenario.fourth_arrived
                (Scenario.text_message 4 Scenario.today)) in
  let w1 := run_pass cfg backend pass Scenario.fresh in
  let w2 := run_passes cfg backend [] w1 in
  Sent (Some "User:555"%string) p true ∈ new_events Scenario.fresh w1
  ∧ Sent (Some "User:555"%string) q true
      ∈ new_events w2 (run_pass cfg backend next w2)
  ∧ p_message_id p ≤ watermark w1 "User:555"
  ∧ p_message_id p < p_message_id q.
Proof.
  intros cfg backend pass next p q w1 w2.
  assert (Sent (Some "User:555"%string) p true
            ∈ new_events Scenario.fresh w1) as Hp
    by (vm_compute; apply list_elem_of_here).
  assert (Sent (Some "User:555"%string) q true
            ∈ new_events w2 (run_pass cfg backend next w2)) as Hq
    by (vm_compute; apply list_elem_of_here).
  split; [exact Hp|]. split; [exact Hq|].
  exact (accepted_delivery_is_never_attempted_again cfg backend pass [] next
           Scenario.fresh "User:555" p q true Hp Hq).
Defined.

(** Instance of X3: the first POST of the sweep over the chat with three
    unread messages. *)
Lemma sweep_posts_only_for_unread_chats_passing_the_filters_witness :
  let cfg := Scenario.watch_everything in
  let d := Scenario.three_unread in
  let p := with_account cfg
             (cron_payload d (Scenario.text_message 1 Scenario.today)) in
  Sent (Some "User:555"%string) p true
    ∈ new_events Scenario.fresh
        (process_unread_important_messages cfg Scenario.accepts_all
           Scenario.contacts_555 [d] Scenario.fresh).2
  ∧ ∃ d' m,
      d' ∈ [d] ∧ Some "User:555"%string = Some (dialog_key d')
      ∧ 0 < d_unread_count d'
      ∧ passes_skeleton cfg
          (fetch_important_contacts cfg Scenario.contacts_555)
          (Some (d_entity d')) = true
      ∧ m ∈ get_messages d' (Z.max (d_unread_count d') 1)
      ∧ p = with_account cfg (cron_payload d' m).
Proof.
  intros cfg d p.
  assert (Sent (Some "User:555"%string) p true
            ∈ new_events Scenario.fresh
                (process_unread_important_messages cfg Scenario.accepts_all
                   Scenario.contacts_555 [d] Scenario.fresh).2) as Hin
    by (vm_compute; apply list_elem_of_here).
  split; [exact Hin|].
  exact (sweep_posts_only_for_unread_chats_passing_the_filters cfg
           Scenario.accepts_all Scenario.contacts_555 [d] Scenario.fresh
           _ p true Hin).
Defined.

(** Instance of X4: the first POST of the backfill of the cutoff
    scenario. *)
Lemma backfill_posts_only_for_important_chats_within_bounds_witness :
  let cfg := Scenario.three_days in
  let d := Scenario.with_old_message in
  let p := with_account cfg
             (backfill_payload d (Scenario.text_message 89 Scenario.today)) in
  Sent (Some "User:555"%string) p true
    ∈ new_events Scenario.fresh
        (backfill_history cfg Scenario.accepts_all Scenario.contacts_555
           Scenario.today [d] Scenario.fresh).2
  ∧ ∃ d' m,
      d' ∈ [d] ∧ Some "User:555"%string = Some (dialog_key d')
      ∧ is_ignored cfg (Some (entity_id (d_entity d'))) = false
      ∧ matches_contact
          (important_ids (fetch_important_contacts cfg Scenario.contacts_555))
          (important_usernames
             (fetch_important_contacts cfg Scenario.contacts_555))
          (Some (entity_id (d_entity d')))
          (getattr_username (Some (d_entity d'))) = true
      ∧ m ∈ iter_messages d' (backfill_limit cfg)
      ∧ before_cutoff (backfill_cutoff cfg Scenario.today) m = false
      ∧ p = with_account cfg (backfill_payload d' m).
Proof.
  intros cfg d p.
  assert (Sent (Some "User:555"%string) p true
            ∈ new_events Scenario.fresh
                (backfill_history cfg Scenario.accepts_all
                   Scenario.contacts_555 Scenario.today [d]
                   Scenario.fresh).2) as Hin
    by (vm_compute; apply list_elem_of_here).
  split; [exact Hin|].
  exact (backfill_posts_only_for_important_chats_within_bounds cfg
           Scenario.accepts_all Scenario.contacts_555 Scenario.today [d]
           Scenario.fresh _ p true Hin).
Defined.

(** Instance of X5: with the backend down, the newest of the three unread
    messages is attempted all the same, by the sweep and by the backfill
    with its cutoff three days back. *)
Lemma every_new_message_is_attempted_witness :
  let cfg := Scenario.watch_everything in
  let cfg3 := Scenario.three_days in
  let d := Scenario.three_unread in
  let m := Scenario.text_message 3 Scenario.today in
  (∃ ok,
     Sent (Some (dialog_key d)) (with_account cfg (cron_payload d m)) ok
       ∈ new_events Scenario.fresh
           (process_unread_important_messages cfg Scenario.rejects_all
              Scenario.contacts_555 [d] Scenario.fresh).2)
  ∧ (cutoff_raises cfg3 Scenario.today = false
     ∧ ∃ ok,
         Sent (Some (dialog_key d))
           (with_account cfg3 (backfill_payload d m)) ok
           ∈ new_events Scenario.fresh
               (backfill_history cfg3 Scenario.rejects_all
                  Scenario.contacts_555 Scenario.today [d] Scenario.fresh).2).
Proof.
  intros cfg cfg3 d m.
  destruct every_new_message_is_attempted as [Hsweep Hbackfill].
  assert (d ∈ [d]) as Hd by apply list_elem_of_here.
  split.
  - apply (Hsweep cfg Scenario.rejects_all Scenario.contacts_555 [d]
             Scenario.fresh d m three_unread_listed_once Hd
             three_unread_newest_first).
    + by vm_compute.
    + apply list_elem_of_here.
    + by vm_compute.
  - split; [by vm_compute|].
    apply (Hbackfill cfg3 Scenario.rejects_all Scenario.contacts_555
             Scenario.today [d] Scenario.fresh d m three_unread_listed_once
             Hd three_unread_newest_first).
    + by vm_compute.
    + by vm_compute.
    + apply list_elem_of_here.
Defined.

(** Instance of X6: the sweep of the partial-failure scenario has two
    accepted POSTs and writes the state file once, at the end. *)
Lemma state_file_written_once_after_accepted_delivery_witness :
  let r := process_unread_important_messages Scenario.watch_everything
             Scenario.rejects_2 Scenario.contacts_555
             [Scenario.three_unread] Scenario.fresh in
  0 < accepted (new_events Scenario.fresh r.2)
  ∧ writes (new_events Scenario.fresh r.2) = 1%nat
  ∧ last (new_events Scenario.fresh r.2)
    = Some (Saved (default ∅ (disk r.2)))
  ∧ disk r.2 = Some (default ∅ (disk r.2)).
Proof.
  intros r.
  assert (0 < accepted (new_events Scenario.fresh r.2)) as Hpos
    by (by vm_compute).
  split; [exact Hpos|].
  destruct (state_file_written_once_after_accepted_delivery
              Scenario.watch_everything Scenario.rejects_2
              Scenario.contacts_555 Scenario.today [Scenario.three_unread]
              Scenario.fresh) as [[Hwritten _] _].
  exact (Hwritten Hpos).
Defined.

(** Instance of X8 and X9: a POST of the sweep under [IGNORE_CHAT_IDS=7]
    and a configured account. *)
Lemma ignored_chat_is_never_posted_witness :
  let cfg := Scenario.ignore_7 in
  let d := Scenario.three_unread in
  let p := with_account cfg
             (cron_payload d (Scenario.text_message 1 Scenario.today)) in
  Sent (Some "User:555"%string) p true
    ∈ new_events Scenario.fresh
        (process_unread_important_messages cfg Scenario.accepts_all
           Scenario.contacts_555 [d] Scenario.fresh).2
  ∧ p_chat_id p = Some 555
  ∧ 555 ∉ IGNORE_CHAT_IDS cfg.
Proof.
  intros cfg d p.
  assert (Sent (Some "User:555"%string) p true
            ∈ new_events Scenario.fresh
                (process_unread_important_messages cfg Scenario.accepts_all
                   Scenario.contacts_555 [d] Scenario.fresh).2) as Hin
    by (vm_compute; apply list_elem_of_here).
  split; [exact Hin|]. split; [reflexivity|].
  exact (ignored_chat_is_never_posted cfg Scenario.accepts_all
           Scenario.contacts_555 Scenario.today [d]
           (Scenario.private_event Scenario.ann None false) Scenario.fresh
           _ p true 555 (or_introl Hin) eq_refl).
Defined.

Lemma every_post_carries_the_account_witness :
  let cfg := Scenario.ignore_7 in
  let d := Scenario.three_unread in
  let p := with_account cfg
             (cron_payload d (Scenario.text_message 1 Scenario.today)) in
  Sent (Some "User:555"%string) p true
    ∈ new_events Scenario.fresh
        (process_unread_important_messages cfg Scenario.accepts_all
           Scenario.contacts_555 [d] Scenario.fresh).2
  ∧ p_account_id p = ACCOUNT_ID_NUM cfg
  ∧ p_account_key p
    = if Py.truthy_opt (BACKEND_ACCOUNT_KEY cfg)
      then BACKEND_ACCOUNT_KEY cfg else None.
Proof.
  intros cfg d p.
  assert (Sent (Some "User:555"%string) p true
            ∈ new_events Scenario.fresh
                (process_unread_important_messages cfg Scenario.accepts_all
                   Scenario.contacts_555 [d] Scenario.fresh).2) as Hin
    by (vm_compute; apply list_elem_of_here).
  split; [exact Hin|].
  exact (every_post_carries_the_account cfg Scenario.accepts_all
           Scenario.contacts_555 Scenario.today [d]
           (Scenario.private_event Scenario.ann None false) Scenario.fresh
           _ p true (or_introl Hin)).
Defined.

(** Instance of X11: the contact ["Alice"] is fetched as ["alice"], and
    a chat whose username is ["ALICE"] matches as ["alice"] does. *)
Lemma important_username_match_ignores_case_witness :
  let cfg := Scenario.watch_everything in
  let imp := fetch_important_contacts cfg Scenario.contacts_alice in
  ("alice"%string ∈ important_usernames imp
   ∧ Py.lower "alice" = "alice"%string)
  ∧ (Py.lower "ALICE" = Py.lower "alice"
     ∧ matches_contact (important_ids imp) (important_usernames imp)
         (Some 9) (Some "ALICE"%string)
       = matches_contact (important_ids imp) (important_usernames imp)
           (Some 9) (Some "alice"%string)).
Proof.
  intros cfg imp.
  destruct important_username_match_ignores_case as [Hlower Hcase].
  assert ("alice"%string ∈ important_usernames imp) as Hin
    by (by vm_compute).
  split.
  - split; [exact Hin | exact (Hlower cfg Scenario.contacts_alice _ Hin)].
  - split; [reflexivity|].
    exact (Hcase (important_ids imp) (important_usernames imp) (Some 9)
             "ALICE"%string "alice"%string eq_refl).
Defined.

(** Instance of X12. *)
Lemma get_state_key_inj_witness :
  get_state_key Scenario.ann = get_state_key (User 555 None None true)
  ∧ class_name Scenario.ann = class_name (User 555 None None true)
  ∧ entity_id Scenario.ann = entity_id (User 555 None None true).
Proof.
  split; [reflexivity|].
  exact (get_state_key_inj Scenario.ann (User 555 None None true) eq_refl).
Defined.

(** Instance of X15: [WATCH_CHATS="@Alice, 123, Team Chat"]. *)
Lemma listed_chat_is_in_watch_scope_witness :
  let raw := "@Alice, 123, Team Chat"%string in
  ∃ cfg,
    Env.with_watch_chats Scenario.watch_everything raw = Some cfg
    ∧ WATCH_ALL cfg = false
    ∧ should_forward cfg (Some (Channel 9 "News" (Some "ALICE"%string)))
      = true
    ∧ should_forward cfg (Some (Chat 123 "Family")) = true
    ∧ should_forward cfg (Some (Chat 5 "TEAM CHAT")) = true.
Proof.
  intros raw.
  destruct (Env.with_watch_chats Scenario.watch_everything raw)
    as [cfg|] eqn:Hcfg; [|by vm_compute in Hcfg].
  assert (WATCH_ALL cfg = false) as Hall.
  { apply with_watch_chats_sets in Hcfg as [-> _]. reflexivity. }
  exists cfg. split; [done|]. split; [exact Hall|].
  destruct (listed_chat_is_in_watch_scope Scenario.watch_everything raw cfg
              Hcfg Hall) as [_ Hlisted].
  split; [|split].
  - assert ("@Alice"%string ∈ Env.split "," raw) as Hin
      by (vm_compute; apply list_elem_of_here).
    destruct (Hlisted "@Alice"%string
                (Channel 9 "News" (Some "ALICE"%string)) Hin)
      as (Hat & _ & _).
    exact (Hat "Alice"%string "ALICE"%string eq_refl eq_refl eq_refl eq_refl).
  - assert (" 123"%string ∈ Env.split "," raw) as Hin
      by (vm_compute; apply list_elem_of_further, list_elem_of_here).
    destruct (Hlisted " 123"%string (Chat 123 "Family") Hin)
      as (_ & Hid & _).
    apply (Hid 123); [reflexivity | reflexivity | discriminate | reflexivity].
  - assert (" Team Chat"%string ∈ Env.split "," raw) as Hin
      by (vm_compute;
          apply list_elem_of_further, list_elem_of_further,
            list_elem_of_here).
    destruct (Hlisted " Team Chat"%string (Chat 5 "TEAM CHAT") Hin)
      as (_ & _ & Htitle).
    apply (Htitle "T"%char "eam Chat"%string "TEAM CHAT"%string);
      [reflexivity | discriminate | reflexivity | reflexivity
      | reflexivity | reflexivity].
Defined.

(** ** Retrying a failed delivery *)

Lemma sweep_failed_above cfg backend resp ds w k p :
  let w1 := (process_unread_important_messages cfg backend resp ds w).2 in
  Sent (Some k) p false ∈ new_events w w1 →
  (∀ q, Sent (Some k) q true ∈ new_events w w1 →
        p_message_id q < p_message_id p) →
  watermark w1 k < p_message_id p.
Proof.
  intros w1 Hfail Hsucc. subst w1.
  destruct (sweep_cases cfg backend resp ds w) as [Heq | Hout].
  - rewrite Heq in Hfail. cbn [snd] in Hfail.
    rewrite new_events_refl in Hfail. by apply elem_of_nil in Hfail.
  - by eapply pass_failed_above; [apply sweep_plan_ok | exact Hout |..].
Qed.

Lemma backfill_failed_above cfg backend resp now ds w k p :
  let w1 := (backfill_history cfg backend resp now ds w).2 in
  Sent (Some k) p false ∈ new_events w w1 →
  (∀ q, Sent (Some k) q true ∈ new_events w w1 →
        p_message_id q < p_message_id p) →
  watermark w1 k < p_message_id p.
Proof.
  intros w1 Hfail Hsucc. subst w1.
  destruct (backfill_cases cfg backend resp now ds w)
    as [Heq | (n' & _ & Hout)].
  - rewrite Heq, new_events_refl in Hfail. by apply elem_of_nil in Hfail.
  - by eapply pass_failed_above; [apply backfill_plan_ok | exact Hout |..].
Qed.

(** With ids decreasing along the walk, the walk reaches a message above
    the watermark when neither it nor a message ahead of it is dated
    before the cutoff. *)
Lemma collect_messages_reach cutoff lf ms m :
  StronglySorted (λ a b, b < a) (map m_id ms) →
  m ∈ ms → lf < m_id m →
  (∀ m', m' ∈ ms → m_id m ≤ m_id m' → before_cutoff cutoff m' = false) →
  m ∈ collect_messages cutoff lf ms.
Proof.
  induction ms as [|m0 ms IH]; simpl; [by intros _ ?%elem_of_nil|].
  intros [Hs Hall]%StronglySorted_inv Hin Hlt Hdates.
  assert (m_id m ≤ m_id m0) as Hle.
  { apply elem_of_cons in Hin as [-> | Hin]; [lia|].
    rewrite Forall_forall in Hall.
    assert (m_id m < m_id m0); [|lia].
    apply Hall. by apply list_elem_of_In, in_map, list_elem_of_In. }
  assert ((m_id m0 <=? lf) = false) as -> by (apply Z.leb_gt; lia).
  rewrite (Hdates m0) by (done || apply list_elem_of_here).
  apply elem_of_cons in Hin as [-> | Hin]; [apply list_elem_of_here|].
  apply list_elem_of_further, IH; try done.
  intros m' Hm'. apply Hdates. by apply list_elem_of_further.
Qed.

Lemma iter_messages_sorted d limit :
  newest_first d →
  StronglySorted (λ a b, b < a) (map m_id (iter_messages d limit)).
Proof.
  intros Hnf. eapply StronglySorted_sublist; [|exact Hnf].
  apply map_sublist, iter_messages_sublist.
Qed.

Lemma sweep_eligible_intro cfg imp d :
  0 < d_unread_count d →
  passes_skeleton cfg imp (Some (d_entity d)) = true →
  sweep_eligible cfg imp d = true.
Proof.
  intros Hunread Hskel. unfold sweep_eligible. rewrite Hskel, andb_true_r.
  apply negb_true_iff, Z.leb_gt. lia.
Qed.

Lemma backfill_eligible_intro cfg imp d :
  is_ignored cfg (Some (entity_id (d_entity d))) = false →
  matches_contact (important_ids imp) (important_usernames imp)
    (Some (entity_id (d_entity d))) (getattr_username (Some (d_entity d)))
  = true →
  backfill_eligible cfg imp d = true.
Proof.
  intros Hign Hmatch. unfold backfill_eligible.
  change (getattr_id (Some (d_entity d)))
    with (Some (entity_id (d_entity d))).
  by rewrite Hign, Hmatch.
Qed.

(** C3, amended.  When every chat is listed once and histories are newest
    first: if the delivery of a message fails during a pass and every
    delivery that succeeded for the same chat in that pass had a smaller
    id, then the message is still strictly above the chat's stored
    watermark after the pass.  A later pass of the same kind over the same
    dialogs and contact list, whatever passes ran in between, attempts the
    same payload again when the stored watermark of the chat is still
    below the message as it starts: the sweep always, the backfill when
    its cutoff, taken at its own instant, can be computed and neither the
    message nor a newer one of the chat within the message limit is dated
    before it. *)
Theorem failed_delivery_is_retried_unless_overtaken :
  (∀ cfg backend resp ds between w k p,
     NoDup (map dialog_key ds) →
     Forall newest_first ds →
     let w1 := (process_unread_important_messages cfg backend resp ds w).2 in
     let w' := run_passes cfg backend between w1 in
     let w2 := (process_unread_important_messages cfg backend resp ds w').2 in
     Sent (Some k) p false ∈ new_events w w1 →
     (∀ q, Sent (Some k) q true ∈ new_events w w1 →
           p_message_id q < p_message_id p) →
     watermark w1 k < p_message_id p
     ∧ (watermark w' k < p_message_id p →
        ∃ ok, Sent (Some k) p ok ∈ new_events w' w2))
  ∧ (∀ cfg backend resp now now' ds between w k p,
       NoDup (map dialog_key ds) →
       Forall newest_first ds →
       let w1 := (backfill_history cfg backend resp now ds w).2 in
       let w' := run_passes cfg backend between w1 in
       let w2 := (backfill_history cfg backend resp now' ds w').2 in
       Sent (Some k) p false ∈ new_events w w1 →
       (∀ q, Sent (Some k) q true ∈ new_events w w1 →
             p_message_id q < p_message_id p) →
       watermark w1 k < p_message_id p
       ∧ (watermark w' k < p_message_id p →
          cutoff_raises cfg now' = false →
          (∀ d m, d ∈ ds → dialog_key d = k →
                  m ∈ iter_messages d (backfill_limit cfg) →
                  p_message_id p ≤ m_id m →
                  before_cutoff (backfill_cutoff cfg now') m = false) →
          ∃ ok, Sent (Some k) p ok ∈ new_events w' w2)).
Proof.
  split.
  - intros cfg backend resp ds between w k p Hnd Hnf w1 w' w2 Hfail Hsucc.
    split; [by apply sweep_failed_above|]. intros Hwm.
    destruct (sweep_provenance _ _ _ _ _ _ _ _ Hfail)
      as (d & m & Hd & Hk & Hunread & Hskel & Hm & ->).
    injection Hk as ->. rewrite Forall_forall in Hnf.
    apply sweep_reaches; try done; [by apply Hnf|].
    by apply sweep_eligible_intro.
  - intros cfg backend resp now now' ds between w k p Hnd Hnf w1 w' w2
      Hfail Hsucc.
    split; [by apply backfill_failed_above|]. intros Hwm Hcut Hdates.
    destruct (backfill_provenance _ _ _ _ _ _ _ _ _ Hfail)
      as (d & m & Hd & Hk & Hign & Hmatch & Hm & _ & ->).
    injection Hk as ->. rewrite Forall_forall in Hnf.
    apply backfill_reaches; try done; [by apply Hnf| |].
    + by apply backfill_eligible_intro.
    + apply collect_messages_reach; try done.
      * by apply iter_messages_sorted, Hnf.
      * intros m' Hm' Hle. by apply (Hdates d m').
Qed.

(** Witness of C3: the backend accepts messages 1 and 2 of the chat with
    three unread messages and fails message 3.  The watermark stored is 2
    and the pass run directly after posts message 3 again: the sweep, and
    the backfill run a day later with its cutoff three days back. *)
Lemma failed_delivery_is_retried_unless_overtaken_witness :
  let cfg := Scenario.watch_everything in
  let cfg3 := Scenario.three_days in
  let backend := Scenario.rejects_3 in
  let resp := Scenario.contacts_555 in
  let d := Scenario.three_unread in
  let m := Scenario.text_message 3 Scenario.today in
  (let p := with_account cfg (cron_payload d m) in
   let w1 := (process_unread_important_messages cfg backend resp [d]
                Scenario.fresh).2 in
   let w2 := (process_unread_important_messages cfg backend resp [d] w1).2 in
   Scenario.outcomes (new_events Scenario.fresh w1)
   = [(1, true); (2, true); (3, false)]
   ∧ Sent (Some "User:555") p false ∈ new_events Scenario.fresh w1
   ∧ watermark w1 "User:555" < p_message_id p
   ∧ ∃ ok, Sent (Some "User:555") p ok ∈ new_events w1 w2)
  ∧ (let p := with_account cfg3 (backfill_payload d m) in
     let later := Scenario.today + Scenario.day in
     let w1 := (backfill_history cfg3 backend resp Scenario.today [d]
                  Scenario.fresh).2 in
     let w2 := (backfill_history cfg3 backend resp later [d] w1).2 in
     Scenario.outcomes (new_events Scenario.fresh w1)
     = [(1, true); (2, true); (3, false)]
     ∧ Sent (Some "User:555") p false ∈ new_events Scenario.fresh w1
     ∧ cutoff_raises cfg3 later = false
     ∧ watermark w1 "User:555" < p_message_id p
     ∧ ∃ ok, Sent (Some "User:555") p ok ∈ new_events w1 w2).
Proof.
  intros cfg cfg3 backend resp d m.
  destruct failed_delivery_is_retried_unless_overtaken as [Hsweep Hbackfill].
  assert (Forall newest_first [d]) as Hnf
    by (constructor; [apply three_unread_newest_first | constructor]).
  split.
  - intros p w1 w2.
    assert (Sent (Some "User:555") p false ∈ new_events Scenario.fresh w1)
      as Hfail
      by (vm_compute; do 2 apply list_elem_of_further;
          apply list_elem_of_here).
    assert (∀ q, Sent (Some "User:555") q true
                   ∈ new_events Scenario.fresh w1 →
                 p_message_id q < p_message_id p) as Hsucc.
    { intros q Hq. vm_compute in Hq.
      repeat (apply elem_of_cons in Hq as [Hq | Hq];
              [try discriminate Hq; injection Hq as ->; by vm_compute|]).
      by apply elem_of_nil in Hq. }
    destruct (Hsweep cfg backend resp [d] [] Scenario.fresh "User:555" p
                three_unread_listed_once Hnf Hfail Hsucc) as [Hwm Hretry].
    split; [by vm_compute|]. split; [exact Hfail|]. split; [exact Hwm|].
    exact (Hretry Hwm).
  - intros p later w1 w2.
    assert (Sent (Some "User:555") p false ∈ new_events Scenario.fresh w1)
      as Hfail
      by (vm_compute; do 2 apply list_elem_of_further;
          apply list_elem_of_here).
    assert (∀ q, Sent (Some "User:555") q true
                   ∈ new_events Scenario.fresh w1 →
                 p_message_id q < p_message_id p) as Hsucc.
    { intros q Hq. vm_compute in Hq.
      repeat (apply elem_of_cons in Hq as [Hq | Hq];
              [try discriminate Hq; injection Hq as ->; by vm_compute|]).
      by apply elem_of_nil in Hq. }
    assert (cutoff_raises cfg3 later = false) as Hcut by (by vm_compute).
    assert (∀ d' m', d' ∈ [d] → dialog_key d' = "User:555"%string →
                     m' ∈ iter_messages d' (backfill_limit cfg3) →
                     p_message_id p ≤ m_id m' →
                     before_cutoff (backfill_cutoff cfg3 later) m' = false)
      as Hdates.
    { intros d' m' ->%list_elem_of_singleton _ Hm' _. vm_compute in Hm'.
      repeat (apply elem_of_cons in Hm' as [-> | Hm']; [by vm_compute|]).
      by apply elem_of_nil in Hm'. }
    destruct (Hbackfill cfg3 backend resp Scenario.today later [d] []
                Scenario.fresh "User:555" p three_unread_listed_once Hnf
                Hfail Hsucc) as [Hwm Hretry].
    split; [by vm_compute|]. split; [exact Hfail|]. split; [exact Hcut|].
    split; [exact Hwm|]. exact (Hretry Hwm Hcut Hdates).
Defined.

(** The condition on the stored watermark is needed: after a backfill in
    which message 3 failed, a sweep that finds one unread message fetches
    message 4 alone and gets it accepted; the stored watermark is then 4,
    and the next backfill over the same dialogs stops its walk at once. *)
Lemma failed_delivery_overtaken_by_pass_in_between :
  let cfg := Scenario.watch_everything in
  let backend := Scenario.rejects_3 in
  let resp := Scenario.contacts_555 in
  let ds := [Scenario.fourth_arrived] in
  let w1 := (backfill_history cfg backend resp Scenario.today
               [Scenario.three_unread] Scenario.fresh).2 in
  let w' := run_passes cfg backend [SweepPass resp ds] w1 in
  let w2 := (backfill_history cfg backend resp Scenario.today
               [Scenario.three_unread] w').2 in
  Scenario.outcomes (new_events Scenario.fresh w1)
  = [(1, true); (2, true); (3, false)]
  ∧ watermark w1 "User:555" = 2
  ∧ Scenario.outcomes (new_events w1 w') = [(4, true)]
  ∧ watermark w' "User:555" = 4
  ∧ attempted "User:555" (new_events w' w2) = [].
Proof. by vm_compute. Qed.

(** ** The text of a POST *)

Lemma get_messages_sublist d limit :
  get_messages d limit `sublist_of` d_history d.
Proof. apply sublist_take. Qed.

Lemma media_only_text m :
  Py.strip (default EmptyString (m_raw_text m)) = EmptyString →
  Py.strip (default EmptyString (m_message m)) = EmptyString →
  m_media m = true →
  extract_message_text m = "[Media message]"%string.
Proof.
  intros Hraw Hsec Hmedia.
  rewrite extract_message_text_policy. unfold extraction_policy.
  by rewrite Hraw, Hsec, Hmedia.
Qed.

(** C5, amended.  [extract_message_text] is never empty and follows the
    extraction policy in order: trimmed raw text if non-empty, else
    trimmed secondary text if non-empty, else ["[Media message]"] if the
    message carries media, else ["[No text content]"].  Every POST of a
    cron sweep is the cron payload of one of the messages fetched for the
    dialog its key names, every POST of a backfill the backfill payload of
    one of the messages walked for that dialog; the POST carries the id of
    that message and as text what [extract_message_text] gives for it, so
    the text is not empty, follows the policy on that message, and is
    exactly ["[Media message]"] when the message has empty raw text, no
    secondary text and a media attachment. *)
Theorem sweep_and_backfill_text_is_extracted :
  (∀ m,
     extract_message_text m ≠ EmptyString
     ∧ extract_message_text m
       = extraction_policy (default EmptyString (m_raw_text m))
           (default EmptyString (m_message m)) (m_media m))
  ∧ (∀ cfg backend resp ds w k p ok,
       Sent k p ok
         ∈ new_events w
             (process_unread_important_messages cfg backend resp ds w).2 →
       ∃ d m,
         d ∈ ds ∧ k = Some (dialog_key d)
         ∧ m ∈ d_history d
         ∧ m ∈ get_messages d (Z.max (d_unread_count d) 1)
         ∧ p = with_account cfg (cron_payload d m)
         ∧ p_message_id p = m_id m
         ∧ p_message p = extract_message_text m
         ∧ p_message p ≠ EmptyString
         ∧ p_message p
           = extraction_policy (default EmptyString (m_raw_text m))
               (default EmptyString (m_message m)) (m_media m)
         ∧ (Py.strip (default EmptyString (m_raw_text m)) = EmptyString →
            Py.strip (default EmptyString (m_message m)) = EmptyString →
            m_media m = true →
            p_message p = "[Media message]"%string))
  ∧ (∀ cfg backend resp now ds w k p ok,
       Sent k p ok
         ∈ new_events w (backfill_history cfg backend resp now ds w).2 →
       ∃ d m,
         d ∈ ds ∧ k = Some (dialog_key d)
         ∧ m ∈ d_history d
         ∧ m ∈ iter_messages d (backfill_limit cfg)
         ∧ p = with_account cfg (backfill_payload d m)
         ∧ p_message_id p = m_id m
         ∧ p_message p = extract_message_text m
         ∧ p_message p ≠ EmptyString
         ∧ p_message p
           = extraction_policy (default EmptyString (m_raw_text m))
               (default EmptyString (m_message m)) (m_media m)
         ∧ (Py.strip (default EmptyString (m_raw_text m)) = EmptyString →
            Py.strip (default EmptyString (m_message m)) = EmptyString →
            m_media m = true →
            p_message p = "[Media message]"%string))
  ∧ (∀ m,
       Py.strip (default EmptyString (m_raw_text m)) = EmptyString →
       Py.strip (default EmptyString (m_message m)) = EmptyString →
       m_media m = true →
       extract_message_text m = "[Media message]"%string)
  ∧ (Scenario.texts
       (trace (process_unread_important_messages Scenario.watch_everything
                 Scenario.accepts_all Scenario.contacts_555
                 [Scenario.one_photo] Scenario.fresh).2)
     = ["[Media message]"%string]
     ∧ Scenario.texts
         (trace (backfill_history Scenario.watch_everything
                   Scenario.accepts_all Scenario.contacts_555 Scenario.today
                   [Scenario.one_photo] Scenario.fresh).2)
       = ["[Media message]"%string]).
Proof.
  split.
  { intros m. split;
      [apply extract_message_text_nonempty | apply extract_message_text_policy]. }
  split.
  { intros cfg backend resp ds w k p ok Hin.
    destruct (sweep_provenance _ _ _ _ _ _ _ _ Hin)
      as (d & m & Hd & Hk & _ & _ & Hm & ->).
    exists d, m. split; [done|]. split; [done|].
    split; [eapply elem_of_sublist; [exact Hm | apply get_messages_sublist]|].
    split; [done|]. split; [done|]. split; [done|]. split; [done|].
    change (p_message (with_account cfg (cron_payload d m)))
      with (extract_message_text m).
    split; [apply extract_message_text_nonempty|].
    split; [apply extract_message_text_policy | apply media_only_text]. }
  split.
  { intros cfg backend resp now ds w k p ok Hin.
    destruct (backfill_provenance _ _ _ _ _ _ _ _ _ Hin)
      as (d & m & Hd & Hk & _ & _ & Hm & _ & ->).
    exists d, m. split; [done|]. split; [done|].
    split; [eapply elem_of_sublist; [exact Hm | apply iter_messages_sublist]|].
    split; [done|]. split; [done|]. split; [done|]. split; [done|].
    change (p_message (with_account cfg (backfill_payload d m)))
      with (extract_message_text m).
    split; [apply extract_message_text_nonempty|].
    split; [apply extract_message_text_policy | apply media_only_text]. }
  split; [exact media_only_text | by vm_compute].
Qed.

(** Witness of C5: the photo without caption, swept and backfilled from
    the chat that holds it. *)
Lemma sweep_and_backfill_text_is_extracted_witness :
  let cfg := Scenario.watch_everything in
  let d := Scenario.one_photo in
  (let p := with_account cfg (cron_payload d Scenario.photo) in
   let w' := (process_unread_important_messages cfg Scenario.accepts_all
                Scenario.contacts_555 [d] Scenario.fresh).2 in
   Sent (Some "User:555") p true ∈ new_events Scenario.fresh w'
   ∧ ∃ d' m, d' ∈ [d] ∧ Some "User:555"%string = Some (dialog_key d')
             ∧ m ∈ d_history d'
             ∧ p = with_account cfg (cron_payload d' m)
             ∧ p_message_id p = m_id m
             ∧ p_message p = extract_message_text m
             ∧ p_message p = "[Media message]"%string)
  ∧ (let p := with_account cfg (backfill_payload d Scenario.photo) in
     let w' := (backfill_history cfg Scenario.accepts_all
                  Scenario.contacts_555 Scenario.today [d]
                  Scenario.fresh).2 in
     Sent (Some "User:555") p true ∈ new_events Scenario.fresh w'
     ∧ ∃ d' m, d' ∈ [d] ∧ Some "User:555"%string = Some (dialog_key d')
               ∧ m ∈ d_history d'
               ∧ p = with_account cfg (backfill_payload d' m)
               ∧ p_message_id p = m_id m
               ∧ p_message p = extract_message_text m
               ∧ p_message p = "[Media message]"%string)
  ∧ (Py.strip (default EmptyString (m_raw_text Scenario.photo)) = EmptyString
     ∧ Py.strip (default EmptyString (m_message Scenario.photo)) = EmptyString
     ∧ m_media Scenario.photo = true
     ∧ extract_message_text Scenario.photo = "[Media message]"%string).
Proof.
  intros cfg d.
  destruct sweep_and_backfill_text_is_extracted
    as (_ & Hsweep & Hbackfill & Hmedia & _).
  split; [|split].
  - intros p w'.
    assert (Sent (Some "User:555") p true ∈ new_events Scenario.fresh w')
      as Hin by (vm_compute; apply list_elem_of_here).
    split; [exact Hin|].
    destruct (Hsweep cfg Scenario.accepts_all Scenario.contacts_555 [d]
                Scenario.fresh (Some "User:555"%string) p true Hin)
      as (d' & m & Hd & Hk & Hm & _ & Hp & Hid & Htext & _ & _ & _).
    exists d', m. by vm_compute.
  - intros p w'.
    assert (Sent (Some "User:555") p true ∈ new_events Scenario.fresh w')
      as Hin by (vm_compute; apply list_elem_of_here).
    split; [exact Hin|].
    destruct (Hbackfill cfg Scenario.accepts_all Scenario.contacts_555
                Scenario.today [d] Scenario.fresh (Some "User:555"%string)
                p true Hin)
      as (d' & m & Hd & Hk & Hm & _ & Hp & Hid & Htext & _ & _ & _).
    exists d', m. by vm_compute.
  - split; [reflexivity|]. split; [reflexivity|]. split; [reflexivity|].
    exact (Hmedia Scenario.photo eq_refl eq_refl eq_refl).
Defined.
